(** * The voice-session hook [useGeminiLive]: a shallow embedding

    The hook owns one voice session at a time, over one of two transports:
    a duplex live-audio session (the "Gemini" path) or a turn-based loop of
    speech recognition, one completion request and speech synthesis (the
    "OpenAI / Groq" path).

    Conventions of the embedding.
    - React state ([status], [logs], [outputAnalyser]) and every [useRef]
      slot are fields of one record [State]; a setter call stores the value.
    - Browser objects (audio contexts, streams, nodes, recognisers, remote
      sessions) are numbered handles drawn from a fresh-name supply; the
      calls that hand one out, start, stop or release it are appended to
      the history [calls].  Wiring of audio nodes and console output leave the
      state alone and are not recorded.
    - [window.speechSynthesis] is the utterance queue [synthQueue];
      in-flight completion requests are [pendingFetch].
    - An [async] function is cut where it waits for the page or the
      network ([getUserMedia], the voices, [fetch], the audio decoder): each
      piece is one function on [State], and whatever the environment answers
      (a clock reading, a decoded buffer, a rejected promise) is an argument.
      A handler runs to its next cut without another handler in between;
      at a cut, any other handler may run.
    - A JS string is a [string] whose characters are code units below 256.
    - The times of the playback schedule are binary64 numbers, the [float]
      of [PrimFloat], added and compared as doubles are.  The settings of an
      utterance and the lengths of the drawing are rationals.
    - Every [new Date()] evaluated in one run of a handler reads [now]. *)

From Stdlib Require Import Bool List String Ascii Arith Lia.
From Stdlib Require Import NArith ZArith QArith Qminmax Lqa.
From Stdlib Require PrimFloat FloatOps SpecFloat Uint63.
Import ListNotations.
Import PrimFloat.

#[local] Set Warnings "-inexact-float".

Local Close Scope Q_scope.
Local Open Scope string_scope.
Local Open Scope list_scope.
Local Open Scope nat_scope.

(** ** JavaScript strings *)

Module Js.

(** Truthiness of a string: only the empty string is falsy. *)
Definition truthy (s : string) : bool :=
  match s with EmptyString => false | String _ _ => true end.

(** [a || b] on strings. *)
Definition or_else (a b : string) : string := if truthy a then a else b.

(** [s.startsWith(p)]. *)
Definition startsWith (p s : string) : bool := String.prefix p s.

(** [s.includes(p)]: [p] occurs at some offset of [s]. *)
Fixpoint includes (p s : string) : bool :=
  String.prefix p s ||
  match s with
  | EmptyString => false
  | String _ t => includes p t
  end.

(** White space and line terminators of ECMAScript among the code units
    below 256: TAB, LF, VT, FF, CR, SP and NBSP. *)
Definition isWhiteSpace (c : ascii) : bool :=
  match nat_of_ascii c with
  | 9 | 10 | 11 | 12 | 13 | 32 | 160 => true
  | _ => false
  end.

Fixpoint trimStart (s : string) : string :=
  match s with
  | EmptyString => EmptyString
  | String c t => if isWhiteSpace c then trimStart t else s
  end.

Fixpoint trimEnd (s : string) : string :=
  match s with
  | EmptyString => EmptyString
  | String c t =>
      match trimEnd t with
      | EmptyString => if isWhiteSpace c then EmptyString else String c EmptyString
      | t' => String c t'
      end
  end.

(** [s.trim()]. *)
Definition trim (s : string) : string := trimEnd (trimStart s).

(** [s] consists of white space only (the empty string included). *)
Fixpoint allWhiteSpace (s : string) : bool :=
  match s with
  | EmptyString => true
  | String c t => isWhiteSpace c && allWhiteSpace t
  end.

(** Lower-casing of one code unit below 256: A-Z and the accented capitals
    of Latin-1 (all of 192..222 but the multiplication sign 215). *)
Definition lowerChar (c : ascii) : ascii :=
  let n := nat_of_ascii c in
  if ((65 <=? n) && (n <=? 90)) ||
     ((192 <=? n) && (n <=? 222) && negb (n =? 215))
  then ascii_of_nat (n + 32) else c.

(** [s.toLowerCase()]. *)
Fixpoint toLowerCase (s : string) : string :=
  match s with
  | EmptyString => EmptyString
  | String c t => String (lowerChar c) (toLowerCase t)
  end.

(** *** JavaScript numbers

    A number is a double; its value is read through [Prim2SF]. *)

(** [Number.isNaN(x)]. *)
Definition isNaN (x : float) : bool :=
  match FloatOps.Prim2SF x with
  | SpecFloat.S754_nan => true
  | _ => false
  end.

(** [a < b] and [a >= b]; both are false when either side is [NaN]. *)
Definition lt (a b : float) : bool :=
  SpecFloat.SFltb (FloatOps.Prim2SF a) (FloatOps.Prim2SF b).

Definition ge (a b : float) : bool :=
  SpecFloat.SFleb (FloatOps.Prim2SF b) (FloatOps.Prim2SF a).

(** [Math.max(a, b)]: [NaN] when either is, and [+0] above [-0]. *)
Definition max (a b : float) : float :=
  match SpecFloat.SFcompare (FloatOps.Prim2SF a) (FloatOps.Prim2SF b) with
  | Some Lt => b
  | Some Gt => a
  | Some Eq => if get_sign a then b else a
  | None => nan
  end.

(** The real number a finite double stands for, and 0 for the others. *)
Definition value (x : float) : Q :=
  match FloatOps.Prim2SF x with
  | SpecFloat.S754_finite sign m e =>
      (inject_Z (if sign then Z.neg m else Z.pos m) * Qpower 2 e)%Q
  | _ => 0%Q
  end.

End Js.

(** ** Types of the hook *)

(** Modelled from the spec: [ConnectionState] of [../types], which is not
    among the sources; its four values are the ones the hook assigns. *)
Inductive ConnectionState := DISCONNECTED | CONNECTING | CONNECTED | ERROR.

(** Modelled from the spec: [LogEntry] of [../types], with its sender
    ([user], [ai] or [system]), as [addLog] builds it. *)
Inductive Sender := user | ai | system.

Record LogEntry := {
  timestamp : nat;
  sender : Sender;
  message : string
}.

(** Modelled from the spec: [AIConfig] of [../types], with the fields the
    hook reads; the provider is kept as the string [connect] compares. *)
Record AIConfig := {
  provider : string;
  modelId : string;
  voiceName : string;
  systemInstruction : string;
  apiKey : string
}.

Definition SAMPLE_RATE_INPUT : N := 16000%N.
Definition SAMPLE_RATE_OUTPUT : N := 24000%N.

(** ** Browser objects *)

(** A [SpeechSynthesisVoice]. *)
Record Voice := {
  voice_name : string;
  voice_lang : string
}.

(** A [SpeechSynthesisUtterance]; [utt_owner] is the recogniser its
    [onend] and [onerror] closures restart. *)
Record Utterance := {
  utt_text : string;
  utt_pitch : Q;
  utt_rate : Q;
  utt_voice : option Voice;
  utt_owner : nat
}.

(** The chat-completion request handed to [fetch]. *)
Record CompletionRequest := {
  req_url : string;
  req_authorization : string;
  req_model : string;
  req_system : string;
  req_user : string
}.

(** Calls on browser handles, in the order they were issued. *)
Inductive Call :=
| NewAudioContext (ctx : nat) (sampleRate : option N)
| ContextClose (ctx : nat)
| GetUserMedia (stream : nat)
| StreamStopTracks (stream : nat)
| ProcessorDisconnect (node : nat)
| SourceStart (src : nat) (when : float) (duration : float)
| SourceStop (src : nat)
| NewRecognition (rec : nat)
| RecognitionStart (rec : nat)
| RecognitionStop (rec : nat)
| LiveConnect (session : nat) (cfg : AIConfig).

(** What the page offers the hook when a handler runs. *)
Record Browser := {
  hasSpeechRecognition : bool;     (* window.SpeechRecognition || webkit... *)
  hasSpeechSynthesis : bool;       (* window.speechSynthesis *)
  getVoices : list Voice;          (* window.speechSynthesis.getVoices() *)
  env_API_KEY : option string      (* process.env.API_KEY *)
}.

(** ** The state of the hook *)

Record State := {
  (* useState *)
  status : ConnectionState;
  logs : list LogEntry;
  outputAnalyser : option nat;
  (* useRef, live-audio path *)
  inputContextRef : option nat;
  outputContextRef : option nat;
  streamRef : option nat;
  processorRef : option nat;
  nextStartTimeRef : float;
  sourcesRef : list nat;
  activeSessionRef : option nat;
  (* useRef, turn-based path *)
  recognitionRef : option nat;
  isProcessingRef : bool;
  (* useRef, transcript accumulation *)
  currentInputRef : string;
  currentOutputRef : string;
  (* the page *)
  synthQueue : list Utterance;
  pendingFetch : list CompletionRequest;
  calls : list Call;
  fresh : nat
}.

(** The hook as first rendered. *)
Definition initial : State := {|
  status := DISCONNECTED; logs := []; outputAnalyser := None;
  inputContextRef := None; outputContextRef := None; streamRef := None;
  processorRef := None; nextStartTimeRef := 0; sourcesRef := [];
  activeSessionRef := None;
  recognitionRef := None; isProcessingRef := false;
  currentInputRef := ""; currentOutputRef := "";
  synthQueue := []; pendingFetch := []; calls := []; fresh := 0
|}.

(** Field updates. *)
Definition setStatus (v : ConnectionState) (s : State) : State :=
  let 'Build_State _ a2 a3 a4 a5 a6 a7 a8 a9 a10 a11 a12 a13 a14 a15 a16 a17 a18 := s in
  Build_State v a2 a3 a4 a5 a6 a7 a8 a9 a10 a11 a12 a13 a14 a15 a16 a17 a18.
Definition setLogs (v : list LogEntry) (s : State) : State :=
  let 'Build_State a1 _ a3 a4 a5 a6 a7 a8 a9 a10 a11 a12 a13 a14 a15 a16 a17 a18 := s in
  Build_State a1 v a3 a4 a5 a6 a7 a8 a9 a10 a11 a12 a13 a14 a15 a16 a17 a18.
Definition setOutputAnalyser (v : option nat) (s : State) : State :=
  let 'Build_State a1 a2 _ a4 a5 a6 a7 a8 a9 a10 a11 a12 a13 a14 a15 a16 a17 a18 := s in
  Build_State a1 a2 v a4 a5 a6 a7 a8 a9 a10 a11 a12 a13 a14 a15 a16 a17 a18.
Definition set_inputContextRef (v : option nat) (s : State) : State :=
  let 'Build_State a1 a2 a3 _ a5 a6 a7 a8 a9 a10 a11 a12 a13 a14 a15 a16 a17 a18 := s in
  Build_State a1 a2 a3 v a5 a6 a7 a8 a9 a10 a11 a12 a13 a14 a15 a16 a17 a18.
Definition set_outputContextRef (v : option nat) (s : State) : State :=
  let 'Build_State a1 a2 a3 a4 _ a6 a7 a8 a9 a10 a11 a12 a13 a14 a15 a16 a17 a18 := s in
  Build_State a1 a2 a3 a4 v a6 a7 a8 a9 a10 a11 a12 a13 a14 a15 a16 a17 a18.
Definition set_streamRef (v : option nat) (s : State) : State :=
  let 'Build_State a1 a2 a3 a4 a5 _ a7 a8 a9 a10 a11 a12 a13 a14 a15 a16 a17 a18 := s in
  Build_State a1 a2 a3 a4 a5 v a7 a8 a9 a10 a11 a12 a13 a14 a15 a16 a17 a18.
Definition set_processorRef (v : option nat) (s : State) : State :=
  let 'Build_State a1 a2 a3 a4 a5 a6 _ a8 a9 a10 a11 a12 a13 a14 a15 a16 a17 a18 := s in
  Build_State a1 a2 a3 a4 a5 a6 v a8 a9 a10 a11 a12 a13 a14 a15 a16 a17 a18.
Definition set_nextStartTimeRef (v : float) (s : State) : State :=
  let 'Build_State a1 a2 a3 a4 a5 a6 a7 _ a9 a10 a11 a12 a13 a14 a15 a16 a17 a18 := s in
  Build_State a1 a2 a3 a4 a5 a6 a7 v a9 a10 a11 a12 a13 a14 a15 a16 a17 a18.
Definition set_sourcesRef (v : list nat) (s : State) : State :=
  let 'Build_State a1 a2 a3 a4 a5 a6 a7 a8 _ a10 a11 a12 a13 a14 a15 a16 a17 a18 := s in
  Build_State a1 a2 a3 a4 a5 a6 a7 a8 v a10 a11 a12 a13 a14 a15 a16 a17 a18.
Definition set_activeSessionRef (v : option nat) (s : State) : State :=
  let 'Build_State a1 a2 a3 a4 a5 a6 a7 a8 a9 _ a11 a12 a13 a14 a15 a16 a17 a18 := s in
  Build_State a1 a2 a3 a4 a5 a6 a7 a8 a9 v a11 a12 a13 a14 a15 a16 a17 a18.
Definition set_recognitionRef (v : option nat) (s : State) : State :=
  let 'Build_State a1 a2 a3 a4 a5 a6 a7 a8 a9 a10 _ a12 a13 a14 a15 a16 a17 a18 := s in
  Build_State a1 a2 a3 a4 a5 a6 a7 a8 a9 a10 v a12 a13 a14 a15 a16 a17 a18.
Definition set_isProcessingRef (v : bool) (s : State) : State :=
  let 'Build_State a1 a2 a3 a4 a5 a6 a7 a8 a9 a10 a11 _ a13 a14 a15 a16 a17 a18 := s in
  Build_State a1 a2 a3 a4 a5 a6 a7 a8 a9 a10 a11 v a13 a14 a15 a16 a17 a18.
Definition set_currentInputRef (v : string) (s : State) : State :=
  let 'Build_State a1 a2 a3 a4 a5 a6 a7 a8 a9 a10 a11 a12 _ a14 a15 a16 a17 a18 := s in
  Build_State a1 a2 a3 a4 a5 a6 a7 a8 a9 a10 a11 a12 v a14 a15 a16 a17 a18.
Definition set_currentOutputRef (v : string) (s : State) : State :=
  let 'Build_State a1 a2 a3 a4 a5 a6 a7 a8 a9 a10 a11 a12 a13 _ a15 a16 a17 a18 := s in
  Build_State a1 a2 a3 a4 a5 a6 a7 a8 a9 a10 a11 a12 a13 v a15 a16 a17 a18.
Definition set_synthQueue (v : list Utterance) (s : State) : State :=
  let 'Build_State a1 a2 a3 a4 a5 a6 a7 a8 a9 a10 a11 a12 a13 a14 _ a16 a17 a18 := s in
  Build_State a1 a2 a3 a4 a5 a6 a7 a8 a9 a10 a11 a12 a13 a14 v a16 a17 a18.
Definition set_pendingFetch (v : list CompletionRequest) (s : State) : State :=
  let 'Build_State a1 a2 a3 a4 a5 a6 a7 a8 a9 a10 a11 a12 a13 a14 a15 _ a17 a18 := s in
  Build_State a1 a2 a3 a4 a5 a6 a7 a8 a9 a10 a11 a12 a13 a14 a15 v a17 a18.
Definition set_calls (v : list Call) (s : State) : State :=
  let 'Build_State a1 a2 a3 a4 a5 a6 a7 a8 a9 a10 a11 a12 a13 a14 a15 a16 _ a18 := s in
  Build_State a1 a2 a3 a4 a5 a6 a7 a8 a9 a10 a11 a12 a13 a14 a15 a16 v a18.
Definition set_fresh (v : nat) (s : State) : State :=
  let 'Build_State a1 a2 a3 a4 a5 a6 a7 a8 a9 a10 a11 a12 a13 a14 a15 a16 a17 _ := s in
  Build_State a1 a2 a3 a4 a5 a6 a7 a8 a9 a10 a11 a12 a13 a14 a15 a16 a17 v.

(** Record one call on a browser handle. *)
Definition call (c : Call) (s : State) : State := set_calls (calls s ++ [c]) s.

(** Several calls in a row. *)
Definition callAll (cs : list Call) (s : State) : State := set_calls (calls s ++ cs) s.

(** [addLog(sender, message)]: append one entry stamped with the clock. *)
Definition addLog (now : nat) (who : Sender) (msg : string) (s : State) : State :=
  setLogs (logs s ++ [{| timestamp := now; sender := who; message := msg |}]) s.

(** ** Teardown *)

(** [cleanup()].  Every [source.stop()] sits in its own [try]/[catch], so the
    loop reaches every registered source whether or not a call throws.
    [speechSynthesis.cancel()] empties the utterance queue. *)
Definition cleanup (B : Browser) (s : State) : State :=
  let s := callAll (map SourceStop (sourcesRef s)) s in
  let s := set_sourcesRef [] s in
  let s := match inputContextRef s with
           | Some c => set_inputContextRef None (call (ContextClose c) s)
           | None => s
           end in
  let s := match outputContextRef s with
           | Some c => set_outputContextRef None (call (ContextClose c) s)
           | None => s
           end in
  let s := match streamRef s with
           | Some m => set_streamRef None (call (StreamStopTracks m) s)
           | None => s
           end in
  let s := match processorRef s with
           | Some p => set_processorRef None (call (ProcessorDisconnect p) s)
           | None => s
           end in
  let s := match recognitionRef s with
           | Some r => call (RecognitionStop r) (set_recognitionRef None s)
           | None => s
           end in
  let s := if hasSpeechSynthesis B then set_synthQueue [] s else s in
  let s := set_activeSessionRef None s in
  let s := setOutputAnalyser None s in
  setStatus DISCONNECTED s.

(** [disconnect()]. *)
Definition disconnect (B : Browser) (now : nat) (s : State) : State :=
  cleanup B (addLog now system "Terminating Uplink..." s).

(** ** What the environment answers *)

(** A thrown value: its [message] property (absent on values that are not
    errors) and its rendering by [String(...)]. *)
Record Thrown := {
  error_message : option string;
  error_string : string
}.

(** [error.message || String(error)]. *)
Definition messageOrString (e : Thrown) : string :=
  match error_message e with
  | Some m => Js.or_else m (error_string e)
  | None => error_string e
  end.

(** [error.message] spliced into a template literal. *)
Definition messageText (e : Thrown) : string :=
  match error_message e with
  | Some m => m
  | None => "undefined"
  end.

(** Result of a constructor call or of an awaited promise. *)
Inductive Outcome (A : Type) :=
| Ok (a : A)
| Throws (e : Thrown).
Arguments Ok {A} a.
Arguments Throws {A} e.

(** What the handlers installed by [connectOpenAI] close over. *)
Record TurnBased := {
  tb_config : AIConfig;
  tb_baseUrl : string;
  tb_recognition : nat
}.

(** Where an [async] function stands when it hands control back: it ran to
    its end (having installed the recognition handlers of a turn-based
    session or not), it threw outside every [try], or it waits on a promise. *)
Inductive Async :=
| Returned
| Installed (session : TurnBased)
| Rejected
| AwaitUserMedia (config : AIConfig)
| AwaitVoices (config : AIConfig).

(** Draw a fresh handle. *)
Definition newHandle (s : State) : nat * State := (fresh s, set_fresh (S (fresh s)) s).

(** ** The live-audio path *)

(** A [LiveServerMessage], flattened to what [onmessage] reads:
    [serverContent?.inputTranscription?.text],
    [serverContent?.outputTranscription?.text],
    [serverContent?.turnComplete],
    [serverContent?.modelTurn?.parts?.[0]?.inlineData?.data] and
    [serverContent?.interrupted]; an absent part is [None] or [false]. *)
Record LiveServerMessage := {
  inputTranscription : option string;
  outputTranscription : option string;
  turnComplete : bool;
  inlineData : option string;
  interrupted : bool
}.

(** Readings taken while one message is handled: the output clock, the
    duration of the decoded buffer (or the decoding error), and which
    sources reject [stop()]. *)
Record Playback := {
  currentTime : float;
  decodeAudioData : Outcome float;
  stopThrows : nat -> bool
}.

(** [if (x?.text) buffer += x.text]. *)
Definition appendDelta (delta : option string) (buffer : string) : string :=
  match delta with
  | Some t => if Js.truthy t then buffer ++ t else buffer
  | None => buffer
  end.

(** The transcription deltas of [onmessage]. *)
Definition onmessage_transcripts (m : LiveServerMessage) (s : State) : State :=
  let s := set_currentInputRef (appendDelta (inputTranscription m) (currentInputRef s)) s in
  set_currentOutputRef (appendDelta (outputTranscription m) (currentOutputRef s)) s.

(** The [turnComplete] branch of [onmessage]. *)
Definition onmessage_turnComplete (now : nat) (m : LiveServerMessage) (s : State) : State :=
  if turnComplete m then
    let s := if Js.truthy (Js.trim (currentInputRef s))
             then set_currentInputRef "" (addLog now user (Js.trim (currentInputRef s)) s)
             else s in
    if Js.truthy (Js.trim (currentOutputRef s))
    then set_currentOutputRef "" (addLog now ai (Js.trim (currentOutputRef s)) s)
    else s
  else s.

(** *** The audio branch of [onmessage]

    [decodeAudioData] and [decode] of [../utils/audioUtils] are not among
    the sources: what the handler uses of them, the duration of the buffer or
    the error, is read from [P].  The handler waits for the decoder
    ([await decodeAudioData(...)]), and other callbacks may run meanwhile:
    the branch is cut there, into [onmessage_clamp] and [onmessage_play]. *)

(** A handler waiting for its decoder: the context it captured in [ctx]
    and the message it goes on with. *)
Record Suspended := {
  sus_context : nat;
  sus_message : LiveServerMessage
}.

(** Up to the [await]: the cursor is clamped to the output clock. *)
Definition onmessage_clamp (P : Playback) (m : LiveServerMessage) (s : State)
    : State * option Suspended :=
  match inlineData m, outputContextRef s with
  | Some base64Audio, Some ctx =>
      if Js.truthy base64Audio then
        (set_nextStartTimeRef (Js.max (nextStartTimeRef s) (currentTime P)) s,
         Some {| sus_context := ctx; sus_message := m |})
      else (s, None)
  | _, _ => (s, None)
  end.

(** From the [await] to the end of the [try]: a decoded buffer is started
    at the cursor as it is now, the cursor advances by its duration and the
    source is registered, on the captured context and with no look at
    [outputContextRef].  A decoding error is caught and changes nothing. *)
Definition onmessage_play (P : Playback) (k : Suspended) (s : State) : State :=
  match decodeAudioData P with
  | Ok duration =>
      let '(source, s) := newHandle s in
      let s := call (SourceStart source (nextStartTimeRef s) duration) s in
      let s := set_nextStartTimeRef (nextStartTimeRef s + duration)%float s in
      set_sourcesRef (sourcesRef s ++ [source]) s
  | Throws _ => s
  end.

(** The audio branch when the decoder settles before any other callback
    runs: [onmessage_clamp], then [onmessage_play] with nothing in between.
    The runs in which other callbacks come in between are those of
    [interleave]. *)
Definition onmessage_audio (P : Playback) (m : LiveServerMessage) (s : State) : State :=
  match onmessage_clamp P m s with
  | (s, Some k) => onmessage_play P k s
  | (s, None) => s
  end.

(** [sourcesRef.current.forEach(src => src.stop())] without a [catch]: the
    calls issued, and whether the loop ran to its end. *)
Fixpoint stopEach (throws : nat -> bool) (srcs : list nat) : list Call * bool :=
  match srcs with
  | [] => ([], true)
  | src :: rest =>
      if throws src then ([SourceStop src], false)
      else let '(cs, done) := stopEach throws rest in (SourceStop src :: cs, done)
  end.

(** The [interrupted] branch of [onmessage]. *)
Definition onmessage_interrupted (P : Playback) (now : nat) (m : LiveServerMessage) (s : State) : State :=
  if interrupted m then
    let s := addLog now system "Interruption detected." s in
    let s := if Js.truthy (Js.trim (currentOutputRef s))
             then set_currentOutputRef ""
                    (addLog now ai (Js.trim (currentOutputRef s) ++ " -- [INTERRUPTED]") s)
             else s in
    let '(cs, done) := stopEach (stopThrows P) (sourcesRef s) in
    let s := callAll cs s in
    if done then set_nextStartTimeRef 0 (set_sourcesRef [] s) else s
  else s.

(** [onmessage(message)] up to its [await], or to its end when it does not
    wait. *)
Definition onmessage_begin (P : Playback) (now : nat) (m : LiveServerMessage) (s : State)
    : State * option Suspended :=
  match onmessage_clamp P m (onmessage_turnComplete now m (onmessage_transcripts m s)) with
  | (s, Some k) => (s, Some k)
  | (s, None) => (onmessage_interrupted P now m s, None)
  end.

(** [onmessage(message)] from its [await] to its end. *)
Definition onmessage_resume (P : Playback) (now : nat) (k : Suspended) (s : State) : State :=
  onmessage_interrupted P now (sus_message k) (onmessage_play P k s).

(** [onmessage(message)] when the decoder settles before any other callback
    runs: one message handled from start to end. *)
Definition onmessage (P : Playback) (now : nat) (m : LiveServerMessage) (s : State) : State :=
  onmessage_interrupted P now m
    (onmessage_audio P m
      (onmessage_turnComplete now m
        (onmessage_transcripts m s))).

(** [source.onended]: the finished source leaves the registry. *)
Definition source_onended (source : nat) (s : State) : State :=
  set_sourcesRef (filter (fun x => negb (x =? source)) (sourcesRef s)) s.

(** [onopen()]. *)
Definition onopen (now : nat) (s : State) : State :=
  let s := addLog now system "Uplink established. James is online." s in
  let s := setStatus CONNECTED s in
  let s := set_currentInputRef "" s in
  let s := set_currentOutputRef "" s in
  match inputContextRef s, streamRef s with
  | Some _, Some _ =>
      let '(scriptProcessor, s) := newHandle s in
      set_processorRef (Some scriptProcessor) s
  | _, _ => s
  end.

(** [onclose()]. *)
Definition onclose (now : nat) (s : State) : State :=
  setStatus DISCONNECTED (addLog now system "Connection closed." s).

(** [onerror(err)]; [text] is [err instanceof Error ? err.message : String(err)]. *)
Definition onerror (now : nat) (text : string) (s : State) : State :=
  setStatus ERROR (addLog now system ("System Error: " ++ text) s).

(** The [catch] block of [connectGemini]. *)
Definition connectGemini_catch (B : Browser) (now : nat) (error : Thrown) (s : State) : State :=
  let errorMessage := messageOrString error in
  let s :=
    if Js.includes "service is currently unavailable" errorMessage
    then addLog now system "Error: Service Unavailable. The model server is currently overloaded or experiencing downtime. Please try again later." s
    else addLog now system ("Init Error: " ++ errorMessage) s in
  let s := setStatus ERROR s in
  cleanup B s.

(** What the page answers while [connectGemini] sets up. *)
Record LiveSetup := {
  newInputContext : Outcome unit;     (* new AudioContextClass({sampleRate: 16000}) *)
  newOutputContext : Outcome unit;    (* new AudioContextClass({sampleRate: 24000}) *)
  getUserMedia : Outcome unit;        (* await navigator.mediaDevices.getUserMedia *)
  liveConnect : Outcome unit          (* new GoogleGenAI(...); ai.live.connect(...) *)
}.

(** [connectGemini(config)] up to [await getUserMedia]. *)
Definition connectGemini (B : Browser) (L : LiveSetup) (now : nat) (config : AIConfig)
    (s : State) : State * Async :=
  let s := setStatus CONNECTING s in
  let s := addLog now system ("Initializing JAMES audio interface (" ++ modelId config ++ ")...") s in
  match newInputContext L with
  | Throws e => (connectGemini_catch B now e s, Returned)
  | Ok _ =>
      let '(ictx, s) := newHandle s in
      let s := set_inputContextRef (Some ictx) (call (NewAudioContext ictx (Some SAMPLE_RATE_INPUT)) s) in
      match newOutputContext L with
      | Throws e => (connectGemini_catch B now e s, Returned)
      | Ok _ =>
          let '(octx, s) := newHandle s in
          let s := set_outputContextRef (Some octx) (call (NewAudioContext octx (Some SAMPLE_RATE_OUTPUT)) s) in
          let '(analyser, s) := newHandle s in
          let s := setOutputAnalyser (Some analyser) s in
          let s := addLog now system "Accessing microphone feed..." s in
          (s, AwaitUserMedia config)
      end
  end.

(** [connectGemini(config)] from the moment [getUserMedia] settles. *)
Definition connectGemini_resume (B : Browser) (L : LiveSetup) (now : nat) (config : AIConfig)
    (s : State) : State :=
  match getUserMedia L with
  | Throws e => connectGemini_catch B now e s
  | Ok _ =>
      let '(stream, s) := newHandle s in
      let s := set_streamRef (Some stream) (call (GetUserMedia stream) s) in
      match liveConnect L with
      | Throws e => connectGemini_catch B now e s
      | Ok _ =>
          let '(sessionPromise, s) := newHandle s in
          set_activeSessionRef (Some sessionPromise) (call (LiveConnect sessionPromise config) s)
      end
  end.

(** ** The turn-based path *)

Definition isGroq (config : AIConfig) : bool := Js.startsWith "gsk_" (apiKey config).

Definition baseUrl (config : AIConfig) : string :=
  if isGroq config then "https://api.groq.com/openai/v1" else "https://api.openai.com/v1".

(** What the page answers while [connectOpenAI] sets up. *)
Record SpeechSetup := {
  newSpeechRecognition : Outcome unit;   (* new SpeechRecognition() *)
  recognitionStart : Outcome unit;       (* recognition.start() *)
  newAudioContext : Outcome unit         (* new AudioContext() *)
}.

(** The [try]/[catch] of [connectOpenAI]. *)
Definition connectOpenAI_setup (T : SpeechSetup) (now : nat) (config : AIConfig)
    (s : State) : State * Async :=
  let catch (e : Thrown) (s : State) :=
    setStatus ERROR (addLog now system ("Init Error: " ++ messageText e) s) in
  match newSpeechRecognition T with
  | Throws e => (catch e s, Returned)
  | Ok _ =>
      let '(recognition, s) := newHandle s in
      let s := call (NewRecognition recognition) s in
      let session := {| tb_config := config; tb_baseUrl := baseUrl config;
                        tb_recognition := recognition |} in
      let s := set_recognitionRef (Some recognition) s in
      let s := call (RecognitionStart recognition) s in
      match recognitionStart T with
      | Throws e => (catch e s, Installed session)
      | Ok _ =>
          match newAudioContext T with
          | Throws e => (catch e s, Installed session)
          | Ok _ =>
              let '(ctx, s) := newHandle s in
              let s := call (NewAudioContext ctx None) s in
              let '(analyser, s) := newHandle s in
              (setOutputAnalyser (Some analyser) s, Installed session)
          end
      end
  end.

(** [connectOpenAI(config)] up to the wait for the voices, and through the
    set-up when the voices are already there. *)
Definition connectOpenAI (B : Browser) (T : SpeechSetup) (now : nat) (config : AIConfig)
    (s : State) : State * Async :=
  if negb (hasSpeechRecognition B) then
    (setStatus ERROR
       (addLog now system
          "Error: Browser does not support Web Speech API required for non-Gemini providers." s),
     Returned)
  else
    let s := setStatus CONNECTING s in
    let s := addLog now system
               ("Initializing adapter for " ++ (if isGroq config then "Groq" else "OpenAI")
                ++ " (" ++ modelId config ++ ")...") s in
    if negb (hasSpeechSynthesis B) then (s, Rejected)
    else
      match getVoices B with
      | [] => (s, AwaitVoices config)
      | _ :: _ => connectOpenAI_setup T now config s
      end.

(** [recognition.onstart]. *)
Definition recognition_onstart (now : nat) (s : State) : State :=
  addLog now system "James Online. Listening..." (setStatus CONNECTED s).

(** [recognition.onerror]; [error] is [event.error]. *)
Definition recognition_onerror (now : nat) (error : string) (s : State) : State :=
  if (error =? "no-speech")%string || (error =? "aborted")%string then s
  else if (error =? "not-allowed")%string
       then setStatus ERROR (addLog now system "Error: Microphone access denied." s)
       else s.

(** [recognitionRef.current === recognition]. *)
Definition isCurrentRecognition (tb : TurnBased) (s : State) : bool :=
  match recognitionRef s with
  | Some r => r =? tb_recognition tb
  | None => false
  end.

(** [recognition.onend]. *)
Definition recognition_onend (tb : TurnBased) (s : State) : State :=
  if isCurrentRecognition tb s && negb (isProcessingRef s)
  then call (RecognitionStart (tb_recognition tb)) s
  else s.

(** The last entry of [event.results]: its first alternative's transcript
    and its [isFinal] flag. *)
Record RecognitionResult := {
  transcript : string;
  isFinal : bool
}.

(** The request built by [onresult]. *)
Definition completionRequest (tb : TurnBased) (text : string) : CompletionRequest := {|
  req_url := tb_baseUrl tb ++ "/chat/completions";
  req_authorization := "Bearer " ++ apiKey (tb_config tb);
  req_model := modelId (tb_config tb);
  req_system := systemInstruction (tb_config tb);
  req_user := text
|}.

(** [recognition.onresult] up to [await fetch]. *)
Definition recognition_onresult (tb : TurnBased) (now : nat) (event : RecognitionResult)
    (s : State) : State :=
  if isProcessingRef s then s
  else
    let text := transcript event in
    if isFinal event && (0 <? String.length (Js.trim text)) then
      let s := addLog now user text s in
      let s := set_isProcessingRef true s in
      let s := call (RecognitionStop (tb_recognition tb)) s in
      set_pendingFetch (pendingFetch s ++ [completionRequest tb text]) s
    else s.

(** The cascade of [find] calls that picks the voice of the reply. *)
Definition selectVoice (voices : list Voice) : option Voice :=
  let selectedVoice :=
    find (fun v => Js.includes "Microsoft Daniel" (voice_name v)
                   && Js.includes "pt" (voice_lang v)) voices in
  let selectedVoice :=
    match selectedVoice with
    | Some v => Some v
    | None =>
        find (fun v => Js.includes "pt" (voice_lang v)
                       && (Js.includes "male" (Js.toLowerCase (voice_name v))
                           || Js.includes "masculino" (Js.toLowerCase (voice_name v))))
             voices
    end in
  let selectedVoice :=
    match selectedVoice with
    | Some v => Some v
    | None => find (fun v => (voice_lang v =? "pt-BR")%string) voices
    end in
  match selectedVoice with
  | Some v => Some v
  | None => find (fun v => Js.includes "pt" (voice_lang v)) voices
  end.

(** The utterance built for a reply: fixed pitch and rate, the selected
    voice assigned only when one was found. *)
Definition makeUtterance (B : Browser) (tb : TurnBased) (aiText : string) : Utterance := {|
  utt_text := aiText;
  utt_pitch := 1%Q;
  utt_rate := (11 # 10)%Q;
  utt_voice := selectVoice (getVoices B);
  utt_owner := tb_recognition tb
|}.

(** The JSON body of a completion response:
    [error?.message] and [choices?.[0]?.message?.content]. *)
Record ResponseBody := {
  body_error_message : option string;
  body_content : option string
}.

(** How the completion request ends: [fetch] rejects, or a response arrives
    with its [ok] flag and the outcome of [await response.json()]. *)
Inductive FetchOutcome :=
| FetchRejects (e : Thrown)
| FetchResponds (ok : bool) (json : Outcome ResponseBody).

(** [new Error(message)]. *)
Definition newError (msg : string) : Thrown := {|
  error_message := Some msg;
  error_string := if Js.truthy msg then "Error: " ++ msg else "Error"
|}.

(** [x || fallback] for an optional string. *)
Definition orDefault (x : option string) (fallback : string) : string :=
  match x with
  | Some m => Js.or_else m fallback
  | None => fallback
  end.

(** What the [try] block around the completion request leaves: the reply
    text, or the error that reaches the [catch]. *)
Definition completionResult (out : FetchOutcome) : Outcome string :=
  match out with
  | FetchRejects e => Throws e
  | FetchResponds _ (Throws e) => Throws e
  | FetchResponds false (Ok err) =>
      Throws (newError (orDefault (body_error_message err) "API Request Failed"))
  | FetchResponds true (Ok data) => Ok (orDefault (body_content data) "")
  end.

(** The ways a completion request fails, each with its failure message:
    [fetch] rejects; the body of the response cannot be read; the response is
    not [ok] and carries an upstream message, or carries none. *)
Inductive failsWith : FetchOutcome -> string -> Prop :=
| fetch_rejected (e : Thrown) :
    failsWith (FetchRejects e) (messageText e)
| body_unreadable (ok : bool) (e : Thrown) :
    failsWith (FetchResponds ok (Throws e)) (messageText e)
| refused_with_message (body : ResponseBody) (upstream : string) :
    body_error_message body = Some upstream -> upstream <> "" ->
    failsWith (FetchResponds false (Ok body)) upstream
| refused_without_message (body : ResponseBody) :
    body_error_message body = None \/ body_error_message body = Some "" ->
    failsWith (FetchResponds false (Ok body)) "API Request Failed".

(** Drop the entry at position [i]. *)
Definition removeAt {A : Type} (i : nat) (l : list A) : list A :=
  firstn i l ++ skipn (S i) l.

(** [recognition.onresult] from the moment the request [i] settles: the
    reply is logged and spoken, or the processing flag is cleared and the
    recogniser restarted.  Between [await fetch] and [await response.json()]
    the handler touches nothing, so both are one step. *)
Definition completion_settled (B : Browser) (tb : TurnBased) (now : nat) (i : nat)
    (out : FetchOutcome) (s : State) : State :=
  let s := set_pendingFetch (removeAt i (pendingFetch s)) s in
  match completionResult out with
  | Ok aiText =>
      let s := addLog now ai aiText s in
      if Js.truthy aiText && hasSpeechSynthesis B then
        set_synthQueue (synthQueue s ++ [makeUtterance B tb aiText]) s
      else
        let s := set_isProcessingRef false s in
        call (RecognitionStart (tb_recognition tb)) s
  | Throws error =>
      let s := addLog now system ("LLM Error: " ++ messageText error) s in
      let s := set_isProcessingRef false s in
      call (RecognitionStart (tb_recognition tb)) s
  end.

(** [utterance.onend] and [utterance.onerror] of the utterance at position
    [i] of the queue, which it leaves. *)
Definition utterance_onend (i : nat) (s : State) : State :=
  match nth_error (synthQueue s) i with
  | Some u =>
      let s := set_synthQueue (removeAt i (synthQueue s)) s in
      let s := set_isProcessingRef false s in
      call (RecognitionStart (utt_owner u)) s
  | None => s
  end.

Definition utterance_onerror (i : nat) (s : State) : State := utterance_onend i s.

(** [connectOpenAI(config)] from the moment the voices promise settles. *)
Definition connectOpenAI_resume (T : SpeechSetup) (now : nat) (config : AIConfig)
    (s : State) : State * Async :=
  connectOpenAI_setup T now config s.

(** ** Entry points *)

(** [config.apiKey || process.env.API_KEY]. *)
Definition resolveApiKey (B : Browser) (config : AIConfig) : option string :=
  if Js.truthy (apiKey config) then Some (apiKey config) else env_API_KEY B.

(** [{ ...config, apiKey }]. *)
Definition withApiKey (config : AIConfig) (key : string) : AIConfig := {|
  provider := provider config;
  modelId := modelId config;
  voiceName := voiceName config;
  systemInstruction := systemInstruction config;
  apiKey := key
|}.

(** [connect(config)], up to the first [await] of the pipeline it starts. *)
Definition connect (B : Browser) (L : LiveSetup) (T : SpeechSetup) (now : nat)
    (config : AIConfig) (s : State) : State * Async :=
  let missing :=
    (setStatus ERROR
       (addLog now system
          "Critical Error: API Key missing. Please ensure your API_KEY environment variable is set." s),
     Returned) in
  match resolveApiKey B config with
  | None => missing
  | Some key =>
      if negb (Js.truthy key) then missing
      else
        let effectiveConfig := withApiKey config key in
        if (provider config =? "gemini")%string
        then connectGemini B L now effectiveConfig s
        else connectOpenAI B T now effectiveConfig s
  end.

(** ** Runs of a live session *)

(** What reaches the hook while a live session is open, each message
    handled at once: its decoder settles before the next event. *)
Inductive LiveEvent :=
| Message (P : Playback) (now : nat) (m : LiveServerMessage)
| SourceEnded (source : nat).

Definition handle (e : LiveEvent) (s : State) : State :=
  match e with
  | Message P now m => onmessage P now m s
  | SourceEnded source => source_onended source s
  end.

(** Events handled one after the other, in delivery order. *)
Definition deliver (es : list LiveEvent) (s : State) : State :=
  fold_left (fun s e => handle e s) es s.

(** The calls issued between an earlier state and a later one. *)
Definition callsSince (s s' : State) : list Call :=
  skipn (List.length (calls s)) (calls s').

(** The chunks started by a list of calls: start time and duration. *)
Fixpoint scheduled (cs : list Call) : list (float * float) :=
  match cs with
  | [] => []
  | SourceStart _ t d :: r => (t, d) :: scheduled r
  | _ :: r => scheduled r
  end.

Definition isMessage (e : LiveEvent) : option (Playback * LiveServerMessage) :=
  match e with
  | Message P _ m => Some (P, m)
  | SourceEnded _ => None
  end.

(** The message carries audio, the output context is there and the buffer
    decodes: the chunk that [onmessage] then schedules. *)
Definition schedules (P : Playback) (m : LiveServerMessage) (s : State) : option float :=
  match inlineData m, outputContextRef s, decodeAudioData P with
  | Some b, Some _, Ok d => if Js.truthy b then Some d else None
  | _, _, _ => None
  end.

(** *** Runs with decoders pending

    A live session together with the handlers that wait for their decoder,
    oldest first. *)
Record Live := {
  hook : State;
  decoding : list Suspended
}.

(** What happens to such a session: a message arrives, the decoder of the
    pending handler at position [i] settles, a source ends. *)
Inductive LiveStep :=
| Arrives (P : Playback) (now : nat) (m : LiveServerMessage)
| Decoded (i : nat) (P : Playback) (now : nat)
| Ends (source : nat).

Definition step (e : LiveStep) (l : Live) : Live :=
  match e with
  | Arrives P now m =>
      let '(s, k) := onmessage_begin P now m (hook l) in
      {| hook := s;
         decoding := decoding l ++ match k with Some k => [k] | None => [] end |}
  | Decoded i P now =>
      match nth_error (decoding l) i with
      | Some k => {| hook := onmessage_resume P now k (hook l);
                     decoding := removeAt i (decoding l) |}
      | None => l
      end
  | Ends source => {| hook := source_onended source (hook l); decoding := decoding l |}
  end.

(** Steps taken one after the other, in any interleaving. *)
Definition interleave (es : list LiveStep) (l : Live) : Live :=
  fold_left (fun l e => step e l) es l.

(** No message that arrives is an interruption, and no handler that waits
    belongs to one. *)
Definition calm (es : list LiveStep) : Prop :=
  Forall (fun e => match e with
                   | Arrives _ _ m => interrupted m = false
                   | _ => True
                   end) es.

Definition waitingCalm (l : Live) : Prop :=
  Forall (fun k => interrupted (sus_message k) = false) (decoding l).

(** Chunks in the order they were started, in doubles: none starts before
    [floor], the cursor the chunk before it left, which is the double sum
    of its start and its duration. *)
Fixpoint chained (floor : float) (chunks : list (float * float)) : Prop :=
  match chunks with
  | [] => True
  | (t, d) :: r => Js.lt t floor = false /\ chained (t + d)%float r
  end.

(** The same with [>=], which asks for numbers. *)
Fixpoint chainedGe (floor : float) (chunks : list (float * float)) : Prop :=
  match chunks with
  | [] => True
  | (t, d) :: r => Js.ge t floor = true /\ chainedGe (t + d)%float r
  end.

(** Every start and every end of a chunk is a number. *)
Definition numbers (chunks : list (float * float)) : Prop :=
  Forall (fun c => Js.isNaN (fst c) = false /\ Js.isNaN (fst c + snd c)%float = false) chunks.

(** The real numbers the chunks stand for. *)
Definition exactly (chunks : list (float * float)) : list (Q * Q) :=
  map (fun c => (Js.value (fst c), Js.value (snd c))) chunks.

(** The schedule in exact arithmetic: each chunk starts no earlier than
    [floor], the exact end of the one before. *)
Fixpoint backToBack (floor : Q) (chunks : list (Q * Q)) : Prop :=
  match chunks with
  | [] => True
  | (t, d) :: r => (floor <= t)%Q /\ backToBack (t + d)%Q r
  end.

(** In exact arithmetic, an earlier chunk has ended when a later one
    starts. *)
Fixpoint noOverlap (chunks : list (Q * Q)) : Prop :=
  match chunks with
  | [] => True
  | (t, d) :: r => Forall (fun c => (t + d <= fst c)%Q) r /\ noOverlap r
  end.

(** ** What a teardown owes *)

Definition optCall (f : nat -> Call) (ref : option nat) : list Call :=
  match ref with
  | Some h => [f h]
  | None => []
  end.

(** The releases a teardown owes for what a state holds: stop every
    registered source, close the input and the output context, stop the
    microphone stream, disconnect the processing node, stop the recogniser. *)
Definition teardownCalls (s : State) : list Call :=
  map SourceStop (sourcesRef s)
  ++ optCall ContextClose (inputContextRef s)
  ++ optCall ContextClose (outputContextRef s)
  ++ optCall StreamStopTracks (streamRef s)
  ++ optCall ProcessorDisconnect (processorRef s)
  ++ optCall RecognitionStop (recognitionRef s).

(** Nothing is held any more. *)
Definition tornDown (s : State) : Prop :=
  sourcesRef s = [] /\ inputContextRef s = None /\ outputContextRef s = None
  /\ streamRef s = None /\ processorRef s = None /\ recognitionRef s = None
  /\ activeSessionRef s = None /\ outputAnalyser s = None.

(** The calls that stop or release a handle. *)
Definition isRelease (c : Call) : bool :=
  match c with
  | ContextClose _ | StreamStopTracks _ | ProcessorDisconnect _
  | SourceStop _ | RecognitionStop _ => true
  | _ => false
  end.

Definition releases (cs : list Call) : list Call := filter isRelease cs.


(** ** Transcripts of a turn *)

(** The text of a delta; an absent one adds nothing. *)
Definition deltaText (delta : option string) : string :=
  match delta with
  | Some t => t
  | None => ""
  end.

(** The input and the output deltas of a run, concatenated in delivery
    order. *)
Fixpoint inputDeltas (es : list LiveEvent) : string :=
  match es with
  | [] => ""
  | Message _ _ m :: r => deltaText (inputTranscription m) ++ inputDeltas r
  | SourceEnded _ :: r => inputDeltas r
  end.

Fixpoint outputDeltas (es : list LiveEvent) : string :=
  match es with
  | [] => ""
  | Message _ _ m :: r => deltaText (outputTranscription m) ++ outputDeltas r
  | SourceEnded _ :: r => outputDeltas r
  end.

(** The log entry a buffer gives on a turn boundary: one entry with the
    trimmed text, none when the text is white space only. *)
Definition flushed (now : nat) (who : Sender) (buffer : string) : list LogEntry :=
  if Js.allWhiteSpace buffer then []
  else [{| timestamp := now; sender := who; message := Js.trim buffer |}].

(** The buffer after the boundary: emptied when it was flushed. *)
Definition afterFlush (buffer : string) : string :=
  if Js.allWhiteSpace buffer then buffer else "".

(** Events that end no turn: messages that are neither turn-complete nor
    interrupted, and sources that finish. *)
Definition midTurn (es : list LiveEvent) : Prop :=
  Forall (fun e => match isMessage e with
                   | Some (_, m) => turnComplete m = false /\ interrupted m = false
                   | None => True
                   end) es.

(** ** Runs of a turn-based session *)

(** What reaches the handlers of one turn-based session. *)
Inductive TurnEvent :=
| Started (now : nat)                              (* recognition.onstart *)
| Failed (now : nat) (error : string)              (* recognition.onerror *)
| Ended                                            (* recognition.onend *)
| Result (now : nat) (event : RecognitionResult)   (* recognition.onresult *)
| Settled (B : Browser) (now : nat) (i : nat) (out : FetchOutcome)
| UtteranceEnded (i : nat)                         (* utterance.onend *)
| UtteranceFailed (i : nat).                       (* utterance.onerror *)

Definition turn (tb : TurnBased) (e : TurnEvent) (s : State) : State :=
  match e with
  | Started now => recognition_onstart now s
  | Failed now error => recognition_onerror now error s
  | Ended => recognition_onend tb s
  | Result now event => recognition_onresult tb now event s
  | Settled B now i out => completion_settled B tb now i out s
  | UtteranceEnded i => utterance_onend i s
  | UtteranceFailed i => utterance_onerror i s
  end.

(** The page settles only a request in flight and ends only an utterance it
    holds. *)
Definition deliverable (e : TurnEvent) (s : State) : Prop :=
  match e with
  | Settled _ _ i _ => i < List.length (pendingFetch s)
  | UtteranceEnded i | UtteranceFailed i => i < List.length (synthQueue s)
  | _ => True
  end.

(** The states a session passes through from [s0]. *)
Inductive reaches (tb : TurnBased) (s0 : State) : State -> Prop :=
| reaches_start : reaches tb s0 s0
| reaches_step (s : State) (e : TurnEvent) :
    reaches tb s0 s -> deliverable e s -> reaches tb s0 (turn tb e s).

(** Completion requests in flight plus utterances being spoken. *)
Definition outstanding (s : State) : nat :=
  List.length (pendingFetch s) + List.length (synthQueue s).

(** At most one exchange is outstanding, and the processing flag is up
    while it is. *)
Definition oneAtATime (s : State) : Prop :=
  outstanding s <= 1 /\ (outstanding s = 1 -> isProcessingRef s = true).

(** ** The voice cascade, as an ordered list of predicates *)

(** The language is in the target locale family. *)
Definition inLocaleFamily (v : Voice) : bool := Js.includes "pt" (voice_lang v).

(** The named preferred voice, in the locale family. *)
Definition isPreferredVoice (v : Voice) : bool :=
  Js.includes "Microsoft Daniel" (voice_name v) && inLocaleFamily v.

(** The name carries a gender marker. *)
Definition hasGenderMarker (v : Voice) : bool :=
  Js.includes "male" (Js.toLowerCase (voice_name v))
  || Js.includes "masculino" (Js.toLowerCase (voice_name v)).

(** The language is exactly the target locale. *)
Definition isTargetLocale (v : Voice) : bool := (voice_lang v =? "pt-BR")%string.

Definition voicePreferences : list (Voice -> bool) :=
  [ isPreferredVoice;
    (fun v => inLocaleFamily v && hasGenderMarker v);
    isTargetLocale;
    inLocaleFamily ].

(** The first voice accepted by the first predicate that accepts any. *)
Fixpoint firstMatch (preferences : list (Voice -> bool)) (voices : list Voice) : option Voice :=
  match preferences with
  | [] => None
  | p :: rest =>
      match find p voices with
      | Some v => Some v
      | None => firstMatch rest voices
      end
  end.

(** ** Sessions installed by [connect] *)

(** [tb] is the closure of the recognition handlers that a call of
    [connect] installs: at once when the voices are loaded, or when the
    wait for them is over. *)
Definition installs (B : Browser) (L : LiveSetup) (T T' : SpeechSetup) (now now' : nat)
    (config : AIConfig) (s s1 : State) (tb : TurnBased) : Prop :=
  snd (connect B L T now config s) = Installed tb
  \/ exists effectiveConfig,
       snd (connect B L T now config s) = AwaitVoices effectiveConfig
       /\ snd (connectOpenAI_resume T' now' effectiveConfig s1) = Installed tb.

(** ** Error callbacks *)

(** The callbacks through which a failure reaches the hook. *)
Inductive ErrorCallback :=
| LiveError (text : string)                      (* onerror of the live session *)
| SetupFailure (e : Thrown)                      (* the catch block of connectGemini *)
| RecognitionError (error : string)              (* recognition.onerror *)
| CompletionSettled (tb : TurnBased) (i : nat) (out : FetchOutcome)
| UtteranceError (i : nat).                      (* utterance.onerror *)

Definition runError (B : Browser) (now : nat) (cb : ErrorCallback) (s : State) : State :=
  match cb with
  | LiveError text => onerror now text s
  | SetupFailure e => connectGemini_catch B now e s
  | RecognitionError error => recognition_onerror now error s
  | CompletionSettled tb i out => completion_settled B tb now i out s
  | UtteranceError i => utterance_onerror i s
  end.

(** ** Sample inputs *)

Module Sample.

Definition page : Browser := {|
  hasSpeechRecognition := true;
  hasSpeechSynthesis := true;
  getVoices := [ {| voice_name := "Google US English"; voice_lang := "en-US" |};
                 {| voice_name := "Google portugues do Brasil"; voice_lang := "pt-BR" |} ];
  env_API_KEY := None
|}.

Definition liveConfig : AIConfig := {|
  provider := "gemini";
  modelId := "gemini-live";
  voiceName := "Charon";
  systemInstruction := "You are James.";
  apiKey := "AIza-key"
|}.

Definition groqConfig : AIConfig := {|
  provider := "openai";
  modelId := "llama-3";
  voiceName := "";
  systemInstruction := "You are James.";
  apiKey := "gsk_abc"
|}.

Definition openaiConfig : AIConfig := {|
  provider := "openai";
  modelId := "gpt-4o";
  voiceName := "";
  systemInstruction := "You are James.";
  apiKey := "sk-abc"
|}.

Definition noKeyConfig : AIConfig := withApiKey liveConfig "".

Definition setupOk : LiveSetup := {|
  newInputContext := Ok tt;
  newOutputContext := Ok tt;
  getUserMedia := Ok tt;
  liveConnect := Ok tt
|}.

Definition permissionDenied : Thrown := {|
  error_message := Some "Permission denied";
  error_string := "NotAllowedError: Permission denied"
|}.

Definition micDenied : LiveSetup := {|
  newInputContext := Ok tt;
  newOutputContext := Ok tt;
  getUserMedia := Throws permissionDenied;
  liveConnect := Ok tt
|}.

Definition speechOk : SpeechSetup := {|
  newSpeechRecognition := Ok tt;
  recognitionStart := Ok tt;
  newAudioContext := Ok tt
|}.

(** A live session, set up and opened from the first render. *)
Definition connecting : State := fst (connect page setupOk speechOk 0 liveConfig initial).
Definition live : State := onopen 2 (connectGemini_resume page setupOk 1 liveConfig connecting).

(** A message that carries nothing but audio. *)
Definition audio (data : string) : LiveServerMessage := {|
  inputTranscription := None;
  outputTranscription := None;
  turnComplete := false;
  inlineData := Some data;
  interrupted := false
|}.

(** The output clock reads [t] and the buffer decodes to [d] seconds. *)
Definition playback (t d : float) : Playback := {|
  currentTime := t;
  decodeAudioData := Ok d;
  stopThrows := fun _ => false
|}.

(** Two chunks: 1.5 s delivered at clock 1, then 2 s delivered at clock 2. *)
Definition twoChunks : list LiveEvent :=
  [ Message (playback 1 1.5) 3 (audio "AAAA");
    Message (playback 2 2) 4 (audio "BBBB") ].

(** Two chunks whose first end is not a double: 0.7 s delivered at clock
    0.1, then 0.5 s delivered at clock 0.2. *)
Definition roundedChunks : list LiveEvent :=
  [ Message (playback 0.1 0.7) 3 (audio "AAAA");
    Message (playback 0.2 0.5) 4 (audio "BBBB") ].

(** The same two messages with both decoders settling after both arrivals,
    the second one first. *)
Definition outOfOrder : list LiveStep :=
  [ Arrives (playback 1 1.5) 3 (audio "AAAA");
    Arrives (playback 2 2) 4 (audio "BBBB");
    Decoded 1 (playback 2 2) 5;
    Decoded 0 (playback 1 1.5) 6 ].

(** One chunk of 5 s delivered at clock 0. *)
Definition oneChunk : list LiveEvent := [ Message (playback 0 5) 3 (audio "AAAA") ].

(** A message that carries nothing but an output-transcription delta. *)
Definition said (text : string) : LiveServerMessage := {|
  inputTranscription := None;
  outputTranscription := Some text;
  turnComplete := false;
  inlineData := None;
  interrupted := false
|}.

(** The turn-complete signal. *)
Definition turnDone : LiveServerMessage := {|
  inputTranscription := None;
  outputTranscription := None;
  turnComplete := true;
  inlineData := None;
  interrupted := false
|}.

(** The interruption signal. *)
Definition interruption : LiveServerMessage := {|
  inputTranscription := None;
  outputTranscription := None;
  turnComplete := false;
  inlineData := None;
  interrupted := true
|}.

(** The deltas "Hel" and "lo". *)
Definition hello : list LiveEvent :=
  [ Message (playback 0 0) 3 (said "Hel"); Message (playback 0 0) 4 (said "lo") ].

(** A turn-based session set up from the first render, the voices being
    loaded, and the closure its handlers share. *)
Definition listening : State := fst (connect page setupOk speechOk 0 groqConfig initial).

Definition session : TurnBased := {|
  tb_config := groqConfig;
  tb_baseUrl := "https://api.groq.com/openai/v1";
  tb_recognition := 0
|}.

(** The final transcript "status report". *)
Definition statusReport : RecognitionResult := {|
  transcript := "status report";
  isFinal := true
|}.

(** The completion request is rejected with an upstream message. *)
Definition rateLimited : FetchOutcome :=
  FetchResponds false
    (Ok {| body_error_message := Some "rate limit exceeded"; body_content := None |}).

(** The completion request succeeds. *)
Definition nominal : FetchOutcome :=
  FetchResponds true
    (Ok {| body_error_message := None; body_content := Some "All systems nominal" |}).

(** The session while the request for "status report" is in flight. *)
Definition thinking : State := recognition_onresult session 5 statusReport listening.

End Sample.

(** ** Acceptance of a recognition result *)

(** [onresult] takes a result up: the processing flag is down, the result is
    final and its transcript is not white space only. *)
Definition accepts (event : RecognitionResult) (s : State) : bool :=
  negb (isProcessingRef s) && isFinal event && negb (Js.allWhiteSpace (transcript event)).

(** [onend] restarts its recogniser: it is the one the hook refers to and
    the processing flag is down. *)
Definition keepsAlive (tb : TurnBased) (s : State) : bool :=
  isCurrentRecognition tb s && negb (isProcessingRef s).

(** ** Everything that reaches the hook *)

(** The calls of its user, the promises it waits on and the callbacks of
    both pipelines. *)
Inductive HookEvent :=
| Connect (B : Browser) (L : LiveSetup) (T : SpeechSetup) (now : nat) (config : AIConfig)
| MicrophoneSettled (B : Browser) (L : LiveSetup) (now : nat) (config : AIConfig)
| VoicesSettled (T : SpeechSetup) (now : nat) (config : AIConfig)
| Disconnect (B : Browser) (now : nat)
| SessionOpened (now : nat)
| SessionClosed (now : nat)
| SessionErrored (now : nat) (text : string)
| LiveDelivered (e : LiveEvent)
| TurnDelivered (tb : TurnBased) (e : TurnEvent).

Definition react (e : HookEvent) (s : State) : State :=
  match e with
  | Connect B L T now config => fst (connect B L T now config s)
  | MicrophoneSettled B L now config => connectGemini_resume B L now config s
  | VoicesSettled T now config => fst (connectOpenAI_resume T now config s)
  | Disconnect B now => disconnect B now s
  | SessionOpened now => onopen now s
  | SessionClosed now => onclose now s
  | SessionErrored now text => onerror now text s
  | LiveDelivered e => handle e s
  | TurnDelivered tb e => turn tb e s
  end.

(** Events handled one after the other. *)
Definition reactAll (es : list HookEvent) (s : State) : State :=
  fold_left (fun s e => react e s) es s.

(** The events of a session under way: messages, audio, recognition results,
    completion outcomes, utterances and the recognition errors other than
    "not-allowed". *)
Definition perItem (e : HookEvent) : bool :=
  match e with
  | LiveDelivered _ => true
  | TurnDelivered _ (Failed _ error) => negb (error =? "not-allowed")%string
  | TurnDelivered _ (Started _) => false
  | TurnDelivered _ _ => true
  | _ => false
  end.

(** A state grows out of another: its log and its call history extend the
    other's, and no handle drawn is given back. *)
Definition grows (s s' : State) : Prop :=
  (exists new, logs s' = logs s ++ new)
  /\ (exists cs, calls s' = calls s ++ cs)
  /\ fresh s <= fresh s'.


(** ** The settings form ([SettingsModal]) *)

(** [keyof AIConfig]. *)
Inductive ConfigField := Provider | ModelId | VoiceName | SystemInstruction | ApiKey.

(** [config[field]]. *)
Definition getField (field : ConfigField) (config : AIConfig) : string :=
  match field with
  | Provider => provider config
  | ModelId => modelId config
  | VoiceName => voiceName config
  | SystemInstruction => systemInstruction config
  | ApiKey => apiKey config
  end.

(** [handleChange(field, value)]: the configuration handed to
    [onConfigChange], [{ ...config, [field]: value }]. *)
Definition handleChange (field : ConfigField) (value : string) (config : AIConfig) : AIConfig := {|
  provider := match field with Provider => value | _ => provider config end;
  modelId := match field with ModelId => value | _ => modelId config end;
  voiceName := match field with VoiceName => value | _ => voiceName config end;
  systemInstruction :=
    match field with SystemInstruction => value | _ => systemInstruction config end;
  apiKey := match field with ApiKey => value | _ => apiKey config end
|}.

(** The fields the form has an input for: the model identifier and the
    system prompt. *)
Definition editable (field : ConfigField) : bool :=
  match field with
  | ModelId | SystemInstruction => true
  | _ => false
  end.

(** ** The log view ([Logger]) *)

(** The name shown for a sender. *)
Definition senderLabel (who : Sender) : string :=
  match who with
  | ai => "JAMES"
  | user => "OPERATOR"
  | system => "SYSTEM"
  end.

(** The colour class of that name. *)
Definition senderClass (who : Sender) : string :=
  match who with
  | ai => "text-cyan-400"
  | user => "text-emerald-400"
  | system => "text-slate-400"
  end.

(** One rendered entry: its React key, the time stamp that is formatted for
    display, the colour and the name of the sender, and the message. *)
Record LogRow := {
  row_key : nat;
  row_timestamp : nat;
  row_class : string;
  row_label : string;
  row_message : string
}.

(** [logs.map((log, index) => ...)], from index [k] on. *)
Fixpoint rowsFrom (k : nat) (entries : list LogEntry) : list LogRow :=
  match entries with
  | [] => []
  | log :: rest =>
      {| row_key := k; row_timestamp := timestamp log; row_class := senderClass (sender log);
         row_label := senderLabel (sender log); row_message := message log |}
      :: rowsFrom (S k) rest
  end.

Definition renderRows (entries : list LogEntry) : list LogRow := rowsFrom 0 entries.

(** [logs.length === 0]: the "Awaiting initialization sequence..." line. *)
Definition showsPlaceholder (entries : list LogEntry) : bool := List.length entries =? 0.

(** ** The visualizer ([Visualizer])

    The index into the frequency data is modelled in doubles, since it is
    rounded down to an integer.  The lengths of the drawing are rationals:
    their rounding is not modelled, and the angles are left out. *)

Module Visualizer.

Definition bars : Z := 60.

(** The index of a bar is computed in doubles and rounded down, so it is
    modelled in the binary64 numbers of [PrimFloat].  [number] is the
    double of an integer, exact below [2 ^ 53]. *)
Definition number (z : Z) : PrimFloat.float := PrimFloat.of_uint63 (Uint63.of_Z z).

(** [Math.floor], with [None] for what is not finite. *)
Definition floor (x : PrimFloat.float) : option Z :=
  match FloatOps.Prim2SF x with
  | SpecFloat.S754_zero _ => Some 0%Z
  | SpecFloat.S754_finite sign m e =>
      let n := if sign then Z.neg m else Z.pos m in
      Some (if (0 <=? e)%Z then n * 2 ^ e else n / 2 ^ (- e))%Z
  | _ => None
  end.

(** [Math.floor((i / bars) * bufferLength * 0.5)]. *)
Definition dataIndex (i bufferLength : Z) : option Z :=
  floor (number i / number bars * number bufferLength * 0.5)%float.

(** The sizes [analyser.frequencyBinCount] can have: half of [fftSize], a
    power of two from 32 to 32768 ([connectGemini] sets 512). *)
Definition binCounts : list Z := map (fun k => (2 ^ Z.of_nat k)%Z) (seq 4 11).

(** The loop [for (let i = 0; i < bars; i++)]. *)
Definition barIndices : list Z := map Z.of_nat (seq 0 (Z.to_nat bars)).

(** [Math.min(width, height) / 3]. *)
Definition radius (width height : Q) : Q := (Qmin width height / 3)%Q.

(** A byte of the frequency data, as a number. *)
Definition level (value : Byte.byte) : Q := inject_Z (Z.of_N (Byte.to_N value)).

(** [(value / 255) * (radius * 0.8)]. *)
Definition barHeight (value : Byte.byte) (r : Q) : Q :=
  ((level value / 255) * (r * (8 # 10)))%Q.

(** The distance from the centre at which a bar ends:
    [radius + barHeight + 5]. *)
Definition barEnd (value : Byte.byte) (r : Q) : Q := (r + barHeight value r + 5)%Q.

(** [dataArray.reduce((a, b) => a + b, 0)]. *)
Definition total (dataArray : list Byte.byte) : Q :=
  fold_left (fun a b => (a + level b)%Q) dataArray 0%Q.

(** [radius * 0.4 + (avg / 255) * (radius * 0.4)], [avg] being the sum of
    the data over [bufferLength]. *)
Definition glowRadius (dataArray : list Byte.byte) (r : Q) : Q :=
  let avg := (total dataArray / inject_Z (Z.of_nat (List.length dataArray)))%Q in
  (r * (4 # 10) + (avg / 255) * (r * (4 # 10)))%Q.

(** [!isActive || !analyser]: the frame shows the idle circle and reads no
    frequency data. *)
Definition idle (isActive : bool) (analyser : option nat) : bool :=
  negb isActive || match analyser with Some _ => false | None => true end.

End Visualizer.
(** * Properties *)

(** Symbolic execution of the handlers: unfold the model's own functions
    and field accesses, by value, and nothing of the libraries. *)
Ltac run :=
  cbv beta iota zeta delta
    [status logs outputAnalyser inputContextRef outputContextRef streamRef processorRef
     nextStartTimeRef sourcesRef activeSessionRef recognitionRef isProcessingRef
     currentInputRef currentOutputRef synthQueue pendingFetch calls fresh
     setStatus setLogs setOutputAnalyser set_inputContextRef set_outputContextRef
     set_streamRef set_processorRef set_nextStartTimeRef set_sourcesRef
     set_activeSessionRef set_recognitionRef set_isProcessingRef set_currentInputRef
     set_currentOutputRef set_synthQueue set_pendingFetch set_calls set_fresh
     call callAll addLog newHandle
     inputTranscription outputTranscription turnComplete inlineData interrupted
     currentTime decodeAudioData stopThrows
     hasSpeechRecognition hasSpeechSynthesis getVoices env_API_KEY
     appendDelta onmessage_transcripts onmessage_turnComplete onmessage_audio
     onmessage_clamp onmessage_play onmessage_begin onmessage_resume
     sus_context sus_message
     onmessage_interrupted onmessage source_onended onopen onclose onerror
     connectGemini connectGemini_resume
     newInputContext newOutputContext getUserMedia liveConnect
     newSpeechRecognition recognitionStart newAudioContext
     connectOpenAI_setup connectOpenAI connectOpenAI_resume
     recognition_onstart recognition_onerror isCurrentRecognition recognition_onend
     recognition_onresult completion_settled utterance_onend utterance_onerror
     tb_config tb_baseUrl tb_recognition transcript isFinal
     connect resolveApiKey schedules
     optCall teardownCalls tornDown callsSince runError
     fst snd].

(** The same, through [cleanup] and what calls it. *)
Ltac run_teardown :=
  cbv beta iota zeta delta
    [status logs outputAnalyser inputContextRef outputContextRef streamRef processorRef
     nextStartTimeRef sourcesRef activeSessionRef recognitionRef isProcessingRef
     currentInputRef currentOutputRef synthQueue pendingFetch calls fresh
     setStatus setLogs setOutputAnalyser set_inputContextRef set_outputContextRef
     set_streamRef set_processorRef set_nextStartTimeRef set_sourcesRef
     set_activeSessionRef set_recognitionRef set_isProcessingRef set_currentInputRef
     set_currentOutputRef set_synthQueue set_pendingFetch set_calls set_fresh
     call callAll addLog newHandle
     inputTranscription outputTranscription turnComplete inlineData interrupted
     currentTime decodeAudioData stopThrows
     hasSpeechRecognition hasSpeechSynthesis getVoices env_API_KEY
     appendDelta onmessage_transcripts onmessage_turnComplete onmessage_audio
     onmessage_clamp onmessage_play onmessage_begin onmessage_resume
     sus_context sus_message
     onmessage_interrupted onmessage source_onended onopen onclose onerror
     connectGemini connectGemini_resume
     newInputContext newOutputContext getUserMedia liveConnect
     newSpeechRecognition recognitionStart newAudioContext
     connectOpenAI_setup connectOpenAI connectOpenAI_resume
     recognition_onstart recognition_onerror isCurrentRecognition recognition_onend
     recognition_onresult completion_settled utterance_onend utterance_onerror
     tb_config tb_baseUrl tb_recognition transcript isFinal
     connect resolveApiKey schedules
     optCall teardownCalls tornDown callsSince runError
     fst snd
     cleanup disconnect connectGemini_catch].

Ltac run_in H :=
  cbv beta iota zeta delta
    [status logs outputAnalyser inputContextRef outputContextRef streamRef processorRef
     nextStartTimeRef sourcesRef activeSessionRef recognitionRef isProcessingRef
     currentInputRef currentOutputRef synthQueue pendingFetch calls fresh
     inputTranscription outputTranscription turnComplete inlineData interrupted
     currentTime decodeAudioData stopThrows
     hasSpeechRecognition hasSpeechSynthesis getVoices env_API_KEY
     tb_config tb_baseUrl tb_recognition transcript isFinal
     fst snd] in H.

(** Open a state, a message or a playback record into its fields. *)
Ltac dstate s := destruct s as [st lg an ic oc sm pr nx srcs act rc ip ci co sq pf cs fr].
Ltac dmessage m := destruct m as [m_in m_out m_turn m_audio m_int].
Ltac dplayback P := destruct P as [p_time p_decode p_throws].

Ltac dbrowser B := destruct B as [b_rec b_syn b_voices b_key].

(** Case analysis on whatever a handler branches on. *)
Ltac branch :=
  match goal with
  | |- context [match ?x with _ => _ end] =>
      lazymatch x with
      | context [match _ with _ => _ end] => fail
      | _ => destruct x eqn:?
      end
  end.

Ltac branches := repeat (run; try branch).

(** Re-associate appended lists to the right. *)
Ltac assoc_right :=
  repeat match goal with
  | |- context [(?a ++ ?b) ++ ?c] => rewrite <- (app_assoc a b c)
  end.

(** ** The order of doubles *)

Section Numbers.

Import SpecFloat.

Ltac order_cases :=
  repeat match goal with
  | H : context [Z.compare ?a ?b] |- _ => destruct (Z.compare_spec a b)
  | |- context [Z.compare ?a ?b] => destruct (Z.compare_spec a b)
  | H : context [Pos.compare_cont Eq ?a ?b] |- _ =>
      change (Pos.compare_cont Eq a b) with (Pos.compare a b) in *;
      destruct (Pos.compare_spec a b)
  | |- context [Pos.compare_cont Eq ?a ?b] =>
      change (Pos.compare_cont Eq a b) with (Pos.compare a b) in *;
      destruct (Pos.compare_spec a b)
  end.

Lemma SFcompare_refl (x : spec_float) : x <> S754_nan -> SFcompare x x = Some Eq.
Proof.
  destruct x as [s|s| |s m e]; cbn; intros H; try congruence.
  - destruct s; reflexivity.
  - rewrite Z.compare_refl. change (Pos.compare_cont Eq m m) with (Pos.compare m m).
    rewrite Pos.compare_refl. destruct s; reflexivity.
Qed.

Lemma SFcompare_trans (x y z : spec_float) :
  SFcompare x y = Some Lt -> SFcompare y z = Some Lt -> SFcompare x z = Some Lt.
Proof.
  destruct x as [s1|s1| |s1 m1 e1], y as [s2|s2| |s2 m2 e2], z as [s3|s3| |s3 m3 e3];
    cbn; try discriminate; try (destruct s1, s2, s3; cbn; congruence);
    try (destruct s1, s2; cbn; congruence); try (destruct s1, s3; cbn; congruence);
    try (destruct s2, s3; cbn; congruence).
  destruct s1, s2, s3; cbn; try congruence; intros H1 H2;
    order_cases; cbn in *; try congruence; try lia.
Qed.

Lemma SFcompare_eq_l (x y z : spec_float) :
  SFcompare x y = Some Eq -> SFcompare y z = SFcompare x z.
Proof.
  destruct x as [s1|s1| |s1 m1 e1], y as [s2|s2| |s2 m2 e2], z as [s3|s3| |s3 m3 e3];
    cbn; try discriminate; try reflexivity;
    try (destruct s1, s2; cbn; congruence).
  all: destruct s1, s2; try destruct s3; cbn; try congruence; intros H;
    order_cases; cbn in *; subst; try congruence; try lia;
    rewrite ?Z.compare_refl; try reflexivity.
Qed.

Lemma SFcompare_antisym (x y : spec_float) :
  SFcompare y x = option_map CompOpp (SFcompare x y).
Proof.
  destruct x as [s1|s1| |s1 m1 e1], y as [s2|s2| |s2 m2 e2];
    cbn; try reflexivity; try (destruct s1; reflexivity); try (destruct s2; reflexivity);
    try (destruct s1, s2; reflexivity).
  destruct s1, s2; cbn; try reflexivity;
    order_cases; cbn in *; subst; try reflexivity; try lia.
Qed.

Lemma SFcompare_numbers (x y : spec_float) :
  x <> S754_nan -> y <> S754_nan -> SFcompare x y <> None.
Proof. destruct x, y; cbn; congruence. Qed.

(** A number is not below itself. *)
Lemma lt_irrefl (a : float) : Js.lt a a = false.
Proof.
  unfold Js.lt, SFltb.
  destruct (FloatOps.Prim2SF a) eqn:E; try reflexivity;
    rewrite SFcompare_refl by congruence; reflexivity.
Qed.

(** [Math.max] does not go below what its first argument is not below. *)
Lemma max_not_below (floor c t : float) :
  Js.lt c floor = false -> Js.lt (Js.max c t) floor = false.
Proof.
  unfold Js.lt, Js.max, SFltb. intros H.
  destruct (SFcompare (FloatOps.Prim2SF c) (FloatOps.Prim2SF t)) as [[| |]|] eqn:Ec.
  - destruct (get_sign c); [|exact H].
    rewrite (SFcompare_eq_l _ _ _ Ec). exact H.
  - destruct (SFcompare (FloatOps.Prim2SF t) (FloatOps.Prim2SF floor)) as [[| |]|] eqn:Et;
      try reflexivity.
    rewrite (SFcompare_trans _ _ _ Ec Et) in H. discriminate.
  - exact H.
  - reflexivity.
Qed.

(** Between numbers, [>=] is what [<] is not. *)
Lemma ge_of_not_lt (a b : float) :
  Js.isNaN a = false -> Js.isNaN b = false -> Js.lt a b = false -> Js.ge a b = true.
Proof.
  unfold Js.isNaN, Js.lt, Js.ge, SFltb, SFleb. intros Ha Hb.
  rewrite (SFcompare_antisym (FloatOps.Prim2SF a) (FloatOps.Prim2SF b)).
  pose proof (SFcompare_numbers (FloatOps.Prim2SF a) (FloatOps.Prim2SF b)) as Hn.
  destruct (SFcompare (FloatOps.Prim2SF a) (FloatOps.Prim2SF b)) as [[| |]|];
    cbn; try reflexivity; try discriminate.
  intros _. exfalso. apply Hn; try reflexivity.
  - intros E. rewrite E in Ha. discriminate.
  - intros E. rewrite E in Hb. discriminate.
Qed.

End Numbers.

(** ** Playback scheduling *)

Section Scheduling.

Lemma skipn_length_app {A : Type} (l r : list A) : skipn (List.length l) (l ++ r) = r.
Proof. induction l; cbn; auto. Qed.

Lemma scheduled_app (a b : list Call) : scheduled (a ++ b) = scheduled a ++ scheduled b.
Proof.
  induction a as [|c a IH]; cbn; [reflexivity|].
  destruct c; cbn; rewrite ?IH; reflexivity.
Qed.

(** The transcript part of [onmessage] leaves playback alone. *)
Lemma onmessage_text_frame (now : nat) (m : LiveServerMessage) (s : State) :
  let s1 := onmessage_turnComplete now m (onmessage_transcripts m s) in
  calls s1 = calls s /\ nextStartTimeRef s1 = nextStartTimeRef s
  /\ fresh s1 = fresh s /\ outputContextRef s1 = outputContextRef s
  /\ sourcesRef s1 = sourcesRef s.
Proof. dstate s. dmessage m. branches; repeat split. Qed.

(** A message handled at once is its handler run to the [await] and then
    resumed. *)
Lemma onmessage_at_once (P : Playback) (now : nat) (m : LiveServerMessage) (s : State) :
  onmessage P now m s
  = match onmessage_begin P now m s with
    | (s1, Some k) => onmessage_resume P now k s1
    | (s1, None) => s1
    end.
Proof.
  unfold onmessage, onmessage_begin, onmessage_resume, onmessage_audio.
  generalize (onmessage_turnComplete now m (onmessage_transcripts m s)). intros b.
  unfold onmessage_clamp.
  destruct (inlineData m) as [a|]; [|reflexivity].
  destruct (outputContextRef b); [|reflexivity].
  destruct (Js.truthy a); reflexivity.
Qed.

(** What a decoder that settles does to the history, the cursor and the
    registry. *)
Lemma onmessage_play_schedule (P : Playback) (k : Suspended) (s : State) :
  match decodeAudioData P with
  | Ok d =>
      calls (onmessage_play P k s)
        = calls s ++ [SourceStart (fresh s) (nextStartTimeRef s) d]
      /\ nextStartTimeRef (onmessage_play P k s) = (nextStartTimeRef s + d)%float
      /\ sourcesRef (onmessage_play P k s) = sourcesRef s ++ [fresh s]
      /\ fresh (onmessage_play P k s) = S (fresh s)
  | Throws _ => onmessage_play P k s = s
  end.
Proof. dstate s. dplayback P. branches; auto. Qed.

(** What the audio part of [onmessage] does to the call history and the
    cursor when the decoder settles at once. *)
Lemma onmessage_audio_schedule (P : Playback) (m : LiveServerMessage) (s : State) :
  match schedules P m s with
  | Some d =>
      calls (onmessage_audio P m s)
        = calls s ++ [SourceStart (fresh s) (Js.max (nextStartTimeRef s) (currentTime P)) d]
      /\ nextStartTimeRef (onmessage_audio P m s)
        = (Js.max (nextStartTimeRef s) (currentTime P) + d)%float
  | None =>
      calls (onmessage_audio P m s) = calls s
      /\ (nextStartTimeRef (onmessage_audio P m s) = nextStartTimeRef s
          \/ nextStartTimeRef (onmessage_audio P m s)
             = Js.max (nextStartTimeRef s) (currentTime P))
  end.
Proof. dstate s. dmessage m. dplayback P. branches; auto; try congruence. Qed.

(** What one uninterrupted message handled at once does to the call
    history and the cursor. *)
Lemma onmessage_schedule (P : Playback) (now : nat) (m : LiveServerMessage) (s : State) :
  interrupted m = false ->
  match schedules P m s with
  | Some d =>
      calls (onmessage P now m s)
        = calls s ++ [SourceStart (fresh s) (Js.max (nextStartTimeRef s) (currentTime P)) d]
      /\ nextStartTimeRef (onmessage P now m s)
        = (Js.max (nextStartTimeRef s) (currentTime P) + d)%float
  | None =>
      calls (onmessage P now m s) = calls s
      /\ (nextStartTimeRef (onmessage P now m s) = nextStartTimeRef s
          \/ nextStartTimeRef (onmessage P now m s)
             = Js.max (nextStartTimeRef s) (currentTime P))
  end.
Proof.
  intros Hi.
  destruct (onmessage_text_frame now m s) as (Hc & Hn & Hf & Ho & _).
  pose proof (onmessage_audio_schedule P m
                (onmessage_turnComplete now m (onmessage_transcripts m s))) as Ha.
  assert (Hs : schedules P m (onmessage_turnComplete now m (onmessage_transcripts m s))
               = schedules P m s).
  { unfold schedules. rewrite Ho. reflexivity. }
  rewrite Hs, Hc, Hn, Hf in Ha.
  unfold onmessage, onmessage_interrupted. rewrite Hi. exact Ha.
Qed.

Lemma stopEach_stops (throws : nat -> bool) (srcs : list nat) (x : nat) (t d : float) :
  ~ In (SourceStart x t d) (fst (stopEach throws srcs)).
Proof.
  induction srcs as [|a r IH]; cbn; [tauto|].
  destruct (throws a); cbn; [intros [H|[]]; discriminate|].
  destruct (stopEach throws r) as [cs done]. cbn in *.
  intros [H|H]; [discriminate | exact (IH H)].
Qed.

(** The whole effect of the audio part of [onmessage] on the registry. *)
Lemma onmessage_audio_registry (P : Playback) (m : LiveServerMessage) (s : State) :
  match schedules P m s with
  | Some d =>
      sourcesRef (onmessage_audio P m s) = sourcesRef s ++ [fresh s]
      /\ fresh (onmessage_audio P m s) = S (fresh s)
  | None =>
      sourcesRef (onmessage_audio P m s) = sourcesRef s
      /\ fresh (onmessage_audio P m s) = fresh s
  end.
Proof. dstate s. dmessage m. dplayback P. branches; auto; try congruence. Qed.

(** *** Runs with decoders pending *)

(** A message that is no interruption, up to its [await]: nothing is
    started, and the cursor does not go below what it was not below. *)
Lemma onmessage_begin_calm (P : Playback) (now : nat) (m : LiveServerMessage) (s : State)
    (floor : float) :
  interrupted m = false ->
  Js.lt (nextStartTimeRef s) floor = false ->
  calls (fst (onmessage_begin P now m s)) = calls s
  /\ Js.lt (nextStartTimeRef (fst (onmessage_begin P now m s))) floor = false
  /\ match snd (onmessage_begin P now m s) with
     | Some k => sus_message k = m
     | None => True
     end.
Proof.
  intros Hi Hf.
  destruct (onmessage_text_frame now m s) as (Hc & Hn & _).
  unfold onmessage_begin.
  revert Hc Hn. generalize (onmessage_turnComplete now m (onmessage_transcripts m s)).
  intros b Hc Hn. unfold onmessage_clamp.
  assert (Hq : onmessage_interrupted P now m b = b)
    by (unfold onmessage_interrupted; rewrite Hi; reflexivity).
  destruct (inlineData m) as [a|]; [|cbn [fst snd]; rewrite Hq, Hc, Hn; auto].
  destruct (outputContextRef b) as [ctx|]; [|cbn [fst snd]; rewrite Hq, Hc, Hn; auto].
  destruct (Js.truthy a); cbn [fst snd]; [|rewrite Hq, Hc, Hn; auto].
  split; [destruct b; exact Hc|]. split; [|reflexivity].
  replace (nextStartTimeRef (set_nextStartTimeRef
             (Js.max (nextStartTimeRef b) (currentTime P)) b))
    with (Js.max (nextStartTimeRef b) (currentTime P)) by (destruct b; reflexivity).
  rewrite Hn. apply max_not_below. exact Hf.
Qed.

(** The handler of a message that is no interruption, resumed. *)
Lemma onmessage_resume_calm (P : Playback) (now : nat) (k : Suspended) (s : State) :
  interrupted (sus_message k) = false ->
  onmessage_resume P now k s = onmessage_play P k s.
Proof.
  intros Hi. unfold onmessage_resume, onmessage_interrupted. rewrite Hi. reflexivity.
Qed.

Lemma removeAt_Forall {A : Type} (Q : A -> Prop) (i : nat) (l : list A) :
  Forall Q l -> Forall Q (removeAt i l).
Proof.
  unfold removeAt. revert l.
  induction i as [|i IH]; intros [|x l] H; cbn; try constructor;
    inversion H; subst; auto.
Qed.

(** A run without interruption, in any interleaving: the history only
    grows, and the chunks it gains are chained from any number the cursor
    was not below. *)
Lemma interleave_chain (es : list LiveStep) :
  forall (l : Live) (floor : float),
    calm es -> waitingCalm l ->
    Js.lt (nextStartTimeRef (hook l)) floor = false ->
    exists new,
      calls (hook (interleave es l)) = calls (hook l) ++ new
      /\ chained floor (scheduled new).
Proof.
  induction es as [|e es IH]; intros l floor Hc Hw Hf.
  - exists []. cbn. rewrite app_nil_r. split; [reflexivity | exact I].
  - inversion Hc as [|? ? He Hes]; subst.
    change (interleave (e :: es) l) with (interleave es (step e l)).
    destruct e as [P now m | i P now | src]; cbn [step].
    + destruct (onmessage_begin_calm P now m (hook l) floor He Hf) as (H1 & H2 & H3).
      destruct (onmessage_begin P now m (hook l)) as [s1 k]. cbn [fst snd] in *.
      destruct (IH {| hook := s1;
                      decoding := decoding l ++ match k with Some k => [k] | None => [] end |}
                   floor Hes) as (new & Hnew & Hch).
      { unfold waitingCalm. cbn [decoding]. apply Forall_app. split; [exact Hw|].
        destruct k as [k|]; [|constructor]. constructor; [|constructor].
        rewrite H3. exact He. }
      { exact H2. }
      exists new. cbn [hook] in Hnew. rewrite Hnew, H1. split; [reflexivity | exact Hch].
    + destruct (nth_error (decoding l) i) as [k|] eqn:Ek; [|apply IH; assumption].
      assert (Hk : interrupted (sus_message k) = false).
      { unfold waitingCalm in Hw. rewrite Forall_forall in Hw.
        apply Hw. eapply nth_error_In. exact Ek. }
      rewrite (onmessage_resume_calm P now k (hook l) Hk).
      pose proof (onmessage_play_schedule P k (hook l)) as Hp.
      destruct (decodeAudioData P) as [d|err] eqn:Ed.
      * destruct Hp as (Hpc & Hpn & _).
        destruct (IH {| hook := onmessage_play P k (hook l);
                        decoding := removeAt i (decoding l) |}
                     (nextStartTimeRef (hook l) + d)%float Hes) as (new & Hnew & Hch).
        { apply removeAt_Forall. exact Hw. }
        { cbn [hook]. rewrite Hpn. apply lt_irrefl. }
        exists (SourceStart (fresh (hook l)) (nextStartTimeRef (hook l)) d :: new).
        cbn [hook] in Hnew. rewrite Hnew, Hpc, <- app_assoc.
        split; [reflexivity|]. cbn. split; [exact Hf | exact Hch].
      * rewrite Hp.
        destruct (IH {| hook := hook l; decoding := removeAt i (decoding l) |} floor Hes)
          as (new & Hnew & Hch); [apply removeAt_Forall; exact Hw | exact Hf |].
        exists new. split; [exact Hnew | exact Hch].
    + destruct (IH {| hook := source_onended src (hook l); decoding := decoding l |}
                   floor Hes) as (new & Hnew & Hch); [exact Hw | |].
      { cbn [hook]. destruct (hook l). exact Hf. }
      exists new. cbn [hook] in Hnew. rewrite Hnew.
      split; [destruct (hook l); reflexivity | exact Hch].
Qed.

(** Between numbers the chain reads with [>=]. *)
Lemma chained_ge (chunks : list (float * float)) :
  forall floor : float,
    Js.isNaN floor = false -> numbers chunks ->
    chained floor chunks -> chainedGe floor chunks.
Proof.
  induction chunks as [|[t d] r IH]; intros floor Hf Hn Hc; [exact I|].
  inversion Hn as [|? ? [Ht Hd] Hr]; subst. destruct Hc as [Hlt Hc]. cbn [fst snd] in *.
  split; [apply ge_of_not_lt; assumption | apply IH; assumption].
Qed.

(** C1. Audio chunks of a live session, in doubles and with the decoder
    awaited.  A message handled at once starts its chunk at
    [max(cursor, outputContext.currentTime)] and moves the cursor to the
    double sum of that start and the chunk's duration.  In general a chunk is
    started when its decoder settles, at the cursor as it then is, and the
    cursor moves to the double sum of the two.  In a run with no interruption,
    whatever the interleaving of arrivals, decoders and ended sources, the
    chunks in the order they are started are chained: none starts before the
    cursor the one before it left (the first not before the cursor the run
    began with), and between numbers each start is [>=] that cursor. *)
Theorem chunks_play_back_to_back (es : list LiveStep) (l : Live) :
  (forall P now m s d,
      schedules P m s = Some d -> interrupted m = false ->
      let start := Js.max (nextStartTimeRef s) (currentTime P) in
      callsSince s (onmessage P now m s) = [SourceStart (fresh s) start d]
      /\ nextStartTimeRef (onmessage P now m s) = (start + d)%float)
  /\ (forall P k s d,
      decodeAudioData P = Ok d ->
      callsSince s (onmessage_play P k s)
        = [SourceStart (fresh s) (nextStartTimeRef s) d]
      /\ nextStartTimeRef (onmessage_play P k s) = (nextStartTimeRef s + d)%float)
  /\ (calm es -> waitingCalm l ->
      let chunks := scheduled (callsSince (hook l) (hook (interleave es l))) in
      chained (nextStartTimeRef (hook l)) chunks
      /\ (Js.isNaN (nextStartTimeRef (hook l)) = false -> numbers chunks ->
          chainedGe (nextStartTimeRef (hook l)) chunks)).
Proof.
  split; [|split].
  - intros P now m s d Hs Hi start.
    pose proof (onmessage_schedule P now m s Hi) as Hm.
    rewrite Hs in Hm. destruct Hm as [Hc Hn].
    unfold callsSince. rewrite Hc, skipn_length_app. split; [reflexivity | exact Hn].
  - intros P k s d Hd.
    pose proof (onmessage_play_schedule P k s) as Hp. rewrite Hd in Hp.
    destruct Hp as (Hc & Hn & _).
    unfold callsSince. rewrite Hc, skipn_length_app. split; [reflexivity | exact Hn].
  - intros Hc Hw chunks.
    destruct (interleave_chain es l (nextStartTimeRef (hook l)) Hc Hw (lt_irrefl _))
      as (new & Hnew & Hch).
    assert (E : chunks = scheduled new).
    { unfold chunks, callsSince. rewrite Hnew, skipn_length_app. reflexivity. }
    rewrite E. split; [exact Hch|].
    intros Hf Hn. apply chained_ge; assumption.
Qed.

(** The two sample chunks handled at once are started at 1 and at 2.5, and
    leave the cursor at 4.5. *)
Example twoChunks_schedule :
  scheduled (callsSince Sample.live (deliver Sample.twoChunks Sample.live))
    = [ (1, 1.5); (2.5, 2) ]%float
  /\ nextStartTimeRef (deliver Sample.twoChunks Sample.live) = 4.5%float.
Proof. vm_compute. split; reflexivity. Qed.

(** With both decoders settling after both arrivals, the second one first,
    the chunk delivered second is started first, at 2, and the one delivered
    first after it, at 4. *)
Example decoders_out_of_order :
  let after := interleave Sample.outOfOrder {| hook := Sample.live; decoding := [] |} in
  scheduled (callsSince Sample.live (hook after)) = [ (2, 2); (4, 1.5) ]%float
  /\ nextStartTimeRef (hook after) = 5.5%float
  /\ decoding after = [].
Proof. vm_compute. repeat split; reflexivity. Qed.

(** In exact arithmetic the schedule overlaps, by the rounding of the
    cursor: a chunk of 0.7 s started at 0.1 leaves the cursor at
    0.7999999999999999, below the exact end of the chunk, and the next chunk
    starts there. *)
Lemma chunks_overlap_by_rounding :
  let chunks := scheduled (callsSince Sample.live
                             (deliver Sample.roundedChunks Sample.live)) in
  chunks = [ (0.1, 0.7); (0.7999999999999999, 0.5) ]%float
  /\ (Js.value 0.7999999999999999 < Js.value 0.1 + Js.value 0.7)%Q
  /\ ~ backToBack (Js.value (nextStartTimeRef Sample.live)) (exactly chunks)
  /\ ~ noOverlap (exactly chunks).
Proof.
  cbv zeta.
  assert (E : scheduled (callsSince Sample.live (deliver Sample.roundedChunks Sample.live))
              = [ (0.1, 0.7); (0.7999999999999999, 0.5) ]%float)
    by (vm_compute; reflexivity).
  rewrite E.
  assert (L : (Js.value 0.7999999999999999 < Js.value 0.1 + Js.value 0.7)%Q)
    by (vm_compute; reflexivity).
  split; [reflexivity|]. split; [exact L|].
  split.
  - intros (_ & H & _). cbn [fst snd] in H. apply Qle_not_lt in H. exact (H L).
  - intros (H & _). inversion H as [|? ? H1 _]; subst. cbn [fst snd] in H1.
    apply Qle_not_lt in H1. exact (H1 L).
Qed.

Lemma chunks_play_back_to_back_witness :
  calm Sample.outOfOrder
  /\ chained (nextStartTimeRef Sample.live)
       (scheduled (callsSince Sample.live
          (hook (interleave Sample.outOfOrder {| hook := Sample.live; decoding := [] |}))))
  /\ chainedGe (nextStartTimeRef Sample.live)
       (scheduled (callsSince Sample.live
          (hook (interleave Sample.outOfOrder {| hook := Sample.live; decoding := [] |})))).
Proof.
  assert (Hc : calm Sample.outOfOrder) by (repeat constructor).
  assert (Hw : waitingCalm {| hook := Sample.live; decoding := [] |}) by constructor.
  destruct (chunks_play_back_to_back Sample.outOfOrder
              {| hook := Sample.live; decoding := [] |}) as (_ & _ & H).
  destruct (H Hc Hw) as [Hch Hge].
  split; [exact Hc|]. split; [exact Hch|].
  apply Hge; [reflexivity|].
  assert (E : scheduled (callsSince Sample.live
                (hook (interleave Sample.outOfOrder
                         {| hook := Sample.live; decoding := [] |})))
              = [ (2, 2); (4, 1.5) ]%float) by (vm_compute; reflexivity).
  cbn [hook]. rewrite E. unfold numbers.
  repeat (constructor; [split; vm_compute; reflexivity|]). constructor.
Defined.

End Scheduling.

(** ** Teardown *)

Section Teardown.

Lemma cleanup_calls (B : Browser) (s : State) :
  calls (cleanup B s) = calls s ++ teardownCalls s.
Proof.
  dstate s.
  dbrowser B. destruct ic, oc, sm, pr, rc, b_syn; run_teardown;
    assoc_right; cbn [app]; rewrite ?app_nil_r; reflexivity.
Qed.

Lemma cleanup_tornDown (B : Browser) (s : State) :
  tornDown (cleanup B s) /\ status (cleanup B s) = DISCONNECTED.
Proof.
  dstate s.
  dbrowser B. destruct ic, oc, sm, pr, rc, b_syn; run_teardown; repeat split.
Qed.

(** What [cleanup] leaves alone: the log, the playback cursor, the
    processing flag, the transcript buffers and the pending requests. *)
Lemma cleanup_frame (B : Browser) (s : State) :
  logs (cleanup B s) = logs s
  /\ nextStartTimeRef (cleanup B s) = nextStartTimeRef s
  /\ isProcessingRef (cleanup B s) = isProcessingRef s
  /\ currentInputRef (cleanup B s) = currentInputRef s
  /\ currentOutputRef (cleanup B s) = currentOutputRef s
  /\ pendingFetch (cleanup B s) = pendingFetch s
  /\ fresh (cleanup B s) = fresh s.
Proof.
  dstate s.
  dbrowser B. destruct ic, oc, sm, pr, rc, b_syn; run_teardown; repeat split.
Qed.

(** A second [cleanup] finds nothing to do. *)
Lemma cleanup_again (B : Browser) (s : State) :
  cleanup B (cleanup B s) = cleanup B s.
Proof.
  dstate s.
  dbrowser B. destruct ic, oc, sm, pr, rc, b_syn; run_teardown;
    cbn [map]; rewrite ?app_nil_r; reflexivity.
Qed.

Lemma cleanup_addLog (B : Browser) (now : nat) (who : Sender) (msg : string) (s : State) :
  cleanup B (addLog now who msg s) = addLog now who msg (cleanup B s).
Proof.
  dstate s.
  dbrowser B. destruct ic, oc, sm, pr, rc, b_syn; run_teardown; reflexivity.
Qed.

Lemma cleanup_setStatus (B : Browser) (v : ConnectionState) (s : State) :
  cleanup B (setStatus v s) = cleanup B s.
Proof.
  dstate s.
  dbrowser B. destruct ic, oc, sm, pr, rc, b_syn; run_teardown; reflexivity.
Qed.

End Teardown.

(** ** Interruption and teardown *)

Section StopAll.

Lemma stopEach_quiet (throws : nat -> bool) (srcs : list nat) :
  (forall src, In src srcs -> throws src = false) ->
  stopEach throws srcs = (map SourceStop srcs, true).
Proof.
  induction srcs as [|a r IH]; cbn; intros H; [reflexivity|].
  rewrite (H a (or_introl eq_refl)), IH; [reflexivity|].
  intros src Hin. apply H. right. exact Hin.
Qed.

(** An interruption whose [stop()] calls all return: every registered source
    is stopped (the one the same message may just have started included), the
    registry is emptied and the cursor is back at 0. *)
Lemma interruption_stops_all (P : Playback) (now : nat) (m : LiveServerMessage) (s : State) :
  interrupted m = true ->
  (forall src, stopThrows P src = false) ->
  let before := onmessage_audio P m (onmessage_turnComplete now m (onmessage_transcripts m s)) in
  let s' := onmessage P now m s in
  sourcesRef s' = []
  /\ nextStartTimeRef s' = 0%float
  /\ callsSince before s' = map SourceStop (sourcesRef before).
Proof.
  intros Hi Hq. cbv zeta. unfold onmessage.
  generalize (onmessage_audio P m (onmessage_turnComplete now m (onmessage_transcripts m s))).
  intros b. dstate b. dmessage m. dplayback P. run_in Hi. run_in Hq. subst m_int.
  assert (Hst : stopEach p_throws srcs = (map SourceStop srcs, true))
    by (apply stopEach_quiet; auto).
  run. destruct (Js.truthy (Js.trim co)); rewrite Hst; run;
    rewrite skipn_length_app; auto.
Qed.

(** [stop()] is not guarded in the interruption branch: when a call throws,
    the handler ends there, with the registry and the cursor as they were. *)
Lemma interruption_stop_throws (P : Playback) (now : nat) (m : LiveServerMessage)
    (s : State) (src : nat) (rest : list nat) :
  interrupted m = true ->
  inlineData m = None ->
  sourcesRef s = src :: rest ->
  stopThrows P src = true ->
  sourcesRef (onmessage P now m s) = src :: rest
  /\ nextStartTimeRef (onmessage P now m s) = nextStartTimeRef s.
Proof.
  intros Hi Ha Hs Ht. dstate s. dmessage m. dplayback P.
  run_in Hi. run_in Ha. run_in Hs. run_in Ht. subst.
  branches; cbn [stopEach] in *; rewrite ?Ht in *; run; auto; try discriminate.
Qed.

(** [disconnect()] stops what is registered and empties the registry, and
    leaves the cursor where it was. *)
Lemma disconnect_cursor (B : Browser) (now : nat) (s : State) :
  sourcesRef (disconnect B now s) = []
  /\ Forall (fun src => In (SourceStop src) (callsSince s (disconnect B now s))) (sourcesRef s)
  /\ nextStartTimeRef (disconnect B now s) = nextStartTimeRef s.
Proof.
  unfold disconnect. rewrite cleanup_addLog.
  destruct (cleanup_tornDown B s) as [(Hs & _) _].
  destruct (cleanup_frame B s) as (_ & Hn & _).
  assert (Hc : callsSince s (addLog now system "Terminating Uplink..." (cleanup B s))
               = teardownCalls s).
  { unfold callsSince.
    replace (calls (addLog now system "Terminating Uplink..." (cleanup B s)))
      with (calls (cleanup B s)) by (destruct (cleanup B s); reflexivity).
    rewrite cleanup_calls. apply skipn_length_app. }
  repeat split.
  - destruct (cleanup B s); exact Hs.
  - rewrite Hc. apply Forall_forall. intros src Hin.
    unfold teardownCalls. apply in_or_app. left. apply in_map. exact Hin.
  - destruct (cleanup B s); exact Hn.
Qed.

(** C2. The hook after one chunk of 5 s (cursor at 5, one source
    registered), then [disconnect()]: the source is stopped and the registry
    is empty, and the cursor still reads 5, where an interruption handled in
    the same state leaves it at 0. *)
Theorem teardown_keeps_cursor :
  let playing := deliver Sample.oneChunk Sample.live in
  let interrupt := Sample.interruption in
  sourcesRef playing = [6]
  /\ nextStartTimeRef playing = 5%float
  /\ sourcesRef (disconnect Sample.page 9 playing) = []
  /\ In (SourceStop 6) (callsSince playing (disconnect Sample.page 9 playing))
  /\ nextStartTimeRef (disconnect Sample.page 9 playing) = 5%float
  /\ nextStartTimeRef (disconnect Sample.page 9 playing) <> 0%float
  /\ nextStartTimeRef (onmessage (Sample.playback 1 0) 9 interrupt playing) = 0%float
  /\ sourcesRef (onmessage (Sample.playback 1 0) 9 interrupt playing) = [].
Proof.
  cbv zeta. vm_compute.
  repeat split; try reflexivity.
  - left; reflexivity.
  - intros H. apply (f_equal (Js.lt 0)) in H. vm_compute in H. discriminate.
Qed.

End StopAll.

(** ** Disconnecting *)

Section Disconnect.

Lemma releases_teardownCalls (s : State) : releases (teardownCalls s) = teardownCalls s.
Proof.
  unfold teardownCalls, releases.
  rewrite !filter_app.
  assert (Hm : filter isRelease (map SourceStop (sourcesRef s)) = map SourceStop (sourcesRef s)).
  { induction (sourcesRef s) as [|a r IH]; cbn; [reflexivity | rewrite IH; reflexivity]. }
  rewrite Hm.
  destruct (inputContextRef s), (outputContextRef s), (streamRef s), (processorRef s),
    (recognitionRef s); reflexivity.
Qed.

Lemma teardownCalls_tornDown (s : State) : tornDown s -> teardownCalls s = [].
Proof.
  unfold tornDown, teardownCalls.
  intros (-> & -> & -> & -> & -> & -> & _). reflexivity.
Qed.

Lemma callsSince_trans (s s1 s2 : State) (a b : list Call) :
  calls s1 = calls s ++ a -> calls s2 = calls s1 ++ b -> callsSince s s2 = a ++ b.
Proof.
  intros H1 H2. unfold callsSince. rewrite H2, H1, <- app_assoc. apply skipn_length_app.
Qed.

Lemma disconnect_calls (B : Browser) (now : nat) (s : State) :
  calls (disconnect B now s) = calls s ++ teardownCalls s.
Proof.
  unfold disconnect. rewrite cleanup_addLog.
  replace (calls (addLog now system "Terminating Uplink..." (cleanup B s)))
    with (calls (cleanup B s)) by (destruct (cleanup B s); reflexivity).
  apply cleanup_calls.
Qed.

Lemma disconnect_tornDown (B : Browser) (now : nat) (s : State) :
  tornDown (disconnect B now s) /\ status (disconnect B now s) = DISCONNECTED.
Proof. unfold disconnect. apply cleanup_tornDown. Qed.

(** An error callback releases what [cleanup] releases (the [catch] of the
    live set-up) or nothing, and in the latter case holds what was held. *)
Lemma runError_calls (B : Browser) (now : nat) (cb : ErrorCallback) (s : State) :
  exists cs,
    calls (runError B now cb s) = calls s ++ cs
    /\ ((releases cs = teardownCalls s /\ tornDown (runError B now cb s))
        \/ (releases cs = [] /\ teardownCalls (runError B now cb s) = teardownCalls s)).
Proof.
  destruct cb as [text | e | error | tb i out | i]; cbn [runError].
  - exists []. rewrite app_nil_r. split; [destruct s; reflexivity|].
    right. split; [reflexivity | destruct s; reflexivity].
  - exists (teardownCalls s). unfold connectGemini_catch.
    rewrite cleanup_setStatus.
    destruct (Js.includes _ _); rewrite cleanup_addLog;
      (split; [ match goal with |- calls (addLog ?n ?w ?m ?x) = _ =>
                  replace (calls (addLog n w m x)) with (calls x)
                    by (destruct x; reflexivity) end;
                apply cleanup_calls
              | left; split; [apply releases_teardownCalls|];
                destruct (cleanup_tornDown B s) as [Ht _];
                destruct (cleanup B s); exact Ht ]).
  - exists []. rewrite app_nil_r. unfold recognition_onerror.
    split; [branches; destruct s; reflexivity|].
    right. split; [reflexivity | branches; destruct s; reflexivity].
  - unfold completion_settled.
    destruct (completionResult out) as [aiText | error].
    + destruct (Js.truthy aiText && hasSpeechSynthesis B).
      * exists []. rewrite app_nil_r. split; [destruct s; reflexivity|].
        right. split; [reflexivity | destruct s; reflexivity].
      * exists [RecognitionStart (tb_recognition tb)].
        split; [destruct s; reflexivity|].
        right. split; [reflexivity | destruct s; reflexivity].
    + exists [RecognitionStart (tb_recognition tb)].
      split; [destruct s; reflexivity|].
      right. split; [reflexivity | destruct s; reflexivity].
  - unfold utterance_onerror, utterance_onend.
    destruct (nth_error (synthQueue s) i) as [u|].
    + exists [RecognitionStart (utt_owner u)].
      split; [destruct s; reflexivity|].
      right. split; [reflexivity | destruct s; reflexivity].
    + exists []. rewrite app_nil_r. split; [reflexivity|]. right. split; reflexivity.
Qed.

(** C3. [disconnect()] twice in a row: the first call issues exactly the
    releases owed for what the hook held; the second changes nothing but the
    log, to which it appends its one system entry, and issues no call (its
    [speechSynthesis.cancel()] finds the queue already empty); the status is
    [DISCONNECTED].  With an error callback running before or after
    [disconnect()], every handle the hook held is still released exactly
    once, in one teardown. *)
Theorem disconnect_idempotent (B : Browser) (t1 t2 : nat) (s : State) :
  let s1 := disconnect B t1 s in
  let s2 := disconnect B t2 s1 in
  callsSince s s1 = teardownCalls s
  /\ s2 = addLog t2 system "Terminating Uplink..." s1
  /\ callsSince s1 s2 = []
  /\ status s2 = DISCONNECTED
  /\ (forall (cb : ErrorCallback) (t3 : nat),
        releases (callsSince s (runError B t3 cb s1)) = teardownCalls s
        /\ releases (callsSince s (disconnect B t2 (runError B t3 cb s))) = teardownCalls s).
Proof.
  intros s1 s2.
  assert (H1 : calls s1 = calls s ++ teardownCalls s) by apply disconnect_calls.
  assert (E : s2 = addLog t2 system "Terminating Uplink..." s1).
  { subst s2 s1. unfold disconnect. rewrite !cleanup_addLog, cleanup_again. reflexivity. }
  split; [unfold callsSince; rewrite H1; apply skipn_length_app|].
  split; [exact E|].
  split.
  { rewrite E. unfold callsSince.
    replace (calls (addLog t2 system "Terminating Uplink..." s1)) with (calls s1)
      by (destruct s1; reflexivity).
    rewrite <- (app_nil_r (calls s1)) at 2. apply skipn_length_app. }
  split; [apply disconnect_tornDown|].
  intros cb t3. split.
  - destruct (runError_calls B t3 cb s1) as (cs & Hc & Hr).
    rewrite (callsSince_trans s s1 _ _ _ H1 Hc).
    unfold releases in *. rewrite filter_app. fold (releases (teardownCalls s)).
    rewrite releases_teardownCalls.
    assert (Hs1 : teardownCalls s1 = []).
    { apply teardownCalls_tornDown. apply disconnect_tornDown. }
    destruct Hr as [[Hr _] | [Hr _]]; rewrite Hr, ?Hs1, app_nil_r; reflexivity.
  - destruct (runError_calls B t3 cb s) as (cs & Hc & Hr).
    rewrite (callsSince_trans s _ _ _ _ Hc (disconnect_calls B t2 _)).
    unfold releases in *. rewrite filter_app.
    fold (releases (teardownCalls (runError B t3 cb s))).
    rewrite releases_teardownCalls.
    destruct Hr as [[Hr Ht] | [Hr Ht]]; rewrite Hr.
    + rewrite (teardownCalls_tornDown _ Ht), app_nil_r. reflexivity.
    + rewrite Ht. reflexivity.
Qed.

(** A live session with one chunk playing, disconnected twice: the first
    call stops the source, closes both contexts, stops the stream and
    disconnects the processing node; the second issues nothing. *)
Example disconnect_twice_live :
  let playing := deliver Sample.oneChunk Sample.live in
  let once := disconnect Sample.page 8 playing in
  let twice := disconnect Sample.page 9 once in
  callsSince playing once
    = [ SourceStop 6; ContextClose 0; ContextClose 1; StreamStopTracks 3;
        ProcessorDisconnect 5 ]
  /\ callsSince once twice = []
  /\ status once = DISCONNECTED /\ status twice = DISCONNECTED
  /\ map message (logs twice)
     = map message (logs playing) ++ ["Terminating Uplink..."; "Terminating Uplink..."].
Proof. vm_compute. repeat split. Qed.

End Disconnect.

(** ** Failure of the live set-up *)

Section SetupFailure.

(** What the [catch] of [connectGemini] does, whatever was acquired. *)
Lemma connectGemini_catch_spec (B : Browser) (now : nat) (e : Thrown) (s : State) :
  let s' := connectGemini_catch B now e s in
  logs s' = logs s ++
    [{| timestamp := now; sender := system;
        message := if Js.includes "service is currently unavailable" (messageOrString e)
                   then "Error: Service Unavailable. The model server is currently overloaded or experiencing downtime. Please try again later."
                   else "Init Error: " ++ messageOrString e |}]
  /\ callsSince s s' = teardownCalls s
  /\ tornDown s'
  /\ status s' = DISCONNECTED.
Proof.
  cbv zeta. unfold connectGemini_catch. rewrite cleanup_setStatus.
  destruct (Js.includes _ _); rewrite cleanup_addLog;
    destruct (cleanup_frame B s) as (Hl & _);
    destruct (cleanup_tornDown B s) as (Ht & Hs);
    pose proof (cleanup_calls B s) as Hc;
    destruct (cleanup B s) as [st lg an ic oc sm pr nx srcs act rc ip ci co sq pf cs fr];
    run_in Hl; run_in Hs; run_in Hc; subst; run;
    (split; [reflexivity|]); (split; [apply skipn_length_app|]); (split; [exact Ht | reflexivity]).
Qed.

(** C4. A failure of the live set-up is caught: the handler appends one
    system entry (the "Service Unavailable" text when the failure text
    contains "service is currently unavailable", "Init Error: ..."
    otherwise), issues the releases owed for whatever was acquired and
    clears every reference; it sets the status to [ERROR] and the teardown it
    then runs sets it to [DISCONNECTED], which is the status it leaves.  So
    does a set-up that fails at the microphone, whatever the earlier steps
    gave. *)
Theorem setup_failure_ends_disconnected (B : Browser) (now : nat) (e : Thrown) (s : State) :
  let s' := connectGemini_catch B now e s in
  logs s' = logs s ++
    [{| timestamp := now; sender := system;
        message := if Js.includes "service is currently unavailable" (messageOrString e)
                   then "Error: Service Unavailable. The model server is currently overloaded or experiencing downtime. Please try again later."
                   else "Init Error: " ++ messageOrString e |}]
  /\ callsSince s s' = teardownCalls s
  /\ tornDown s'
  /\ status s' = DISCONNECTED
  /\ status s' <> ERROR
  /\ (forall a b c config,
        connectGemini_resume B {| newInputContext := a; newOutputContext := b;
                                  getUserMedia := Throws e; liveConnect := c |}
          now config s = s').
Proof.
  cbv zeta.
  destruct (connectGemini_catch_spec B now e s) as (Hl & Hc & Ht & Hs).
  repeat split; try assumption; try apply Ht.
  rewrite Hs. discriminate.
Qed.

(** The microphone refused, on the first attempt of a fresh hook: three
    entries in the log, both contexts closed, nothing held, and the status
    shown is [DISCONNECTED]. *)
Example microphone_denied :
  let s' := connectGemini_resume Sample.page Sample.micDenied 1 Sample.liveConfig
              Sample.connecting in
  status s' = DISCONNECTED
  /\ map message (logs s') =
       [ "Initializing JAMES audio interface (gemini-live)...";
         "Accessing microphone feed...";
         "Init Error: Permission denied" ]
  /\ calls s' = [ NewAudioContext 0 (Some SAMPLE_RATE_INPUT);
                  NewAudioContext 1 (Some SAMPLE_RATE_OUTPUT);
                  ContextClose 0; ContextClose 1 ]
  /\ inputContextRef s' = None /\ outputContextRef s' = None /\ streamRef s' = None.
Proof. vm_compute. repeat split. Qed.

End SetupFailure.

(** ** Transcript accumulation *)

Section Transcripts.

Lemma append_empty (a : string) : (a ++ "")%string = a.
Proof. induction a as [|c a IH]; cbn; [reflexivity | rewrite IH; reflexivity]. Qed.

Lemma append_assoc (a b c : string) : ((a ++ b) ++ c)%string = (a ++ (b ++ c))%string.
Proof. induction a as [|x a IH]; cbn; [reflexivity | rewrite IH; reflexivity]. Qed.

Lemma appendDelta_text (delta : option string) (buffer : string) :
  appendDelta delta buffer = (buffer ++ deltaText delta)%string.
Proof.
  destruct delta as [[|c t]|]; cbn; rewrite ?append_empty; reflexivity.
Qed.

Lemma trimStart_empty (s : string) :
  Js.truthy (Js.trimStart s) = negb (Js.allWhiteSpace s).
Proof.
  induction s as [|c s IH]; cbn; [reflexivity|].
  destruct (Js.isWhiteSpace c); cbn; [exact IH | reflexivity].
Qed.

Lemma trimStart_head (s : string) :
  match Js.trimStart s with
  | EmptyString => True
  | String c _ => Js.isWhiteSpace c = false
  end.
Proof.
  induction s as [|c s IH]; cbn; [exact I|].
  destruct (Js.isWhiteSpace c) eqn:E; [exact IH | exact E].
Qed.

Lemma trimEnd_head (c : ascii) (s : string) :
  Js.isWhiteSpace c = false -> Js.truthy (Js.trimEnd (String c s)) = true.
Proof.
  intros H. cbn. destruct (Js.trimEnd s); [rewrite H|]; reflexivity.
Qed.

(** [s.trim()] is truthy exactly when [s] is not white space only. *)
Lemma trim_truthy (s : string) :
  Js.truthy (Js.trim s) = negb (Js.allWhiteSpace s).
Proof.
  unfold Js.trim. rewrite <- trimStart_empty.
  pose proof (trimStart_head s) as H.
  destruct (Js.trimStart s) as [|c t]; [reflexivity|].
  rewrite (trimEnd_head c t H). reflexivity.
Qed.

Lemma onmessage_transcripts_text (m : LiveServerMessage) (s : State) :
  let s' := onmessage_transcripts m s in
  logs s' = logs s
  /\ currentInputRef s' = (currentInputRef s ++ deltaText (inputTranscription m))%string
  /\ currentOutputRef s' = (currentOutputRef s ++ deltaText (outputTranscription m))%string.
Proof.
  cbv zeta. rewrite <- !appendDelta_text. dstate s. dmessage m. run. repeat split.
Qed.

Lemma onmessage_turnComplete_text (now : nat) (m : LiveServerMessage) (s : State) :
  let s' := onmessage_turnComplete now m s in
  if turnComplete m then
    logs s' = logs s ++ flushed now user (currentInputRef s) ++ flushed now ai (currentOutputRef s)
    /\ currentInputRef s' = afterFlush (currentInputRef s)
    /\ currentOutputRef s' = afterFlush (currentOutputRef s)
  else s' = s.
Proof.
  cbv zeta. unfold flushed, afterFlush. dstate s. dmessage m. run.
  destruct m_turn; [|reflexivity].
  rewrite (trim_truthy ci).
  destruct (Js.allWhiteSpace ci); cbn [negb]; run; rewrite (trim_truthy co);
    destruct (Js.allWhiteSpace co); cbn [negb]; run;
    rewrite ?app_nil_r; assoc_right; auto.
Qed.

Lemma onmessage_audio_text (P : Playback) (m : LiveServerMessage) (s : State) :
  let s' := onmessage_audio P m s in
  logs s' = logs s /\ currentInputRef s' = currentInputRef s
  /\ currentOutputRef s' = currentOutputRef s.
Proof. dstate s. dmessage m. dplayback P. branches; repeat split. Qed.

(** What one message that is not an interruption does to the log and the
    buffers. *)
Lemma onmessage_text (P : Playback) (now : nat) (m : LiveServerMessage) (s : State) :
  interrupted m = false ->
  let input := (currentInputRef s ++ deltaText (inputTranscription m))%string in
  let output := (currentOutputRef s ++ deltaText (outputTranscription m))%string in
  let s' := onmessage P now m s in
  if turnComplete m then
    logs s' = logs s ++ flushed now user input ++ flushed now ai output
    /\ currentInputRef s' = afterFlush input
    /\ currentOutputRef s' = afterFlush output
  else
    logs s' = logs s /\ currentInputRef s' = input /\ currentOutputRef s' = output.
Proof.
  intros Hi. cbv zeta. unfold onmessage, onmessage_interrupted. rewrite Hi.
  destruct (onmessage_transcripts_text m s) as (Hl & Hin & Hout).
  destruct (onmessage_audio_text P m
              (onmessage_turnComplete now m (onmessage_transcripts m s))) as (Al & Ain & Aout).
  rewrite Al, Ain, Aout.
  pose proof (onmessage_turnComplete_text now m (onmessage_transcripts m s)) as Ht.
  cbv zeta in Ht. rewrite Hl, Hin, Hout in Ht.
  destruct (turnComplete m); [exact Ht|].
  rewrite Ht. auto.
Qed.

(** A run that ends no turn appends the deltas to the buffers, in delivery
    order, and logs nothing. *)
Lemma deliver_midTurn (es : list LiveEvent) :
  forall s : State,
    midTurn es ->
    logs (deliver es s) = logs s
    /\ currentInputRef (deliver es s) = (currentInputRef s ++ inputDeltas es)%string
    /\ currentOutputRef (deliver es s) = (currentOutputRef s ++ outputDeltas es)%string.
Proof.
  induction es as [|e es IH]; intros s Hm.
  - cbn. rewrite !append_empty. auto.
  - inversion Hm as [|? ? He Hes]; subst.
    change (deliver (e :: es) s) with (deliver es (handle e s)).
    destruct (IH (handle e s) Hes) as (Hl & Hin & Hout).
    rewrite Hl, Hin, Hout.
    destruct e as [P now m | src]; cbn [handle isMessage inputDeltas outputDeltas] in *.
    + destruct He as [Ht Hi].
      pose proof (onmessage_text P now m s Hi) as H. cbv zeta in H. rewrite Ht in H.
      destruct H as (-> & -> & ->). rewrite !append_assoc. auto.
    + dstate s. run. auto.
Qed.

(** C5. Deltas are appended to their buffers in delivery order; the message
    that completes the turn (its own deltas included) turns each buffer that
    is not white space only into one log entry with the trimmed text, the
    [user] entry before the [ai] entry, and empties that buffer; a buffer of
    white space only gives no entry. *)
Theorem transcripts_flush_on_turn_complete (es : list LiveEvent) (P : Playback) (now : nat)
    (m : LiveServerMessage) (s : State) :
  midTurn es ->
  turnComplete m = true ->
  interrupted m = false ->
  let input := (currentInputRef s ++ inputDeltas (es ++ [Message P now m]))%string in
  let output := (currentOutputRef s ++ outputDeltas (es ++ [Message P now m]))%string in
  let s' := deliver (es ++ [Message P now m]) s in
  logs s' = logs s ++ flushed now user input ++ flushed now ai output
  /\ currentInputRef s' = afterFlush input
  /\ currentOutputRef s' = afterFlush output
  /\ (Js.allWhiteSpace output = true -> logs s' = logs s ++ flushed now user input).
Proof.
  intros Hm Ht Hi. cbv zeta.
  assert (Hd : forall a b, deliver (a ++ b) s = deliver b (deliver a s))
    by (intros; apply fold_left_app).
  assert (Hin : forall a b, inputDeltas (a ++ b) = (inputDeltas a ++ inputDeltas b)%string).
  { intros a b. induction a as [|[? ? x|] a IH]; cbn; rewrite ?IH, ?append_assoc; reflexivity. }
  assert (Hout : forall a b, outputDeltas (a ++ b) = (outputDeltas a ++ outputDeltas b)%string).
  { intros a b. induction a as [|[? ? x|] a IH]; cbn; rewrite ?IH, ?append_assoc; reflexivity. }
  rewrite Hd, Hin, Hout. cbn [deliver fold_left handle inputDeltas outputDeltas].
  rewrite !append_empty.
  destruct (deliver_midTurn es s Hm) as (Dl & Din & Dout).
  pose proof (onmessage_text P now m (deliver es s) Hi) as H. cbv zeta in H.
  rewrite Ht, Dl, Din, Dout, !append_assoc in H.
  destruct H as (H1 & H2 & H3). rewrite <- !append_assoc in *.
  repeat split; try assumption.
  intros Hw. rewrite H1. unfold flushed at 2. rewrite Hw, app_nil_r. reflexivity.
Qed.

(** "Hel", "lo", then the turn-complete signal, on a session just opened:
    the log gains the one entry [ai] "Hello" and the output buffer is empty. *)
Lemma transcripts_flush_on_turn_complete_witness :
  midTurn Sample.hello /\ turnComplete Sample.turnDone = true
  /\ interrupted Sample.turnDone = false
  /\ logs (deliver (Sample.hello ++ [Message (Sample.playback 0 0) 5 Sample.turnDone]) Sample.live)
     = logs Sample.live ++ [{| timestamp := 5; sender := ai; message := "Hello" |}]
  /\ currentOutputRef
       (deliver (Sample.hello ++ [Message (Sample.playback 0 0) 5 Sample.turnDone]) Sample.live)
     = "".
Proof.
  assert (Hm : midTurn Sample.hello) by (repeat constructor).
  destruct (transcripts_flush_on_turn_complete Sample.hello (Sample.playback 0 0) 5
              Sample.turnDone Sample.live Hm eq_refl eq_refl) as (Hl & _ & Ho & _).
  repeat split; try assumption.
Defined.

End Transcripts.

(** ** Connecting *)

Section Connect.

(** The credential [connect] resolves is missing exactly when the one of
    the configuration is empty and no fallback is set. *)
Lemma resolveApiKey_missing (B : Browser) (config : AIConfig) :
  apiKey config = "" ->
  env_API_KEY B = None \/ env_API_KEY B = Some "" ->
  match resolveApiKey B config with
  | None => True
  | Some key => Js.truthy key = false
  end.
Proof.
  intros Hk He. unfold resolveApiKey. rewrite Hk. cbn.
  destruct He as [-> | ->]; cbn; auto.
Qed.

(** Each pipeline opens with a log entry of its own. *)
Lemma connectGemini_first_entry (B : Browser) (L : LiveSetup) (now : nat) (config : AIConfig)
    (s : State) :
  exists rest,
    logs (fst (connectGemini B L now config s))
      = logs s ++ {| timestamp := now; sender := system;
                     message := "Initializing JAMES audio interface (" ++ modelId config ++ ")..." |}
               :: rest.
Proof.
  destruct L as [a b c d]. dstate s. unfold connectGemini.
  destruct a as [[]|ea]; [destruct b as [[]|eb]|]; cbn -[connectGemini_catch String.append];
    try match goal with
        | |- context [connectGemini_catch ?B ?n ?e ?x] =>
            let H := fresh in
            destruct (connectGemini_catch_spec B n e x) as (H & _);
            cbv zeta in H; rewrite H; clear H
        end;
    run; eexists; assoc_right; reflexivity.
Qed.

Lemma connectOpenAI_first_entry (B : Browser) (T : SpeechSetup) (now : nat) (config : AIConfig)
    (s : State) :
  exists entry rest,
    logs (fst (connectOpenAI B T now config s)) = logs s ++ entry :: rest
    /\ (message entry = "Error: Browser does not support Web Speech API required for non-Gemini providers."
        \/ message entry = ("Initializing adapter for " ++ (if isGroq config then "Groq" else "OpenAI")
                              ++ " (" ++ modelId config ++ ")...")%string).
Proof.
  destruct T as [a b c]. dstate s. dbrowser B.
  destruct b_rec; [|run; do 2 eexists; split; [reflexivity | left; reflexivity]].
  destruct b_syn; [|run; do 2 eexists; split; [reflexivity | right; reflexivity]].
  destruct b_voices as [|v vs]; [run; do 2 eexists; split; [reflexivity | right; reflexivity]|].
  destruct a as [[]|ea]; [destruct b as [[]|eb]; [destruct c as [[]|ec]|]|];
    run; do 2 eexists; (split; [assoc_right; reflexivity | right; reflexivity]).
Qed.

(** C6. With an empty credential in the configuration and no fallback,
    [connect] appends the one system entry about the missing key, sets the
    status to [ERROR] and returns: no call is issued, no handle is drawn, no
    reference changes, and neither pipeline is entered.  With a resolved
    credential that is not empty, [connect] is the pipeline chosen by the
    provider, run on the configuration that carries that credential, and the
    entry it logs first is not the one about the missing key. *)
Theorem connect_requires_credential (B : Browser) (L : LiveSetup) (T : SpeechSetup)
    (now : nat) (config : AIConfig) (s : State) :
  (apiKey config = "" ->
   env_API_KEY B = None \/ env_API_KEY B = Some "" ->
   let s' := fst (connect B L T now config s) in
   connect B L T now config s
     = (setStatus ERROR
          (addLog now system
             "Critical Error: API Key missing. Please ensure your API_KEY environment variable is set." s),
        Returned)
   /\ logs s' = logs s ++
        [{| timestamp := now; sender := system;
            message := "Critical Error: API Key missing. Please ensure your API_KEY environment variable is set." |}]
   /\ status s' = ERROR
   /\ calls s' = calls s /\ fresh s' = fresh s
   /\ teardownCalls s' = teardownCalls s
   /\ outputAnalyser s' = outputAnalyser s /\ activeSessionRef s' = activeSessionRef s)
  /\ (forall key,
        resolveApiKey B config = Some key -> key <> "" ->
        connect B L T now config s
          = (if (provider config =? "gemini")%string
             then connectGemini B L now (withApiKey config key) s
             else connectOpenAI B T now (withApiKey config key) s)
        /\ exists entry rest,
             logs (fst (connect B L T now config s)) = logs s ++ entry :: rest
             /\ message entry <> "Critical Error: API Key missing. Please ensure your API_KEY environment variable is set.").
Proof.
  split.
  - intros Hk He. cbv zeta.
    pose proof (resolveApiKey_missing B config Hk He) as Hr.
    assert (E : connect B L T now config s
                = (setStatus ERROR
                     (addLog now system
                        "Critical Error: API Key missing. Please ensure your API_KEY environment variable is set." s),
                   Returned)).
    { unfold connect. destruct (resolveApiKey B config) as [key|]; [|reflexivity].
      rewrite Hr. reflexivity. }
    rewrite E. dstate s. run. repeat split.
  - intros key Hr Hne.
    assert (Ht : Js.truthy key = true) by (destruct key; [congruence | reflexivity]).
    assert (E : connect B L T now config s
                = (if (provider config =? "gemini")%string
                   then connectGemini B L now (withApiKey config key) s
                   else connectOpenAI B T now (withApiKey config key) s)).
    { unfold connect. rewrite Hr, Ht. reflexivity. }
    split; [exact E|]. rewrite E.
    destruct (provider config =? "gemini")%string.
    + destruct (connectGemini_first_entry B L now (withApiKey config key) s) as (rest & Hl).
      do 2 eexists. split; [exact Hl|]. cbn. discriminate.
    + destruct (connectOpenAI_first_entry B T now (withApiKey config key) s)
        as (entry & rest & Hl & [Hm | Hm]).
      * do 2 eexists. split; [exact Hl|]. rewrite Hm. discriminate.
      * do 2 eexists. split; [exact Hl|]. rewrite Hm. cbn. discriminate.
Qed.

Lemma connect_requires_credential_witness :
  apiKey Sample.noKeyConfig = ""
  /\ status (fst (connect Sample.page Sample.setupOk Sample.speechOk 0 Sample.noKeyConfig initial))
     = ERROR
  /\ calls (fst (connect Sample.page Sample.setupOk Sample.speechOk 0 Sample.noKeyConfig initial))
     = []
  /\ resolveApiKey Sample.page Sample.groqConfig = Some "gsk_abc"
  /\ connect Sample.page Sample.setupOk Sample.speechOk 0 Sample.groqConfig initial
     = connectOpenAI Sample.page Sample.speechOk 0 (withApiKey Sample.groqConfig "gsk_abc") initial.
Proof.
  pose proof (connect_requires_credential Sample.page Sample.setupOk Sample.speechOk 0
                Sample.noKeyConfig initial) as [Hmissing _].
  pose proof (connect_requires_credential Sample.page Sample.setupOk Sample.speechOk 0
                Sample.groqConfig initial) as [_ Hpresent].
  destruct (Hmissing eq_refl (or_introl eq_refl)) as (_ & _ & Hs & Hc & _).
  destruct (Hpresent "gsk_abc" eq_refl ltac:(discriminate)) as [Hd _].
  repeat split; assumption.
Defined.

End Connect.

(** ** Turn taking *)

Section TurnTaking.

Lemma removeAt_length {A : Type} (i : nat) (l : list A) :
  i < List.length l -> List.length (removeAt i l) = List.length l - 1.
Proof.
  intros H. unfold removeAt.
  rewrite length_app, length_firstn, length_skipn. lia.
Qed.

(** A result that arrives while the processing flag is up changes nothing. *)
Lemma onresult_ignored (tb : TurnBased) (now : nat) (event : RecognitionResult) (s : State) :
  isProcessingRef s = true -> recognition_onresult tb now event s = s.
Proof. intros H. unfold recognition_onresult. rewrite H. reflexivity. Qed.

(** What one event does to the requests in flight, the utterances and the
    processing flag. *)
Lemma turn_outstanding (tb : TurnBased) (e : TurnEvent) (s : State) :
  oneAtATime s -> deliverable e s ->
  let s' := turn tb e s in
  oneAtATime s'
  /\ (List.length (pendingFetch s) < List.length (pendingFetch s') -> outstanding s = 0)
  /\ (List.length (synthQueue s) < List.length (synthQueue s') ->
      outstanding s = 1 /\ outstanding s' = 1).
Proof.
  unfold oneAtATime, outstanding. intros [Hle Hflag] Hd. cbv zeta.
  destruct e as [now | now error | | now event | B now i out | i | i]; cbn [turn deliverable] in *.
  - dstate s. run. run_in Hle. run_in Hflag. repeat split; intros; auto; try lia.
  - dstate s. run_in Hle. run_in Hflag. branches; repeat split; intros; auto; try lia.
  - dstate s. run_in Hle. run_in Hflag. branches; repeat split; intros; auto; try lia.
  - dstate s. destruct event as [text final]. run_in Hle. run_in Hflag. run.
    destruct ip; [repeat split; intros; auto; try lia|].
    assert (H0 : List.length pf + List.length sq = 0).
    { destruct (Nat.eq_dec (List.length pf + List.length sq) 1) as [E|E]; [|lia].
      specialize (Hflag E). discriminate. }
    destruct (final && (0 <? String.length (Js.trim text))); run;
      rewrite ?length_app; cbn [List.length]; repeat split; intros; auto; try lia.
  - dstate s. dbrowser B. run_in Hle. run_in Hflag. run_in Hd.
    assert (Hpf : List.length pf = 1) by lia.
    assert (Hsq : List.length sq = 0) by lia.
    pose proof (removeAt_length i pf Hd) as Hr.
    run. destruct (completionResult out) as [aiText | error]; run.
    + destruct (Js.truthy aiText && b_syn); run;
        rewrite ?length_app, Hr; cbn [List.length]; repeat split; intros; auto; try lia.
      apply Hflag. lia.
    + rewrite Hr. repeat split; intros; auto; try lia.
  - dstate s. run_in Hle. run_in Hflag. run_in Hd. run.
    pose proof (removeAt_length i sq Hd) as Hr.
    destruct (nth_error sq i) as [u|] eqn:E; run.
    + rewrite Hr. repeat split; intros; auto; try lia.
    + apply nth_error_None in E. lia.
  - dstate s. run_in Hle. run_in Hflag. run_in Hd. run.
    pose proof (removeAt_length i sq Hd) as Hr.
    destruct (nth_error sq i) as [u|] eqn:E; run.
    + rewrite Hr. repeat split; intros; auto; try lia.
    + apply nth_error_None in E. lia.
Qed.

(** C7. A recognition result that arrives while the processing flag is up
    is ignored whole: the state, and with it the log, the flag and the
    requests in flight, is what it was.  Hence, from a state with at most one
    exchange outstanding and the flag up while it is, every state the session
    reaches is such a state; a completion request starts only when nothing is
    outstanding, and a synthesis starts only out of the one request that was
    outstanding. *)
Theorem turn_taking_exclusive (tb : TurnBased) (s0 s : State) :
  oneAtATime s0 -> reaches tb s0 s ->
  (forall now event,
      isProcessingRef s = true ->
      recognition_onresult tb now event s = s
      /\ pendingFetch (recognition_onresult tb now event s) = pendingFetch s
      /\ isProcessingRef (recognition_onresult tb now event s) = true
      /\ List.length (logs (recognition_onresult tb now event s)) = List.length (logs s))
  /\ oneAtATime s
  /\ (forall e, deliverable e s ->
        (List.length (pendingFetch s) < List.length (pendingFetch (turn tb e s)) ->
         outstanding s = 0)
        /\ (List.length (synthQueue s) < List.length (synthQueue (turn tb e s)) ->
            outstanding s = 1 /\ outstanding (turn tb e s) = 1)).
Proof.
  intros H0 Hr.
  assert (Hinv : oneAtATime s).
  { induction Hr as [|s e _ IH Hd]; [exact H0|].
    exact (proj1 (turn_outstanding tb e s IH Hd)). }
  split.
  - intros now event Hp. rewrite (onresult_ignored tb now event s Hp). auto.
  - split; [exact Hinv|].
    intros e Hd. exact (proj2 (turn_outstanding tb e s Hinv Hd)).
Qed.

Lemma turn_taking_exclusive_witness :
  oneAtATime Sample.listening
  /\ reaches Sample.session Sample.listening Sample.thinking
  /\ oneAtATime Sample.thinking
  /\ isProcessingRef Sample.thinking = true
  /\ recognition_onresult Sample.session 6 Sample.statusReport Sample.thinking = Sample.thinking.
Proof.
  assert (H0 : oneAtATime Sample.listening).
  { split; vm_compute; [repeat constructor | discriminate]. }
  assert (Hr : reaches Sample.session Sample.listening Sample.thinking).
  { exact (reaches_step Sample.session Sample.listening Sample.listening
             (Result 5 Sample.statusReport) (reaches_start _ _) I). }
  destruct (turn_taking_exclusive Sample.session Sample.listening Sample.thinking H0 Hr)
    as (Hignored & Hinv & _).
  split; [exact H0|]. split; [exact Hr|]. split; [exact Hinv|].
  split; [reflexivity|].
  exact (proj1 (Hignored 6 Sample.statusReport eq_refl)).
Defined.

End TurnTaking.

(** ** The completion request *)

Section Completion.

Lemma prefix_same (p : string) : String.prefix p p = true.
Proof.
  induction p as [|c p IH]; cbn; [reflexivity|].
  destruct (ascii_dec c c); [exact IH | congruence].
Qed.

Lemma includes_suffix (p a : string) : Js.includes p (a ++ p)%string = true.
Proof.
  induction a as [|c a IH]; cbn.
  - destruct p; cbn; [reflexivity|]. rewrite prefix_same.
    destruct (ascii_dec a a); [reflexivity | congruence].
  - rewrite IH. apply orb_true_r.
Qed.

(** Every failure of the request reaches the [catch] as an error with its
    failure message. *)
Lemma failure_raises (out : FetchOutcome) (text : string) :
  failsWith out text ->
  exists error, completionResult out = Throws error /\ messageText error = text.
Proof.
  intros [e | ok e | body upstream Hm Hne | body Hm].
  - exists e. split; reflexivity.
  - exists e. destruct ok; split; reflexivity.
  - exists (newError upstream). cbn. rewrite Hm. cbn.
    destruct upstream; [congruence | split; reflexivity].
  - exists (newError "API Request Failed"). cbn.
    destruct Hm as [-> | ->]; split; reflexivity.
Qed.

(** Nothing else reaches the [catch]. *)
Lemma raise_is_failure (out : FetchOutcome) (error : Thrown) :
  completionResult out = Throws error -> failsWith out (messageText error).
Proof.
  destruct out as [e | ok [body | e]]; cbn.
  - intros [= <-]. constructor.
  - destruct ok; [discriminate|]. intros [= <-].
    destruct (body_error_message body) as [m|] eqn:Em; cbn.
    + destruct m as [|c m]; cbn.
      * apply refused_without_message. right. exact Em.
      * apply refused_with_message; [exact Em | discriminate].
    + apply refused_without_message. left. exact Em.
  - destruct ok; intros [= <-]; constructor.
Qed.

(** C8. A response that is not [ok] raises an error whose message is the
    upstream [error.message] when there is one (an empty one counts as
    absent) and "API Request Failed" otherwise; a rejected [fetch] and a body
    that cannot be read raise their own error.  Whatever makes the request
    fail, the error reaches the [catch] with the failure message, and the
    handler appends one system entry "LLM Error: " followed by that message,
    clears the processing flag and restarts the recogniser; it starts no
    synthesis and leaves the status as it was. *)
Theorem completion_failure_recovers (B : Browser) (tb : TurnBased) (now i : nat)
    (out : FetchOutcome) (text : string) (s : State) :
  failsWith out text ->
  let s' := completion_settled B tb now i out s in
  let entry := {| timestamp := now; sender := system; message := "LLM Error: " ++ text |} in
  (exists error, completionResult out = Throws error /\ messageText error = text)
  /\ logs s' = logs s ++ [entry]
  /\ Js.includes text (message entry) = true
  /\ isProcessingRef s' = false
  /\ callsSince s s' = [RecognitionStart (tb_recognition tb)]
  /\ status s' = status s
  /\ synthQueue s' = synthQueue s
  /\ pendingFetch s' = removeAt i (pendingFetch s)
  /\ (forall body upstream,
        out = FetchResponds false (Ok body) ->
        body_error_message body = Some upstream -> upstream <> "" -> text = upstream)
  /\ (forall body,
        out = FetchResponds false (Ok body) ->
        body_error_message body = None \/ body_error_message body = Some "" ->
        text = "API Request Failed").
Proof.
  intros Hf. cbv zeta.
  destruct (failure_raises out text Hf) as (error & He & Ht).
  split; [exists error; split; assumption|].
  split; [|split; [|split; [|split; [|split; [|split; [|split; [|split]]]]]]].
  - unfold completion_settled. rewrite He, Ht. dstate s. run. reflexivity.
  - cbn [message]. apply includes_suffix.
  - unfold completion_settled. rewrite He. dstate s. run. reflexivity.
  - unfold completion_settled. rewrite He. dstate s. run. apply skipn_length_app.
  - unfold completion_settled. rewrite He. dstate s. run. reflexivity.
  - unfold completion_settled. rewrite He. dstate s. run. reflexivity.
  - unfold completion_settled. rewrite He. dstate s. run. reflexivity.
  - intros body upstream -> Hm Hne. cbn in He. rewrite Hm in He. cbn in He.
    injection He as <-. rewrite <- Ht. cbn. destruct upstream; [congruence | reflexivity].
  - intros body -> Hm. cbn in He. injection He as <-. rewrite <- Ht.
    destruct Hm as [-> | ->]; reflexivity.
Qed.

(** The request for "status report" is rejected with "rate limit exceeded". *)
Lemma completion_failure_recovers_witness :
  failsWith Sample.rateLimited "rate limit exceeded"
  /\ completionResult Sample.rateLimited = Throws (newError "rate limit exceeded")
  /\ map message (logs (completion_settled Sample.page Sample.session 6 0 Sample.rateLimited
                          Sample.thinking))
     = map message (logs Sample.thinking) ++ ["LLM Error: rate limit exceeded"]
  /\ isProcessingRef (completion_settled Sample.page Sample.session 6 0 Sample.rateLimited
                        Sample.thinking) = false
  /\ callsSince Sample.thinking
       (completion_settled Sample.page Sample.session 6 0 Sample.rateLimited Sample.thinking)
     = [RecognitionStart 0].
Proof.
  assert (Hf : failsWith Sample.rateLimited "rate limit exceeded")
    by (apply refused_with_message; [reflexivity | discriminate]).
  destruct (completion_failure_recovers Sample.page Sample.session 6 0 Sample.rateLimited
              "rate limit exceeded" Sample.thinking Hf)
    as (_ & Hl & _ & Hp & Hc & _).
  split; [exact Hf|]. split; [reflexivity|]. split; [rewrite Hl, map_app; reflexivity|].
  split; assumption.
Defined.

(** The successful exchange of the same request: the reply is logged as
    [ai] and queued for synthesis with the one Portuguese voice of the page;
    when it has been spoken the flag is down and the recogniser restarted. *)
Example completion_success :
  let spoken := completion_settled Sample.page Sample.session 6 0 Sample.nominal Sample.thinking in
  map (fun e => (sender e, message e)) (logs Sample.thinking)
    = [ (system, "Initializing adapter for Groq (llama-3)..."); (user, "status report") ]
  /\ pendingFetch Sample.thinking
     = [ {| req_url := "https://api.groq.com/openai/v1/chat/completions";
            req_authorization := "Bearer gsk_abc";
            req_model := "llama-3";
            req_system := "You are James.";
            req_user := "status report" |} ]
  /\ map (fun e => (sender e, message e)) (logs spoken)
     = [ (system, "Initializing adapter for Groq (llama-3)..."); (user, "status report");
         (ai, "All systems nominal") ]
  /\ map utt_text (synthQueue spoken) = ["All systems nominal"]
  /\ map utt_voice (synthQueue spoken)
     = [Some {| voice_name := "Google portugues do Brasil"; voice_lang := "pt-BR" |}]
  /\ isProcessingRef spoken = true
  /\ isProcessingRef (utterance_onend 0 spoken) = false
  /\ callsSince spoken (utterance_onend 0 spoken) = [RecognitionStart 0].
Proof. vm_compute. repeat split. Qed.

End Completion.

(** ** Voice selection *)

Section VoiceSelection.

Lemma find_ext {A : Type} (f g : A -> bool) (l : list A) :
  (forall x, f x = g x) -> find f l = find g l.
Proof.
  intros H. induction l as [|a l IH]; cbn; [reflexivity|].
  rewrite H, IH. reflexivity.
Qed.

Lemma find_all_false {A : Type} (f : A -> bool) (l : list A) :
  (forall x, In x l -> f x = false) -> find f l = None.
Proof.
  induction l as [|a l IH]; cbn; intros H; [reflexivity|].
  rewrite (H a (or_introl eq_refl)). apply IH. intros x Hx. apply H. right. exact Hx.
Qed.

(** Every predicate of the cascade accepts only voices of the locale family. *)
Lemma preferences_in_family (p : Voice -> bool) (v : Voice) :
  In p voicePreferences -> p v = true -> inLocaleFamily v = true.
Proof.
  cbn. intros [<- | [<- | [<- | [<- | []]]]] H.
  - unfold isPreferredVoice in H. apply andb_prop in H. apply H.
  - apply andb_prop in H. apply H.
  - unfold isTargetLocale in H. apply String.eqb_eq in H.
    unfold inLocaleFamily. rewrite H. reflexivity.
  - exact H.
Qed.

Lemma firstMatch_some (ps : list (Voice -> bool)) (voices : list Voice) (v : Voice) :
  firstMatch ps voices = Some v -> exists p, In p ps /\ In v voices /\ p v = true.
Proof.
  induction ps as [|p ps IH]; cbn; [discriminate|].
  destruct (find p voices) as [w|] eqn:E.
  - intros [= <-]. apply find_some in E. exists p. tauto.
  - intros H. destruct (IH H) as (q & Hq & Hv). exists q. tauto.
Qed.

Lemma firstMatch_none (ps : list (Voice -> bool)) (voices : list Voice) :
  firstMatch ps voices = None <-> (forall p, In p ps -> find p voices = None).
Proof.
  induction ps as [|p ps IH]; cbn.
  - split; [intros _ p [] | reflexivity].
  - destruct (find p voices) as [w|] eqn:E.
    + split; [discriminate|]. intros H. rewrite <- E. apply H. left. reflexivity.
    + rewrite IH. split.
      * intros H q [<- | Hq]; [exact E | apply H; exact Hq].
      * intros H q Hq. apply H. right. exact Hq.
Qed.

(** C9. The voice of a reply is the result of the ordered cascade, the
    first predicate that accepts a voice giving the first voice it accepts:
    the named voice in the locale family, then a voice of the family whose
    name carries a gender marker, then a voice of the exact locale, then any
    voice of the family.  What is selected is one of the available voices and
    of the family; nothing is selected exactly when no available voice is of
    the family, and the utterance then has no voice of its own. *)
Theorem voice_cascade (voices : list Voice) :
  selectVoice voices = firstMatch voicePreferences voices
  /\ (forall v, find isPreferredVoice voices = Some v -> selectVoice voices = Some v)
  /\ (forall v,
        find isPreferredVoice voices = None ->
        find (fun v => inLocaleFamily v && hasGenderMarker v) voices = Some v ->
        selectVoice voices = Some v)
  /\ (forall v,
        find isPreferredVoice voices = None ->
        find (fun v => inLocaleFamily v && hasGenderMarker v) voices = None ->
        find isTargetLocale voices = Some v ->
        selectVoice voices = Some v)
  /\ (forall v,
        find isPreferredVoice voices = None ->
        find (fun v => inLocaleFamily v && hasGenderMarker v) voices = None ->
        find isTargetLocale voices = None ->
        find inLocaleFamily voices = Some v ->
        selectVoice voices = Some v)
  /\ (forall v, selectVoice voices = Some v -> In v voices /\ inLocaleFamily v = true)
  /\ (selectVoice voices = None <-> (forall v, In v voices -> inLocaleFamily v = false))
  /\ (forall B tb aiText,
        getVoices B = voices ->
        utt_voice (makeUtterance B tb aiText) = selectVoice voices).
Proof.
  assert (E : selectVoice voices = firstMatch voicePreferences voices).
  { assert (H : forall a b c d : option Voice,
               match
                 match
                   match a with Some v => Some v | None => b end
                 with Some v => Some v | None => c end
               with Some v => Some v | None => d end
               = match a with
                 | Some v => Some v
                 | None =>
                     match b with
                     | Some v => Some v
                     | None =>
                         match c with
                         | Some v => Some v
                         | None => match d with Some v => Some v | None => None end
                         end
                     end
                 end).
    { intros [?|] [?|] [?|] [?|]; reflexivity. }
    exact (H (find isPreferredVoice voices)
             (find (fun v => inLocaleFamily v && hasGenderMarker v) voices)
             (find isTargetLocale voices)
             (find inLocaleFamily voices)). }
  split; [exact E|]. rewrite E. cbn [firstMatch voicePreferences].
  split; [intros v ->; reflexivity|].
  split; [intros v -> ->; reflexivity|].
  split; [intros v -> -> ->; reflexivity|].
  split; [intros v -> -> -> ->; reflexivity|].
  change (match find isPreferredVoice voices with
          | Some v => Some v
          | None =>
              match find (fun v => inLocaleFamily v && hasGenderMarker v) voices with
              | Some v => Some v
              | None =>
                  match find isTargetLocale voices with
                  | Some v => Some v
                  | None =>
                      match find inLocaleFamily voices with
                      | Some v => Some v
                      | None => None
                      end
                  end
              end
          end) with (firstMatch voicePreferences voices).
  split; [|split].
  - intros v H. destruct (firstMatch_some _ _ _ H) as (p & Hp & Hv & Hpv).
    split; [exact Hv | exact (preferences_in_family p v Hp Hpv)].
  - rewrite firstMatch_none. split.
    + intros H v Hv.
      exact (find_none _ _ (H inLocaleFamily ltac:(cbn; tauto)) v Hv).
    + intros H p Hp. apply find_all_false. intros v Hv.
      destruct (p v) eqn:Epv; [|reflexivity].
      specialize (H v Hv). rewrite (preferences_in_family p v Hp Epv) in H.
      discriminate.
  - intros B tb aiText <-. cbn. exact E.
Qed.

Lemma voice_cascade_witness :
  find isPreferredVoice (getVoices Sample.page) = None
  /\ find (fun v => inLocaleFamily v && hasGenderMarker v) (getVoices Sample.page) = None
  /\ find isTargetLocale (getVoices Sample.page)
     = Some {| voice_name := "Google portugues do Brasil"; voice_lang := "pt-BR" |}
  /\ selectVoice (getVoices Sample.page)
     = Some {| voice_name := "Google portugues do Brasil"; voice_lang := "pt-BR" |}.
Proof.
  split; [reflexivity|]. split; [reflexivity|]. split; [reflexivity|].
  apply (proj1 (proj2 (proj2 (proj2 (voice_cascade (getVoices Sample.page))))));
    reflexivity.
Defined.

End VoiceSelection.

(** ** Choice of the completion endpoint *)

Section Endpoint.

Lemma connectGemini_async (B : Browser) (L : LiveSetup) (now : nat) (config : AIConfig)
    (s : State) :
  snd (connectGemini B L now config s) = Returned
  \/ snd (connectGemini B L now config s) = AwaitUserMedia config.
Proof.
  destruct L as [a b c d]. dstate s. unfold connectGemini.
  destruct a as [[]|ea]; [destruct b as [[]|eb]|];
    cbn -[connectGemini_catch String.append]; auto.
Qed.

Lemma connectOpenAI_setup_async (T : SpeechSetup) (now : nat) (config : AIConfig) (s : State) :
  snd (connectOpenAI_setup T now config s) = Returned
  \/ exists recognition,
       snd (connectOpenAI_setup T now config s)
       = Installed {| tb_config := config; tb_baseUrl := baseUrl config;
                      tb_recognition := recognition |}.
Proof.
  destruct T as [a b c]. dstate s.
  destruct a as [[]|ea]; [destruct b as [[]|eb]; [destruct c as [[]|ec]|]|];
    run; eauto.
Qed.

Lemma connectOpenAI_async (B : Browser) (T : SpeechSetup) (now : nat) (config : AIConfig)
    (s : State) :
  snd (connectOpenAI B T now config s) = Returned
  \/ snd (connectOpenAI B T now config s) = Rejected
  \/ snd (connectOpenAI B T now config s) = AwaitVoices config
  \/ exists recognition,
       snd (connectOpenAI B T now config s)
       = Installed {| tb_config := config; tb_baseUrl := baseUrl config;
                      tb_recognition := recognition |}.
Proof.
  unfold connectOpenAI.
  destruct (hasSpeechRecognition B); cbn [negb]; [|auto].
  destruct (hasSpeechSynthesis B); cbn [negb]; [|auto].
  destruct (getVoices B); [auto|].
  destruct (connectOpenAI_setup_async T now config
              (addLog now system
                 ("Initializing adapter for " ++ (if isGroq config then "Groq" else "OpenAI")
                  ++ " (" ++ modelId config ++ ")...") (setStatus CONNECTING s))) as [H|H];
    auto.
Qed.

(** A session is installed only with a resolved, non-empty credential, and
    its closure holds the configuration that carries it. *)
Lemma installs_closure (B : Browser) (L : LiveSetup) (T T' : SpeechSetup) (now now' : nat)
    (config : AIConfig) (s s1 : State) (tb : TurnBased) :
  installs B L T T' now now' config s s1 tb ->
  exists key,
    resolveApiKey B config = Some key /\ key <> ""
    /\ tb_config tb = withApiKey config key
    /\ tb_baseUrl tb = baseUrl (withApiKey config key).
Proof.
  unfold installs, connect.
  destruct (resolveApiKey B config) as [key|];
    [|intros [H | (c & H & _)]; discriminate].
  destruct (Js.truthy key) eqn:Ht; cbn [negb];
    [|intros [H | (c & H & _)]; discriminate].
  intros H. exists key. split; [reflexivity|].
  split; [destruct key; [discriminate | congruence]|].
  destruct (provider config =? "gemini")%string.
  - destruct (connectGemini_async B L now (withApiKey config key) s) as [E|E];
      rewrite E in H; destruct H as [H | (c & H & _)]; discriminate.
  - destruct (connectOpenAI_async B T now (withApiKey config key) s)
      as [E | [E | [E | (r & E)]]]; rewrite E in H.
    + destruct H as [H | (c & H & _)]; discriminate.
    + destruct H as [H | (c & H & _)]; discriminate.
    + destruct H as [H | (c & H & H')]; [discriminate|].
      injection H as <-. unfold connectOpenAI_resume in H'.
      destruct (connectOpenAI_setup_async T' now' (withApiKey config key) s1)
        as [E' | (r & E')]; rewrite E' in H'; [discriminate|].
      injection H' as <-. split; reflexivity.
    + destruct H as [H | (c & H & _)]; [|discriminate].
      injection H as <-. split; reflexivity.
Qed.

(** C10. The completion requests of a session installed by [connect] go to
    the Groq base URL when the resolved credential starts with "gsk_" and to
    the OpenAI base URL otherwise, and carry that credential as bearer token;
    [onresult] is the handler that issues them, one at most per result. *)
Theorem endpoint_follows_key_prefix (B : Browser) (L : LiveSetup) (T T' : SpeechSetup)
    (now now' : nat) (config : AIConfig) (s s1 : State) (tb : TurnBased) :
  installs B L T T' now now' config s s1 tb ->
  exists key,
    resolveApiKey B config = Some key /\ key <> ""
    /\ forall (t : nat) (event : RecognitionResult) (s2 : State),
         pendingFetch (recognition_onresult tb t event s2) = pendingFetch s2
         \/ exists req,
              pendingFetch (recognition_onresult tb t event s2) = pendingFetch s2 ++ [req]
              /\ req_url req
                 = (if Js.startsWith "gsk_" key
                    then "https://api.groq.com/openai/v1/chat/completions"
                    else "https://api.openai.com/v1/chat/completions")
              /\ req_authorization req = ("Bearer " ++ key)%string.
Proof.
  intros H. destruct (installs_closure _ _ _ _ _ _ _ _ _ _ H) as (key & Hr & Hne & Hc & Hb).
  exists key. split; [exact Hr|]. split; [exact Hne|].
  intros t event s2. unfold recognition_onresult.
  destruct (isProcessingRef s2); [left; reflexivity|].
  destruct (isFinal event && (0 <? String.length (Js.trim (transcript event))));
    [|left; reflexivity].
  right. exists (completionRequest tb (transcript event)).
  split; [dstate s2; reflexivity|].
  unfold completionRequest. cbn [req_url req_authorization].
  rewrite Hb, Hc. unfold baseUrl, isGroq. cbn [apiKey withApiKey].
  destruct (Js.startsWith "gsk_" key); split; reflexivity.
Qed.

Lemma endpoint_follows_key_prefix_witness :
  installs Sample.page Sample.setupOk Sample.speechOk Sample.speechOk 0 0 Sample.groqConfig
    initial initial Sample.session
  /\ map req_url (pendingFetch Sample.thinking)
     = ["https://api.groq.com/openai/v1/chat/completions"]
  /\ exists key,
       resolveApiKey Sample.page Sample.groqConfig = Some key /\ key <> ""
       /\ forall (t : nat) (event : RecognitionResult) (s2 : State),
            pendingFetch (recognition_onresult Sample.session t event s2) = pendingFetch s2
            \/ exists req,
                 pendingFetch (recognition_onresult Sample.session t event s2)
                 = pendingFetch s2 ++ [req]
                 /\ req_url req
                    = (if Js.startsWith "gsk_" key
                       then "https://api.groq.com/openai/v1/chat/completions"
                       else "https://api.openai.com/v1/chat/completions")
                 /\ req_authorization req = ("Bearer " ++ key)%string.
Proof.
  assert (H : installs Sample.page Sample.setupOk Sample.speechOk Sample.speechOk 0 0
                Sample.groqConfig initial initial Sample.session) by (left; reflexivity).
  split; [exact H|]. split; [reflexivity|].
  exact (endpoint_follows_key_prefix _ _ _ _ _ _ _ _ _ _ H).
Defined.

(** The same handlers on an OpenAI key send the request to the OpenAI host. *)
Example openai_endpoint :
  let listening := fst (connect Sample.page Sample.setupOk Sample.speechOk 0
                          Sample.openaiConfig initial) in
  snd (connect Sample.page Sample.setupOk Sample.speechOk 0 Sample.openaiConfig initial)
    = Installed {| tb_config := Sample.openaiConfig;
                   tb_baseUrl := "https://api.openai.com/v1";
                   tb_recognition := 0 |}
  /\ pendingFetch
       (recognition_onresult
          {| tb_config := Sample.openaiConfig; tb_baseUrl := "https://api.openai.com/v1";
             tb_recognition := 0 |} 5 Sample.statusReport listening)
     = [ {| req_url := "https://api.openai.com/v1/chat/completions";
            req_authorization := "Bearer sk-abc";
            req_model := "gpt-4o";
            req_system := "You are James.";
            req_user := "status report" |} ].
Proof. vm_compute. split; reflexivity. Qed.

End Endpoint.

(** * Further properties of the hook *)

(** ** The turn-based loop *)

Section TurnLoop.

Lemma truthy_length (x : string) : (0 <? String.length x) = Js.truthy x.
Proof. destruct x; reflexivity. Qed.

Lemma blank_test (text : string) :
  (0 <? String.length (Js.trim text)) = negb (Js.allWhiteSpace text).
Proof. rewrite truthy_length. apply trim_truthy. Qed.

Lemma removeAt_last {A : Type} (l : list A) (x : A) :
  removeAt (List.length l) (l ++ [x]) = l.
Proof.
  unfold removeAt.
  rewrite firstn_app, Nat.sub_diag, firstn_all. cbn [firstn]. rewrite app_nil_r.
  rewrite skipn_all2; [apply app_nil_r|]. rewrite length_app. cbn. lia.
Qed.

Lemma nth_error_last {A : Type} (l : list A) (x : A) :
  nth_error (l ++ [x]) (List.length l) = Some x.
Proof. rewrite nth_error_app2, Nat.sub_diag; [reflexivity | lia]. Qed.

(** X1. [onresult] takes a result up exactly when the processing flag is
    down, the result is final and its transcript is not white space only;
    otherwise it leaves the state as it is.  A result taken up is logged as
    [user] and sent as the one user message with its transcript as delivered
    (the trimming serves the test only), beside the system instruction and
    the model of the configuration; the flag goes up and the recogniser is
    stopped. *)
Theorem onresult_accepts (tb : TurnBased) (now : nat) (event : RecognitionResult) (s : State) :
  let s' := recognition_onresult tb now event s in
  (accepts event s = false -> s' = s)
  /\ (accepts event s = true ->
      logs s' = logs s ++ [{| timestamp := now; sender := user; message := transcript event |}]
      /\ pendingFetch s' = pendingFetch s ++
           [{| req_url := tb_baseUrl tb ++ "/chat/completions";
               req_authorization := "Bearer " ++ apiKey (tb_config tb);
               req_model := modelId (tb_config tb);
               req_system := systemInstruction (tb_config tb);
               req_user := transcript event |}]
      /\ isProcessingRef s' = true
      /\ callsSince s s' = [RecognitionStop (tb_recognition tb)]
      /\ status s' = status s
      /\ synthQueue s' = synthQueue s
      /\ recognitionRef s' = recognitionRef s).
Proof.
  cbv zeta. unfold accepts, recognition_onresult. rewrite blank_test.
  destruct (isProcessingRef s) eqn:Ep; cbn [negb andb].
  - split; [reflexivity | discriminate].
  - destruct (isFinal event && negb (Js.allWhiteSpace (transcript event))) eqn:Ea.
    + split; [discriminate|]. intros _.
      dstate s. run. rewrite skipn_length_app. repeat split.
    + split; [reflexivity | discriminate].
Qed.

Lemma onresult_accepts_witness :
  accepts Sample.statusReport Sample.listening = true
  /\ accepts {| transcript := "   "; isFinal := true |} Sample.listening = false
  /\ recognition_onresult Sample.session 5 {| transcript := "   "; isFinal := true |}
       Sample.listening = Sample.listening
  /\ isProcessingRef (recognition_onresult Sample.session 5 Sample.statusReport Sample.listening)
     = true.
Proof.
  pose proof (onresult_accepts Sample.session 5 Sample.statusReport Sample.listening) as [_ H1].
  pose proof (onresult_accepts Sample.session 5 {| transcript := "   "; isFinal := true |}
                Sample.listening) as [H0 _].
  split; [reflexivity|]. split; [reflexivity|].
  split; [exact (H0 eq_refl) | exact (proj1 (proj2 (proj2 (H1 eq_refl))))].
Defined.

(** X2. One whole exchange.  A result taken up, its request answered with a
    reply that is not empty while the page can speak, and the utterance
    spoken to its end: the log gains the [user] entry and the [ai] entry, in
    this order; the utterance carries the reply with pitch 1, rate 1.1 and the
    voice of the cascade; while it is spoken the flag stays up; at its end the
    flag is down, the recogniser that was stopped is started again, the
    requests in flight and the utterance queue are what they were, and the
    status never moved. *)
Theorem exchange_round_trip (B : Browser) (tb : TurnBased) (t1 t2 : nat)
    (event : RecognitionResult) (ok_body : ResponseBody) (reply : string) (s : State) :
  accepts event s = true ->
  body_content ok_body = Some reply -> reply <> "" ->
  hasSpeechSynthesis B = true ->
  let s1 := recognition_onresult tb t1 event s in
  let s2 := completion_settled B tb t2 (List.length (pendingFetch s))
              (FetchResponds true (Ok ok_body)) s1 in
  let s3 := utterance_onend (List.length (synthQueue s)) s2 in
  logs s3 = logs s ++ [{| timestamp := t1; sender := user; message := transcript event |};
                       {| timestamp := t2; sender := ai; message := reply |}]
  /\ synthQueue s2 = synthQueue s ++
       [{| utt_text := reply; utt_pitch := 1; utt_rate := 11 # 10;
           utt_voice := selectVoice (getVoices B); utt_owner := tb_recognition tb |}]
  /\ isProcessingRef s2 = true
  /\ pendingFetch s2 = pendingFetch s
  /\ isProcessingRef s3 = false
  /\ synthQueue s3 = synthQueue s
  /\ pendingFetch s3 = pendingFetch s
  /\ callsSince s s3 = [RecognitionStop (tb_recognition tb); RecognitionStart (tb_recognition tb)]
  /\ status s3 = status s.
Proof.
  intros Ha Hb Hne Hsyn. cbv zeta.
  unfold accepts in Ha. unfold recognition_onresult in *. rewrite blank_test in *.
  destruct (isProcessingRef s) eqn:Ep; [discriminate|]. cbn [negb andb] in Ha. rewrite Ha in *.
  assert (Hr : completionResult (FetchResponds true (Ok ok_body)) = Ok reply).
  { cbn. rewrite Hb. cbn. destruct reply; [congruence | reflexivity]. }
  assert (Ht : Js.truthy reply = true) by (destruct reply; [congruence | reflexivity]).
  unfold completion_settled. rewrite Hr, Ht, Hsyn. cbn [andb].
  unfold utterance_onend.
  dstate s. dbrowser B. destruct tb as [cfg url rec]. run.
  rewrite removeAt_last. run. rewrite nth_error_last. run. rewrite removeAt_last.
  assoc_right. rewrite skipn_length_app.
  repeat split.
Qed.

Lemma exchange_round_trip_witness :
  accepts Sample.statusReport Sample.listening = true
  /\ map (fun e => (sender e, message e))
       (logs (utterance_onend 0
                (completion_settled Sample.page Sample.session 6 0 Sample.nominal
                   (recognition_onresult Sample.session 5 Sample.statusReport Sample.listening))))
     = map (fun e => (sender e, message e)) (logs Sample.listening)
       ++ [(user, "status report"); (ai, "All systems nominal")]
  /\ isProcessingRef
       (utterance_onend 0
          (completion_settled Sample.page Sample.session 6 0 Sample.nominal
             (recognition_onresult Sample.session 5 Sample.statusReport Sample.listening)))
     = false.
Proof.
  destruct (exchange_round_trip Sample.page Sample.session 5 6 Sample.statusReport
              {| body_error_message := None; body_content := Some "All systems nominal" |}
              "All systems nominal" Sample.listening eq_refl eq_refl
              ltac:(discriminate) eq_refl) as (Hl & _ & _ & _ & Hp & _).
  split; [reflexivity|]. split; [|exact Hp].
  change (List.length (pendingFetch Sample.listening)) with 0 in Hl.
  change (List.length (synthQueue Sample.listening)) with 0 in Hl.
  change Sample.nominal with
    (FetchResponds true
       (Ok {| body_error_message := None; body_content := Some "All systems nominal" |})).
  rewrite Hl, map_app. reflexivity.
Defined.

(** X3. A reply with nothing to say, or a page that cannot speak: the reply
    is still logged as [ai] (an empty entry when the content is absent or
    empty), nothing is queued for synthesis, and the flag is cleared and the
    recogniser restarted at once. *)
Theorem silent_reply (B : Browser) (tb : TurnBased) (now i : nat) (out : FetchOutcome)
    (aiText : string) (s : State) :
  completionResult out = Ok aiText ->
  aiText = "" \/ hasSpeechSynthesis B = false ->
  let s' := completion_settled B tb now i out s in
  logs s' = logs s ++ [{| timestamp := now; sender := ai; message := aiText |}]
  /\ synthQueue s' = synthQueue s
  /\ isProcessingRef s' = false
  /\ callsSince s s' = [RecognitionStart (tb_recognition tb)]
  /\ status s' = status s
  /\ (forall body, out = FetchResponds true (Ok body) ->
        body_content body = None \/ body_content body = Some "" -> aiText = "").
Proof.
  intros Hr Hs. cbv zeta. unfold completion_settled. rewrite Hr.
  assert (Hc : Js.truthy aiText && hasSpeechSynthesis B = false).
  { destruct Hs as [-> | ->]; [reflexivity | apply andb_false_r]. }
  rewrite Hc. split; [|split; [|split; [|split; [|split]]]].
  - dstate s. run. reflexivity.
  - dstate s. run. reflexivity.
  - dstate s. run. reflexivity.
  - dstate s. run. apply skipn_length_app.
  - dstate s. run. reflexivity.
  - intros body -> Hb. cbn in Hr. injection Hr as <-.
    destruct Hb as [-> | ->]; reflexivity.
Qed.

Lemma silent_reply_witness :
  completionResult (FetchResponds true (Ok {| body_error_message := None; body_content := None |}))
    = Ok ""
  /\ isProcessingRef
       (completion_settled Sample.page Sample.session 6 0
          (FetchResponds true (Ok {| body_error_message := None; body_content := None |}))
          Sample.thinking) = false
  /\ synthQueue
       (completion_settled Sample.page Sample.session 6 0
          (FetchResponds true (Ok {| body_error_message := None; body_content := None |}))
          Sample.thinking) = synthQueue Sample.thinking.
Proof.
  destruct (silent_reply Sample.page Sample.session 6 0
              (FetchResponds true (Ok {| body_error_message := None; body_content := None |}))
              "" Sample.thinking eq_refl (or_introl eq_refl)) as (_ & Hq & Hp & _).
  split; [reflexivity|]. split; assumption.
Defined.

(** X4. [recognition.onerror] changes the hook for "not-allowed" only, by one
    system entry and the status [ERROR]; every other error, "no-speech" and
    "aborted" among them, leaves the state as it is.  No error stops the
    recogniser, clears its reference or touches the processing flag, so the
    keep-alive of [onend] restarts the recogniser after an error exactly when
    it would have without it, after "not-allowed" too. *)
Theorem onerror_only_not_allowed (tb : TurnBased) (now : nat) (error : string) (s : State) :
  let s' := recognition_onerror now error s in
  (error <> "not-allowed" -> s' = s)
  /\ (error = "not-allowed" ->
      logs s' = logs s ++ [{| timestamp := now; sender := system;
                              message := "Error: Microphone access denied." |}]
      /\ status s' = ERROR)
  /\ calls s' = calls s
  /\ recognitionRef s' = recognitionRef s
  /\ isProcessingRef s' = isProcessingRef s
  /\ keepsAlive tb s' = keepsAlive tb s
  /\ callsSince s' (recognition_onend tb s') = callsSince s (recognition_onend tb s).
Proof.
  cbv zeta. unfold recognition_onerror.
  destruct (String.eqb_spec error "no-speech") as [->|H1]; cbn [orb];
    [repeat split; try reflexivity; discriminate|].
  destruct (String.eqb_spec error "aborted") as [->|H2]; cbn [orb];
    [repeat split; try reflexivity; discriminate|].
  destruct (String.eqb_spec error "not-allowed") as [->|H3].
  - split; [congruence|]. dstate s. destruct tb as [cfg url rec].
    unfold keepsAlive, recognition_onend. run.
    repeat split. destruct (_ && _); run; reflexivity.
  - repeat split; try reflexivity; congruence.
Qed.

Lemma onerror_only_not_allowed_witness :
  "network" <> "not-allowed"
  /\ recognition_onerror 7 "network" Sample.listening = Sample.listening
  /\ status (recognition_onerror 7 "not-allowed" Sample.listening) = ERROR
  /\ callsSince (recognition_onerror 7 "not-allowed" Sample.listening)
       (recognition_onend Sample.session (recognition_onerror 7 "not-allowed" Sample.listening))
     = [RecognitionStart 0].
Proof.
  destruct (onerror_only_not_allowed Sample.session 7 "network" Sample.listening)
    as (H1 & _).
  destruct (onerror_only_not_allowed Sample.session 7 "not-allowed" Sample.listening)
    as (_ & H2 & _ & _ & _ & _ & H3).
  split; [discriminate|]. split; [apply H1; discriminate|].
  split; [exact (proj2 (H2 eq_refl))|]. rewrite H3. reflexivity.
Defined.

(** X5. The keep-alive of [onend] starts its recogniser again exactly when
    the hook still refers to it and the processing flag is down, and does
    nothing else.  After [cleanup], which clears the reference before it
    stops the recogniser, no [onend] restarts anything, whatever the session. *)
Theorem onend_keep_alive (B : Browser) (tb : TurnBased) (s : State) :
  (keepsAlive tb s = true ->
   recognition_onend tb s = call (RecognitionStart (tb_recognition tb)) s)
  /\ (keepsAlive tb s = false -> recognition_onend tb s = s)
  /\ (isProcessingRef s = true -> recognition_onend tb s = s)
  /\ (recognitionRef s <> Some (tb_recognition tb) -> recognition_onend tb s = s)
  /\ recognition_onend tb (cleanup B s) = cleanup B s
  /\ (forall now, recognition_onend tb (disconnect B now s) = disconnect B now s).
Proof.
  assert (Hclean : forall x, recognitionRef x = None -> recognition_onend tb x = x).
  { intros x Hx. unfold recognition_onend, isCurrentRecognition. rewrite Hx. reflexivity. }
  unfold keepsAlive, recognition_onend.
  split; [intros ->; reflexivity|].
  split; [intros ->; reflexivity|].
  split; [intros ->; rewrite andb_false_r; reflexivity|].
  split.
  - intros Hne. unfold isCurrentRecognition.
    destruct (recognitionRef s) as [r|]; [|reflexivity].
    destruct (Nat.eqb_spec r (tb_recognition tb)) as [->|_]; [congruence | reflexivity].
  - split; [|intros now; unfold disconnect];
      apply Hclean; apply (proj1 (cleanup_tornDown B _)).
Qed.

Lemma onend_keep_alive_witness :
  keepsAlive Sample.session Sample.listening = true
  /\ callsSince Sample.listening (recognition_onend Sample.session Sample.listening)
     = [RecognitionStart 0]
  /\ isProcessingRef Sample.thinking = true
  /\ recognition_onend Sample.session Sample.thinking = Sample.thinking.
Proof.
  destruct (onend_keep_alive Sample.page Sample.session Sample.listening) as (H1 & _).
  destruct (onend_keep_alive Sample.page Sample.session Sample.thinking) as (_ & _ & H3 & _).
  split; [reflexivity|]. split; [rewrite (H1 eq_refl); reflexivity|].
  split; [reflexivity | exact (H3 eq_refl)].
Defined.

End TurnLoop.

(** ** Set-up and teardown of the two pipelines *)

Section Lifecycle.

(** X6. A provider other than "gemini" on a page without speech
    recognition: [connect] appends the one system entry about the missing
    Web Speech API, sets the status to [ERROR] and returns; it issues no call,
    draws no handle and changes no reference. *)
Theorem connect_without_recognition (B : Browser) (L : LiveSetup) (T : SpeechSetup)
    (now : nat) (config : AIConfig) (key : string) (s : State) :
  resolveApiKey B config = Some key -> key <> "" ->
  provider config <> "gemini" ->
  hasSpeechRecognition B = false ->
  let s' := fst (connect B L T now config s) in
  snd (connect B L T now config s) = Returned
  /\ logs s' = logs s ++
       [{| timestamp := now; sender := system;
           message := "Error: Browser does not support Web Speech API required for non-Gemini providers." |}]
  /\ status s' = ERROR
  /\ calls s' = calls s /\ fresh s' = fresh s
  /\ teardownCalls s' = teardownCalls s
  /\ outputAnalyser s' = outputAnalyser s.
Proof.
  intros Hr Hne Hp Hb. cbv zeta.
  assert (Ht : Js.truthy key = true) by (destruct key; [congruence | reflexivity]).
  unfold connect. rewrite Hr, Ht. cbn [negb].
  apply String.eqb_neq in Hp. rewrite Hp.
  unfold connectOpenAI. rewrite Hb. cbn [negb].
  dstate s. run. repeat split.
Qed.

Lemma connect_without_recognition_witness :
  status (fst (connect {| hasSpeechRecognition := false; hasSpeechSynthesis := true;
                          getVoices := []; env_API_KEY := None |}
                 Sample.setupOk Sample.speechOk 0 Sample.groqConfig initial)) = ERROR
  /\ calls (fst (connect {| hasSpeechRecognition := false; hasSpeechSynthesis := true;
                            getVoices := []; env_API_KEY := None |}
                   Sample.setupOk Sample.speechOk 0 Sample.groqConfig initial)) = [].
Proof.
  destruct (connect_without_recognition
              {| hasSpeechRecognition := false; hasSpeechSynthesis := true;
                 getVoices := []; env_API_KEY := None |}
              Sample.setupOk Sample.speechOk 0 Sample.groqConfig "gsk_abc" initial
              eq_refl ltac:(discriminate) ltac:(discriminate) eq_refl)
    as (_ & _ & Hs & Hc & _).
  split; assumption.
Defined.

Lemma disconnect_stops_recogniser (B : Browser) (t : nat) (x : State) (r : nat) :
  recognitionRef x = Some r -> In (RecognitionStop r) (callsSince x (disconnect B t x)).
Proof.
  intros H. unfold callsSince. rewrite disconnect_calls, skipn_length_app.
  unfold teardownCalls. rewrite H. repeat (apply in_or_app; right). left. reflexivity.
Qed.

(** X7. The [catch] of [connectOpenAI] runs no teardown.  When
    [recognition.start()] or the audio context of the visualizer throws, the
    hook logs "Init Error: ..." and shows [ERROR], while the recogniser,
    already created, started and referenced, stays referenced with its
    handlers installed; it is the next [disconnect()] that stops it.  When the
    recogniser cannot even be created, nothing is held. *)
Theorem turn_setup_failure (B : Browser) (now t : nat) (config : AIConfig) (e : Thrown)
    (a c : Outcome unit) (s : State) :
  let noRecogniser := {| newSpeechRecognition := Throws e; recognitionStart := a;
                         newAudioContext := c |} in
  let noStart := {| newSpeechRecognition := Ok tt; recognitionStart := Throws e;
                    newAudioContext := c |} in
  let noContext := {| newSpeechRecognition := Ok tt; recognitionStart := Ok tt;
                      newAudioContext := Throws e |} in
  let entry := {| timestamp := now; sender := system;
                  message := "Init Error: " ++ messageText e |} in
  connectOpenAI_setup noRecogniser now config s
    = (setStatus ERROR (addLog now system ("Init Error: " ++ messageText e) s), Returned)
  /\ (forall T, T = noStart \/ T = noContext ->
        let s' := fst (connectOpenAI_setup T now config s) in
        snd (connectOpenAI_setup T now config s)
          = Installed {| tb_config := config; tb_baseUrl := baseUrl config;
                         tb_recognition := fresh s |}
        /\ logs s' = logs s ++ [entry]
        /\ status s' = ERROR
        /\ recognitionRef s' = Some (fresh s)
        /\ callsSince s s' = [NewRecognition (fresh s); RecognitionStart (fresh s)]
        /\ outputAnalyser s' = outputAnalyser s
        /\ In (RecognitionStop (fresh s)) (callsSince s' (disconnect B t s'))).
Proof.
  cbv zeta. split; [reflexivity|].
  intros T [-> | ->];
    (split; [dstate s; reflexivity|]); (split; [dstate s; reflexivity|]);
    (split; [dstate s; reflexivity|]); (split; [dstate s; reflexivity|]);
    (split; [dstate s; run; assoc_right; apply skipn_length_app|]);
    (split; [dstate s; reflexivity|]);
    apply disconnect_stops_recogniser; dstate s; reflexivity.
Qed.

Lemma turn_setup_failure_witness :
  status (fst (connectOpenAI_setup
                 {| newSpeechRecognition := Ok tt;
                    recognitionStart := Throws Sample.permissionDenied;
                    newAudioContext := Ok tt |} 0 Sample.groqConfig initial)) = ERROR
  /\ recognitionRef (fst (connectOpenAI_setup
                 {| newSpeechRecognition := Ok tt;
                    recognitionStart := Throws Sample.permissionDenied;
                    newAudioContext := Ok tt |} 0 Sample.groqConfig initial)) = Some 0.
Proof.
  destruct (turn_setup_failure Sample.page 0 1 Sample.groqConfig Sample.permissionDenied
              (Ok tt) (Ok tt) initial) as [_ H].
  destruct (H _ (or_introl eq_refl)) as (_ & _ & Hs & Hr & _).
  split; assumption.
Defined.

(** X8. A turn-based session set up on an idle hook and then disconnected:
    the recogniser is created, started and stopped, and nothing is held
    afterwards; the audio context created for the visualizer is referenced
    nowhere, so it is not closed, now or by any later teardown. *)
Theorem turn_session_round_trip (B : Browser) (now t : nat) (config : AIConfig) (s : State) :
  tornDown s ->
  let up := fst (connectOpenAI_setup {| newSpeechRecognition := Ok tt;
                                        recognitionStart := Ok tt;
                                        newAudioContext := Ok tt |} now config s) in
  let down := disconnect B t up in
  recognitionRef up = Some (fresh s)
  /\ outputAnalyser up = Some (S (S (fresh s)))
  /\ callsSince s down
     = [ NewRecognition (fresh s); RecognitionStart (fresh s);
         NewAudioContext (S (fresh s)) None; RecognitionStop (fresh s) ]
  /\ ~ In (ContextClose (S (fresh s))) (callsSince s down)
  /\ tornDown down
  /\ teardownCalls down = [].
Proof.
  intros (Hs & Hi & Ho & Hm & Hp & Hr & Ha & Hn). cbv zeta.
  dstate s. dbrowser B. run_in Hs. run_in Hi. run_in Ho. run_in Hm. run_in Hp. run_in Hr.
  subst. destruct b_syn; run_teardown; cbn [map app]; assoc_right;
    rewrite skipn_length_app; cbn [app];
    (repeat split; try reflexivity);
    intros [H|[H|[H|[H|[]]]]]; discriminate.
Qed.

Lemma turn_session_round_trip_witness :
  tornDown initial
  /\ callsSince initial
       (disconnect Sample.page 9
          (fst (connectOpenAI_setup Sample.speechOk 0 Sample.groqConfig initial)))
     = [ NewRecognition 0; RecognitionStart 0; NewAudioContext 1 None; RecognitionStop 0 ].
Proof.
  assert (H : tornDown initial) by (repeat split).
  split; [exact H|].
  exact (proj1 (proj2 (proj2 (turn_session_round_trip Sample.page 0 9 Sample.groqConfig
                                initial H)))).
Defined.

(** X9. A live session set up on an idle hook, opened and then disconnected.
    The analyser is published before the microphone is asked for; what is
    acquired is the input context at 16 kHz, the output context at 24 kHz, the
    microphone stream and, on open, the processing node, and [disconnect()]
    releases each of them once and leaves nothing held.  The remote session
    is only forgotten: teardown issues no call on it. *)
Theorem live_session_round_trip (B : Browser) (t0 t1 t2 t3 : nat) (config : AIConfig)
    (s : State) :
  tornDown s ->
  let waiting := fst (connectGemini B Sample.setupOk t0 config s) in
  let ready := connectGemini_resume B Sample.setupOk t1 config waiting in
  let opened := onopen t2 ready in
  let down := disconnect B t3 opened in
  let f := fresh s in
  snd (connectGemini B Sample.setupOk t0 config s) = AwaitUserMedia config
  /\ outputAnalyser waiting = Some (f + 2)
  /\ status waiting = CONNECTING /\ status ready = CONNECTING /\ status opened = CONNECTED
  /\ activeSessionRef opened = Some (f + 4)
  /\ callsSince s down
     = [ NewAudioContext f (Some SAMPLE_RATE_INPUT);
         NewAudioContext (f + 1) (Some SAMPLE_RATE_OUTPUT);
         GetUserMedia (f + 3); LiveConnect (f + 4) config;
         ContextClose f; ContextClose (f + 1); StreamStopTracks (f + 3);
         ProcessorDisconnect (f + 5) ]
  /\ tornDown down /\ status down = DISCONNECTED.
Proof.
  intros (Hs & Hi & Ho & Hm & Hp & Hr & Ha & Hn). cbv zeta.
  dstate s. dbrowser B. run_in Hs. run_in Hi. run_in Ho. run_in Hm. run_in Hp. run_in Hr.
  subst. unfold Sample.setupOk. cbn [fresh].
  replace (fr + 1) with (S fr) by lia. replace (fr + 2) with (S (S fr)) by lia.
  replace (fr + 3) with (S (S (S fr))) by lia.
  replace (fr + 4) with (S (S (S (S fr)))) by lia.
  replace (fr + 5) with (S (S (S (S (S fr))))) by lia.
  destruct b_syn; run_teardown; cbn [map app]; assoc_right;
    rewrite skipn_length_app; cbn [app]; repeat split; reflexivity.
Qed.

Lemma live_session_round_trip_witness :
  tornDown initial
  /\ callsSince initial (disconnect Sample.page 3 Sample.live)
     = [ NewAudioContext 0 (Some SAMPLE_RATE_INPUT);
         NewAudioContext 1 (Some SAMPLE_RATE_OUTPUT);
         GetUserMedia 3; LiveConnect 4 Sample.liveConfig;
         ContextClose 0; ContextClose 1; StreamStopTracks 3; ProcessorDisconnect 5 ].
Proof.
  assert (H : tornDown initial) by (repeat split).
  split; [exact H|].
  destruct (live_session_round_trip Sample.page 0 1 2 3 Sample.liveConfig initial H)
    as (_ & _ & _ & _ & _ & _ & Hc & _).
  exact Hc.
Defined.

(** X10. [onopen] empties both transcript buffers whatever they held, shows
    [CONNECTED] and appends one system entry.  It wires a processing node
    exactly when both the input context and the microphone stream are held;
    an open that arrives after a teardown therefore holds nothing, and still
    shows [CONNECTED]. *)
Theorem onopen_resets (B : Browser) (now : nat) (s : State) :
  let s' := onopen now s in
  currentInputRef s' = "" /\ currentOutputRef s' = ""
  /\ status s' = CONNECTED
  /\ logs s' = logs s ++ [{| timestamp := now; sender := system;
                             message := "Uplink established. James is online." |}]
  /\ calls s' = calls s
  /\ match inputContextRef s, streamRef s with
     | Some _, Some _ => processorRef s' = Some (fresh s) /\ fresh s' = S (fresh s)
     | _, _ => processorRef s' = processorRef s /\ fresh s' = fresh s
     end
  /\ tornDown (onopen now (cleanup B s))
  /\ status (onopen now (cleanup B s)) = CONNECTED.
Proof.
  cbv zeta.
  assert (Hstale : forall x, tornDown x -> tornDown (onopen now x) /\ status (onopen now x) = CONNECTED).
  { intros x (Hs & Hi & Ho & Hm & Hp & Hr & Ha & Hn). unfold tornDown.
    dstate x. run_in Hs. run_in Hi. run_in Ho. run_in Hm. run_in Hp. run_in Hr.
    run_in Ha. run_in Hn. subst. run. repeat split. }
  split; [|split; [|split; [|split; [|split; [|split]]]]];
    try (dstate s; destruct ic, sm; run; repeat split; fail).
  apply Hstale. apply cleanup_tornDown.
Qed.

(** X11. A close or an error of the remote session moves the status, to
    [DISCONNECTED] or to [ERROR], and appends one system entry; it releases
    nothing, so contexts, stream and processing node stay held until
    [disconnect()], which then releases exactly what was held. *)
Theorem remote_close_releases_nothing (B : Browser) (now t : nat) (text : string) (s : State) :
  status (onclose now s) = DISCONNECTED
  /\ status (onerror now text s) = ERROR
  /\ calls (onclose now s) = calls s /\ calls (onerror now text s) = calls s
  /\ teardownCalls (onclose now s) = teardownCalls s
  /\ teardownCalls (onerror now text s) = teardownCalls s
  /\ logs (onclose now s)
     = logs s ++ [{| timestamp := now; sender := system; message := "Connection closed." |}]
  /\ logs (onerror now text s)
     = logs s ++ [{| timestamp := now; sender := system; message := "System Error: " ++ text |}]
  /\ callsSince s (disconnect B t (onclose now s)) = teardownCalls s
  /\ callsSince s (disconnect B t (onerror now text s)) = teardownCalls s.
Proof.
  assert (Hc : calls (onclose now s) = calls s) by (dstate s; reflexivity).
  assert (He : calls (onerror now text s) = calls s) by (dstate s; reflexivity).
  assert (Tc : teardownCalls (onclose now s) = teardownCalls s) by (dstate s; reflexivity).
  assert (Te : teardownCalls (onerror now text s) = teardownCalls s) by (dstate s; reflexivity).
  repeat split; try (dstate s; reflexivity); try assumption.
  - unfold callsSince. rewrite disconnect_calls, Hc, Tc. apply skipn_length_app.
  - unfold callsSince. rewrite disconnect_calls, He, Te. apply skipn_length_app.
Qed.

(** X12. [connect] releases nothing of an earlier session.  Two live
    set-ups in a row on an idle hook, then [disconnect()]: only the contexts
    and the stream of the second set-up are released; those of the first,
    their references overwritten, are not. *)
Theorem reconnect_leaks (B : Browser) (t : nat) (config : AIConfig) (s : State) :
  tornDown s ->
  let once := connectGemini_resume B Sample.setupOk t config
                (fst (connectGemini B Sample.setupOk t config s)) in
  let twice := connectGemini_resume B Sample.setupOk t config
                 (fst (connectGemini B Sample.setupOk t config once)) in
  let f := fresh s in
  releases (callsSince s (disconnect B t twice))
    = [ ContextClose (f + 5); ContextClose (f + 6); StreamStopTracks (f + 8) ]
  /\ inputContextRef once = Some f /\ outputContextRef once = Some (f + 1)
  /\ streamRef once = Some (f + 3)
  /\ tornDown (disconnect B t twice).
Proof.
  intros (Hs & Hi & Ho & Hm & Hp & Hr & Ha & Hn). cbv zeta.
  dstate s. dbrowser B. run_in Hs. run_in Hi. run_in Ho. run_in Hm. run_in Hp. run_in Hr.
  subst. unfold Sample.setupOk. cbn [fresh].
  replace (fr + 1) with (S fr) by lia.
  replace (fr + 3) with (S (S (S fr))) by lia.
  replace (fr + 5) with (S (S (S (S (S fr))))) by lia.
  replace (fr + 6) with (S (S (S (S (S (S fr)))))) by lia.
  replace (fr + 8) with (S (S (S (S (S (S (S (S fr)))))))) by lia.
  destruct b_syn; run_teardown; cbn [map app]; assoc_right;
    rewrite skipn_length_app; cbn [app]; repeat split; reflexivity.
Qed.

Lemma reconnect_leaks_witness :
  tornDown initial
  /\ releases
       (callsSince initial
          (disconnect Sample.page 0
             (connectGemini_resume Sample.page Sample.setupOk 0 Sample.liveConfig
                (fst (connectGemini Sample.page Sample.setupOk 0 Sample.liveConfig
                        (connectGemini_resume Sample.page Sample.setupOk 0 Sample.liveConfig
                           (fst (connectGemini Sample.page Sample.setupOk 0 Sample.liveConfig
                                   initial))))))))
     = [ ContextClose 5; ContextClose 6; StreamStopTracks 8 ].
Proof.
  assert (H : tornDown initial) by (repeat split).
  split; [exact H|].
  exact (proj1 (reconnect_leaks Sample.page 0 Sample.liveConfig initial H)).
Defined.

End Lifecycle.

(** ** Messages of the live session *)

Section LiveMessages.

(** X13. An interruption appends the system entry "Interruption detected."
    and, when the output transcript is not white space only, one [ai] entry
    with the trimmed text followed by " -- [INTERRUPTED]", after which the
    output buffer is empty.  The input buffer is not flushed: what the
    operator said so far stays in it, the delta of this message appended.
    Whether a [stop()] throws afterwards does not change any of this. *)
Theorem interruption_flushes_output (P : Playback) (now : nat) (m : LiveServerMessage)
    (s : State) :
  interrupted m = true -> turnComplete m = false ->
  let input := (currentInputRef s ++ deltaText (inputTranscription m))%string in
  let output := (currentOutputRef s ++ deltaText (outputTranscription m))%string in
  let s' := onmessage P now m s in
  logs s' = logs s
            ++ [{| timestamp := now; sender := system; message := "Interruption detected." |}]
            ++ (if Js.allWhiteSpace output then []
                else [{| timestamp := now; sender := ai;
                         message := Js.trim output ++ " -- [INTERRUPTED]" |}])
  /\ currentOutputRef s' = afterFlush output
  /\ currentInputRef s' = input
  /\ status s' = status s.
Proof.
  intros Hi Ht. cbv zeta. unfold onmessage.
  destruct (onmessage_transcripts_text m s) as (Hl & Hin & Hout).
  pose proof (onmessage_turnComplete_text now m (onmessage_transcripts m s)) as Hc.
  cbv zeta in Hc. rewrite Ht in Hc.
  destruct (onmessage_audio_text P m
              (onmessage_turnComplete now m (onmessage_transcripts m s))) as (Al & Ain & Aout).
  rewrite Hc in Al, Ain, Aout. rewrite Hl in Al. rewrite Hin in Ain. rewrite Hout in Aout.
  assert (As : status (onmessage_audio P m (onmessage_turnComplete now m (onmessage_transcripts m s)))
               = status s).
  { rewrite Hc. dstate s. dmessage m. dplayback P. branches; reflexivity. }
  rewrite Hc in *.
  revert Al Ain Aout As.
  generalize (onmessage_audio P m (onmessage_transcripts m s)). intros b Al Ain Aout As.
  unfold onmessage_interrupted, afterFlush. rewrite Hi.
  dstate b. dplayback P. run_in Al. run_in Ain. run_in Aout. run_in As. subst. run.
  rewrite trim_truthy.
  destruct (Js.allWhiteSpace _); cbn [negb]; run;
    destruct (stopEach p_throws srcs) as [stops done]; destruct done; run;
    assoc_right; repeat split; reflexivity.
Qed.

Lemma interruption_flushes_output_witness :
  interrupted Sample.interruption = true
  /\ map (fun e => (sender e, message e))
       (logs (onmessage (Sample.playback 0 0) 5 Sample.interruption
                (deliver Sample.hello Sample.live)))
     = map (fun e => (sender e, message e)) (logs Sample.live)
       ++ [(system, "Interruption detected."); (ai, "Hello -- [INTERRUPTED]")]
  /\ currentOutputRef (onmessage (Sample.playback 0 0) 5 Sample.interruption
                         (deliver Sample.hello Sample.live)) = "".
Proof.
  destruct (interruption_flushes_output (Sample.playback 0 0) 5 Sample.interruption
              (deliver Sample.hello Sample.live) eq_refl eq_refl) as (Hl & Ho & _).
  split; [reflexivity|]. split; [rewrite Hl; reflexivity | exact Ho].
Defined.

(** X14. A chunk that fails to decode is dropped without a trace in the
    hook: no source is started or registered, no handle is drawn, nothing is
    logged and the status stays; the cursor has nevertheless been clamped to
    the output clock. *)
Theorem decode_failure_dropped (P : Playback) (now : nat) (m : LiveServerMessage)
    (e : Thrown) (base64Audio : string) (ctx : nat) (s : State) :
  decodeAudioData P = Throws e ->
  inlineData m = Some base64Audio -> base64Audio <> "" ->
  outputContextRef s = Some ctx ->
  interrupted m = false -> turnComplete m = false ->
  let s' := onmessage P now m s in
  calls s' = calls s
  /\ sourcesRef s' = sourcesRef s
  /\ fresh s' = fresh s
  /\ logs s' = logs s
  /\ status s' = status s
  /\ nextStartTimeRef s' = Js.max (nextStartTimeRef s) (currentTime P).
Proof.
  intros Hd Ha Hne Ho Hi Ht. cbv zeta.
  assert (Hb : Js.truthy base64Audio = true) by (destruct base64Audio; [congruence | reflexivity]).
  dstate s. dmessage m. dplayback P.
  run_in Hd. run_in Ha. run_in Ho. run_in Hi. run_in Ht. subst.
  branches; rewrite ?Hb in *; repeat split; try reflexivity; try discriminate.
Qed.

Lemma decode_failure_dropped_witness :
  calls (onmessage {| currentTime := 7; decodeAudioData := Throws Sample.permissionDenied;
                      stopThrows := fun _ => false |} 5 (Sample.audio "AAAA") Sample.live)
    = calls Sample.live
  /\ nextStartTimeRef
       (onmessage {| currentTime := 7; decodeAudioData := Throws Sample.permissionDenied;
                     stopThrows := fun _ => false |} 5 (Sample.audio "AAAA") Sample.live)
     = Js.max 0 7.
Proof.
  destruct (decode_failure_dropped
              {| currentTime := 7; decodeAudioData := Throws Sample.permissionDenied;
                 stopThrows := fun _ => false |} 5 (Sample.audio "AAAA")
              Sample.permissionDenied "AAAA" 1 Sample.live
              eq_refl eq_refl ltac:(discriminate) eq_refl eq_refl eq_refl)
    as (Hc & _ & _ & _ & _ & Hn).
  split; assumption.
Defined.

(** What one live event does to a hook without output context. *)
Lemma handle_without_context (e : LiveEvent) (s : State) :
  outputContextRef s = None ->
  exists new,
    calls (handle e s) = calls s ++ new
    /\ scheduled new = []
    /\ outputContextRef (handle e s) = None
    /\ fresh (handle e s) = fresh s
    /\ (sourcesRef s = [] -> sourcesRef (handle e s) = []).
Proof.
  intros Ho. destruct e as [P now m | src]; cbn [handle].
  - unfold onmessage.
    destruct (onmessage_text_frame now m s) as (Hc & _ & Hf & Hx & Hs).
    rewrite <- Hx in Ho. revert Hc Hf Hs Ho.
    generalize (onmessage_turnComplete now m (onmessage_transcripts m s)).
    intros b Hc Hf Hs Ho. rewrite <- Hc, <- Hf, <- Hs.
    pose proof (stopEach_stops (stopThrows P) (sourcesRef b)) as Hst.
    dstate b. dmessage m. dplayback P. run_in Ho. subst. run_in Hst.
    assert (Hsch : forall l, (forall x t d, ~ In (SourceStart x t d) l) -> scheduled l = []).
    { induction l as [|c l IH]; [reflexivity|]. intros H.
      destruct c; cbn; try (apply IH; intros x t d Hin; eapply H; right; eassumption).
      exfalso. eapply H. left. reflexivity. }
    destruct m_audio as [b|]; run;
      (destruct m_int; run;
       [ destruct (Js.truthy (Js.trim co)); run;
         destruct (stopEach p_throws srcs) as [stops done] eqn:E; run_in Hst;
         destruct done; run;
         (exists stops; repeat split; try reflexivity; try (apply Hsch; exact Hst);
          intros ->; cbn in E; injection E as <- _; reflexivity)
       | exists []; rewrite app_nil_r; repeat split; auto ]).
  - exists []. rewrite app_nil_r. dstate s. run. run_in Ho.
    repeat split; auto. intros ->. reflexivity.
Qed.

(** Without an output context a message does not wait for a decoder: it
    is handled at once. *)
Lemma begin_without_context (P : Playback) (now : nat) (m : LiveServerMessage) (s : State) :
  outputContextRef s = None ->
  onmessage_begin P now m s = (onmessage P now m s, None).
Proof.
  intros Ho. destruct (onmessage_text_frame now m s) as (_ & _ & _ & Hx & _).
  rewrite <- Hx in Ho.
  unfold onmessage, onmessage_begin, onmessage_audio, onmessage_clamp.
  rewrite Ho. destruct (inlineData m); reflexivity.
Qed.

(** What one step does to a hook without output context and with no
    decoder pending. *)
Lemma step_without_context (e : LiveStep) (l : Live) :
  outputContextRef (hook l) = None -> decoding l = [] ->
  exists new,
    calls (hook (step e l)) = calls (hook l) ++ new
    /\ scheduled new = []
    /\ decoding (step e l) = []
    /\ outputContextRef (hook (step e l)) = None
    /\ fresh (hook (step e l)) = fresh (hook l)
    /\ (sourcesRef (hook l) = [] -> sourcesRef (hook (step e l)) = []).
Proof.
  intros Ho Hd. destruct e as [P now m | i P now | src]; cbn [step].
  - rewrite (begin_without_context P now m (hook l) Ho). cbn [hook decoding].
    destruct (handle_without_context (Message P now m) (hook l) Ho)
      as (new & H1 & H2 & H3 & H4 & H5).
    cbn [handle] in *. exists new. rewrite Hd. repeat split; assumption.
  - rewrite Hd. destruct i; cbn [nth_error];
      (exists []; rewrite app_nil_r; repeat split; auto).
  - destruct (handle_without_context (SourceEnded src) (hook l) Ho)
      as (new & H1 & H2 & H3 & H4 & H5).
    cbn [handle hook decoding] in *. exists new. repeat split; assumption.
Qed.

(** X15. With no output context and no decoder pending, nothing plays:
    whatever arrives, settles or ends, in any interleaving, no source is
    started or registered and no handler is left waiting.  But [disconnect()]
    does not call off a decoder that is pending: when it settles, its chunk is
    started at the cursor and registered, on the context that was closed, and
    the hook holds a source again. *)
Theorem nothing_plays_without_context (es : list LiveStep) (l : Live) :
  (outputContextRef (hook l) = None -> decoding l = [] ->
   scheduled (callsSince (hook l) (hook (interleave es l))) = []
   /\ decoding (interleave es l) = []
   /\ outputContextRef (hook (interleave es l)) = None
   /\ fresh (hook (interleave es l)) = fresh (hook l)
   /\ (sourcesRef (hook l) = [] -> sourcesRef (hook (interleave es l)) = []))
  /\ (forall B t P now k d,
        decodeAudioData P = Ok d -> interrupted (sus_message k) = false ->
        let down := disconnect B t (hook l) in
        let late := onmessage_resume P now k down in
        tornDown down
        /\ callsSince down late
           = [SourceStart (fresh (hook l)) (nextStartTimeRef (hook l)) d]
        /\ sourcesRef late = [fresh (hook l)]
        /\ outputContextRef late = None
        /\ ~ tornDown late).
Proof.
  split.
  - intros Ho Hd.
    assert (H : exists new,
               calls (hook (interleave es l)) = calls (hook l) ++ new
               /\ scheduled new = []
               /\ decoding (interleave es l) = []
               /\ outputContextRef (hook (interleave es l)) = None
               /\ fresh (hook (interleave es l)) = fresh (hook l)
               /\ (sourcesRef (hook l) = [] -> sourcesRef (hook (interleave es l)) = [])).
    { revert l Ho Hd. induction es as [|e es IH]; intros l Ho Hd.
      - exists []. rewrite app_nil_r. cbn. repeat split; auto.
      - change (interleave (e :: es) l) with (interleave es (step e l)).
        destruct (step_without_context e l Ho Hd) as (n1 & H1 & S1 & D1 & O1 & F1 & R1).
        destruct (IH _ O1 D1) as (n2 & H2 & S2 & D2 & O2 & F2 & R2).
        exists (n1 ++ n2). rewrite H2, H1, <- app_assoc, scheduled_app, S1, S2, F2, F1.
        repeat split; auto. }
    destruct H as (new & Hc & Hs & Hd' & Ho' & Hf & Hr).
    unfold callsSince. rewrite Hc, skipn_length_app.
    repeat split; auto.
  - intros B t P now k d Hdec Hi. cbv zeta.
    rewrite (onmessage_resume_calm P now k _ Hi).
    pose proof (onmessage_play_schedule P k (disconnect B t (hook l))) as Hp.
    rewrite Hdec in Hp. destruct Hp as (Hc & _ & Hs & _).
    destruct (disconnect_tornDown B t (hook l)) as [Htd _].
    destruct (disconnect_cursor B t (hook l)) as (Hsrc & _ & Hn).
    assert (Hf : fresh (disconnect B t (hook l)) = fresh (hook l)).
    { unfold disconnect.
      destruct (cleanup_frame B (addLog t system "Terminating Uplink..." (hook l)))
        as (_ & _ & _ & _ & _ & _ & Hf).
      rewrite Hf. destruct (hook l); reflexivity. }
    rewrite Hf, Hn in Hc. rewrite Hf, Hsrc in Hs.
    split; [exact Htd|].
    split; [unfold callsSince; rewrite Hc; apply skipn_length_app|].
    split; [exact Hs|].
    split.
    + replace (outputContextRef (onmessage_play P k (disconnect B t (hook l))))
        with (outputContextRef (disconnect B t (hook l))).
      * apply Htd.
      * unfold onmessage_play. rewrite Hdec. destruct (disconnect B t (hook l)); reflexivity.
    + intros (Hno & _). rewrite Hs in Hno. discriminate.
Qed.

(** A chunk arrives, [disconnect()] runs while its decoder is pending, and
    the decoder settles. *)
Lemma nothing_plays_without_context_witness :
  let waiting := step (Arrives (Sample.playback 1 1.5) 3 (Sample.audio "AAAA"))
                   {| hook := Sample.live; decoding := [] |} in
  let down := {| hook := disconnect Sample.page 9 (hook waiting); decoding := decoding waiting |} in
  List.length (decoding waiting) = 1
  /\ tornDown (hook down)
  /\ scheduled (callsSince (hook down) (hook (step (Decoded 0 (Sample.playback 1 1.5) 10) down)))
     = [ (1, 1.5) ]%float
  /\ sourcesRef (hook (step (Decoded 0 (Sample.playback 1 1.5) 10) down)) = [6]
  /\ scheduled (callsSince (disconnect Sample.page 9 Sample.live)
                  (hook (interleave Sample.outOfOrder
                           {| hook := disconnect Sample.page 9 Sample.live;
                              decoding := [] |}))) = [].
Proof.
  cbv zeta.
  destruct (nothing_plays_without_context Sample.outOfOrder
              {| hook := disconnect Sample.page 9 Sample.live; decoding := [] |})
    as [Hnone _].
  destruct (Hnone eq_refl eq_refl) as (H1 & _).
  destruct (nothing_plays_without_context []
              (step (Arrives (Sample.playback 1 1.5) 3 (Sample.audio "AAAA"))
                 {| hook := Sample.live; decoding := [] |})) as [_ Hlate].
  destruct (Hlate Sample.page 9 (Sample.playback 1 1.5) 10
              {| sus_context := 1; sus_message := Sample.audio "AAAA" |} 1.5%float
              eq_refl eq_refl) as (Htd & Hc & Hs & _).
  split; [reflexivity|]. split; [exact Htd|].
  split; [|split; [|exact H1]].
  - change (hook (step (Decoded 0 (Sample.playback 1 1.5) 10)
                    {| hook := disconnect Sample.page 9
                                 (hook (step (Arrives (Sample.playback 1 1.5) 3
                                                (Sample.audio "AAAA"))
                                          {| hook := Sample.live; decoding := [] |}));
                       decoding := decoding
                                     (step (Arrives (Sample.playback 1 1.5) 3
                                              (Sample.audio "AAAA"))
                                        {| hook := Sample.live; decoding := [] |}) |}))
      with (onmessage_resume (Sample.playback 1 1.5) 10
              {| sus_context := 1; sus_message := Sample.audio "AAAA" |}
              (disconnect Sample.page 9
                 (hook (step (Arrives (Sample.playback 1 1.5) 3 (Sample.audio "AAAA"))
                          {| hook := Sample.live; decoding := [] |})))).
    cbn [hook]. rewrite Hc. reflexivity.
  - vm_compute. reflexivity.
Defined.

Lemma filter_below (f : nat) (l : list nat) :
  Forall (fun x => x < f) l -> filter (fun x => negb (x =? f)) l = l.
Proof.
  induction 1 as [|a r Ha _ IH]; [reflexivity|]. cbn.
  destruct (Nat.eqb_spec a f) as [E|_]; [lia|]. cbn. rewrite IH. reflexivity.
Qed.

(** X16. A source that ends leaves the registry, and only it does: the
    other sources stay, in their order; the cursor, the history and
    everything else are untouched, and a second end of the same source
    changes nothing.  Scheduling a chunk and then seeing it end gives back the
    registry there was. *)
Theorem source_end_leaves_registry (source : nat) (s : State) :
  let s' := source_onended source s in
  ~ In source (sourcesRef s')
  /\ (forall x, x <> source -> (In x (sourcesRef s') <-> In x (sourcesRef s)))
  /\ sourcesRef s' = filter (fun x => negb (x =? source)) (sourcesRef s)
  /\ s' = set_sourcesRef (sourcesRef s') s
  /\ source_onended source s' = s'
  /\ (forall P m d,
        Forall (fun x => x < fresh s) (sourcesRef s) ->
        schedules P m s = Some d ->
        sourcesRef (source_onended (fresh s) (onmessage_audio P m s)) = sourcesRef s).
Proof.
  cbv zeta.
  assert (Hf : sourcesRef (source_onended source s)
               = filter (fun x => negb (x =? source)) (sourcesRef s)) by (dstate s; reflexivity).
  split; [|split; [|split; [exact Hf|split; [|split]]]].
  - rewrite Hf, filter_In. intros [_ H]. rewrite Nat.eqb_refl in H. discriminate.
  - intros x Hx. rewrite Hf, filter_In. apply Nat.eqb_neq in Hx. rewrite Hx. tauto.
  - dstate s. reflexivity.
  - dstate s. run. f_equal.
    induction srcs as [|a r IH]; [reflexivity|]. cbn.
    destruct (negb (a =? source)) eqn:E; cbn; rewrite ?E, IH; reflexivity.
  - intros P m d Hlt Hs.
    pose proof (onmessage_audio_registry P m s) as Hr. rewrite Hs in Hr. destruct Hr as [Hr _].
    assert (Hx : sourcesRef (source_onended (fresh s) (onmessage_audio P m s))
                 = filter (fun x => negb (x =? fresh s)) (sourcesRef (onmessage_audio P m s)))
      by (destruct (onmessage_audio P m s); reflexivity).
    rewrite Hx, Hr, filter_app. cbn. rewrite Nat.eqb_refl. cbn. rewrite app_nil_r.
    apply filter_below. exact Hlt.
Qed.

Lemma source_end_leaves_registry_witness :
  sourcesRef (deliver Sample.oneChunk Sample.live) = [6]
  /\ sourcesRef (source_onended 6 (deliver Sample.oneChunk Sample.live)) = []
  /\ sourcesRef (source_onended (fresh Sample.live)
                   (onmessage_audio (Sample.playback 0 5) (Sample.audio "AAAA") Sample.live))
     = sourcesRef Sample.live.
Proof.
  destruct (source_end_leaves_registry 6 (deliver Sample.oneChunk Sample.live))
    as (_ & _ & H3 & _).
  destruct (source_end_leaves_registry 0 Sample.live) as (_ & _ & _ & _ & _ & H6).
  split; [reflexivity|]. split; [rewrite H3; reflexivity|].
  apply (H6 (Sample.playback 0 5) (Sample.audio "AAAA") 5%float); [constructor | reflexivity].
Defined.

End LiveMessages.

(** ** Across all events *)

Section AllEvents.

Lemma catch_grows (B : Browser) (now : nat) (e : Thrown) (s : State) :
  (exists new, logs (connectGemini_catch B now e s) = logs s ++ new)
  /\ (exists cs, calls (connectGemini_catch B now e s) = calls s ++ cs)
  /\ fresh (connectGemini_catch B now e s) = fresh s.
Proof.
  destruct (connectGemini_catch_spec B now e s) as (Hl & _).
  split; [eexists; exact Hl|]. split.
  - unfold connectGemini_catch. rewrite cleanup_setStatus.
    destruct (Js.includes _ _); rewrite cleanup_addLog;
      exists (teardownCalls s); rewrite <- (cleanup_calls B s);
      destruct (cleanup B s); reflexivity.
  - unfold connectGemini_catch. rewrite cleanup_setStatus.
    destruct (Js.includes _ _); rewrite cleanup_addLog;
      rewrite <- (proj2 (proj2 (proj2 (proj2 (proj2 (proj2 (cleanup_frame B s)))))));
      destruct (cleanup B s); reflexivity.
Qed.

Lemma grows_refl (s : State) : grows s s.
Proof. repeat split; try (exists []; rewrite app_nil_r; reflexivity). lia. Qed.

Lemma grows_trans (a b c : State) : grows a b -> grows b c -> grows a c.
Proof.
  intros ((l1 & H1) & (c1 & G1) & F1) ((l2 & H2) & (c2 & G2) & F2).
  repeat split.
  - exists (l1 ++ l2). rewrite H2, H1, app_assoc. reflexivity.
  - exists (c1 ++ c2). rewrite G2, G1, app_assoc. reflexivity.
  - lia.
Qed.

Lemma grows_fields (s s' : State) (l : list LogEntry) (c : list Call) :
  logs s' = logs s ++ l -> calls s' = calls s ++ c -> fresh s <= fresh s' -> grows s s'.
Proof. intros H1 H2 H3. repeat split; eauto. Qed.

Ltac grown :=
  first
    [ apply grows_refl
    | eapply grows_fields; run; try assoc_right;
      [ first [reflexivity | symmetry; apply app_nil_r]
      | first [reflexivity | symmetry; apply app_nil_r]
      | lia ] ].

Lemma catch_grows' (B : Browser) (now : nat) (e : Thrown) (s : State) :
  grows s (connectGemini_catch B now e s).
Proof.
  destruct (catch_grows B now e s) as (H1 & H2 & H3). repeat split; auto. lia.
Qed.

Lemma disconnect_grows (B : Browser) (now : nat) (s : State) : grows s (disconnect B now s).
Proof.
  unfold disconnect. rewrite cleanup_addLog.
  destruct (cleanup_frame B s) as (Hl & _ & _ & _ & _ & _ & Hf).
  pose proof (cleanup_calls B s) as Hc.
  destruct (cleanup B s). run_in Hl. run_in Hf. run_in Hc. subst.
  eapply grows_fields; run; [reflexivity | reflexivity | lia].
Qed.

Lemma connectGemini_grows (B : Browser) (L : LiveSetup) (now : nat) (config : AIConfig)
    (s : State) :
  grows s (fst (connectGemini B L now config s)).
Proof.
  destruct L as [a b c d]. unfold connectGemini.
  destruct a as [[]|ea]; [destruct b as [[]|eb]|];
    cbn -[connectGemini_catch String.append].
  - dstate s. grown.
  - eapply grows_trans; [|apply catch_grows']. dstate s. grown.
  - eapply grows_trans; [|apply catch_grows']. dstate s. grown.
Qed.

Lemma connectGemini_resume_grows (B : Browser) (L : LiveSetup) (now : nat)
    (config : AIConfig) (s : State) :
  grows s (connectGemini_resume B L now config s).
Proof.
  destruct L as [a b c d]. unfold connectGemini_resume.
  destruct c as [[]|ec]; [destruct d as [[]|ed]|];
    cbn -[connectGemini_catch String.append].
  - dstate s. grown.
  - eapply grows_trans; [|apply catch_grows']. dstate s. grown.
  - apply catch_grows'.
Qed.

Lemma connectOpenAI_setup_grows (T : SpeechSetup) (now : nat) (config : AIConfig) (s : State) :
  grows s (fst (connectOpenAI_setup T now config s)).
Proof.
  destruct T as [a b c]. dstate s.
  destruct a as [[]|ea]; [destruct b as [[]|eb]; [destruct c as [[]|ec]|]|]; grown.
Qed.

Lemma connectOpenAI_grows (B : Browser) (T : SpeechSetup) (now : nat) (config : AIConfig)
    (s : State) :
  grows s (fst (connectOpenAI B T now config s)).
Proof.
  unfold connectOpenAI.
  destruct (hasSpeechRecognition B); cbn [negb]; [|dstate s; grown].
  destruct (hasSpeechSynthesis B); cbn [negb]; [|dstate s; grown].
  destruct (getVoices B); [dstate s; grown|].
  eapply grows_trans; [|apply connectOpenAI_setup_grows]. dstate s. grown.
Qed.

Lemma handle_grows (e : LiveEvent) (s : State) : grows s (handle e s).
Proof.
  destruct e as [P now m | src]; cbn [handle]; [|dstate s; grown].
  unfold onmessage.
  eapply grows_trans; [|eapply grows_trans; [|eapply grows_trans]].
  - instantiate (1 := onmessage_transcripts m s). dstate s. dmessage m. grown.
  - instantiate (1 := onmessage_turnComplete now m (onmessage_transcripts m s)).
    generalize (onmessage_transcripts m s). intros b. dstate b. dmessage m.
    destruct m_turn; [|grown]. run.
    destruct (Js.truthy (Js.trim ci)); run; destruct (Js.truthy (Js.trim co)); grown.
  - instantiate (1 := onmessage_audio P m
                        (onmessage_turnComplete now m (onmessage_transcripts m s))).
    generalize (onmessage_turnComplete now m (onmessage_transcripts m s)).
    intros b. dstate b. dmessage m. dplayback P.
    destruct m_audio as [a|], oc, p_decode; run; try grown;
      destruct (Js.truthy a); grown.
  - generalize (onmessage_audio P m
                  (onmessage_turnComplete now m (onmessage_transcripts m s))).
    intros b. dstate b. dmessage m. dplayback P.
    destruct m_int; [|grown]. run.
    destruct (Js.truthy (Js.trim co)); run;
      destruct (stopEach p_throws srcs) as [stops done]; destruct done; grown.
Qed.

Lemma turn_grows (tb : TurnBased) (e : TurnEvent) (s : State) : grows s (turn tb e s).
Proof.
  destruct e as [now | now error | | now event | B now i out | i | i]; cbn [turn].
  - dstate s. grown.
  - unfold recognition_onerror.
    destruct (_ || _); [grown|]. destruct (_ =? _)%string; [dstate s|]; grown.
  - unfold recognition_onend. destruct (_ && _); [dstate s|]; grown.
  - unfold recognition_onresult. destruct (isProcessingRef s); [grown|].
    destruct (_ && _); [dstate s|]; grown.
  - unfold completion_settled. destruct (completionResult out) as [aiText|error].
    + destruct (_ && _); dstate s; grown.
    + dstate s; grown.
  - unfold utterance_onend. destruct (nth_error _ _); [dstate s|]; grown.
  - unfold utterance_onerror, utterance_onend. destruct (nth_error _ _); [dstate s|]; grown.
Qed.

Lemma react_grows (e : HookEvent) (s : State) : grows s (react e s).
Proof.
  destruct e; cbn [react].
  - unfold connect. destruct (resolveApiKey B config) as [key|]; [|dstate s; grown].
    destruct (Js.truthy key); cbn [negb]; [|dstate s; grown].
    destruct (_ =? _)%string; [apply connectGemini_grows | apply connectOpenAI_grows].
  - apply connectGemini_resume_grows.
  - apply connectOpenAI_setup_grows.
  - apply disconnect_grows.
  - dstate s. destruct ic, sm; grown.
  - dstate s. grown.
  - dstate s. grown.
  - apply handle_grows.
  - apply turn_grows.
Qed.

Lemma reactAll_grows (es : list HookEvent) (s : State) : grows s (reactAll es s).
Proof.
  revert s. induction es as [|e es IH]; intros s; [apply grows_refl|].
  change (reactAll (e :: es) s) with (reactAll es (react e s)).
  eapply grows_trans; [apply react_grows | apply IH].
Qed.

(** X17. The log is append-only, and so is the history of calls: whatever
    sequence of calls, promises and callbacks the hook goes through, both
    pipelines mixed, set-ups failing or not, every entry logged before is
    still there, unchanged and at its place, and no handle is drawn twice. *)
Theorem log_is_append_only (es : list HookEvent) (s : State) :
  (exists new, logs (reactAll es s) = logs s ++ new)
  /\ (exists cs, calls (reactAll es s) = calls s ++ cs)
  /\ fresh s <= fresh (reactAll es s)
  /\ (forall i entry, nth_error (logs s) i = Some entry ->
                      nth_error (logs (reactAll es s)) i = Some entry).
Proof.
  destruct (reactAll_grows es s) as ((new & Hl) & Hc & Hf).
  repeat split; eauto.
  intros i entry Hi. rewrite Hl, nth_error_app1; [exact Hi|].
  apply nth_error_Some. congruence.
Qed.

Lemma log_is_append_only_witness :
  nth_error (logs Sample.live) 0
    = Some {| timestamp := 0; sender := system;
              message := "Initializing JAMES audio interface (gemini-live)..." |}
  /\ nth_error
       (logs (reactAll [ LiveDelivered (Message (Sample.playback 0 0) 3 (Sample.said "Hel"));
                         Disconnect Sample.page 4;
                         Connect Sample.page Sample.setupOk Sample.speechOk 5 Sample.groqConfig ]
                Sample.live)) 0
     = Some {| timestamp := 0; sender := system;
               message := "Initializing JAMES audio interface (gemini-live)..." |}.
Proof.
  split; [reflexivity|].
  apply (proj2 (proj2 (proj2 (log_is_append_only _ Sample.live)))). reflexivity.
Defined.

(** X18. What happens within a session does not move the status: no
    message, audio chunk, interruption or ended source of the live pipeline,
    and no recognition result, end of recognition, completion outcome,
    utterance event or recognition error other than "not-allowed" of the
    turn-based one. *)
Theorem status_moves_on_lifecycle_only (e : HookEvent) (s : State) :
  perItem e = true -> status (react e s) = status s.
Proof.
  destruct e as [| | | | | | | e | tb e]; cbn [perItem react]; try discriminate.
  - intros _. destruct e as [P now m | src]; cbn [handle]; [|dstate s; reflexivity].
    unfold onmessage.
    assert (H1 : status (onmessage_transcripts m s) = status s)
      by (dstate s; dmessage m; reflexivity).
    assert (H2 : forall b, status (onmessage_turnComplete now m b) = status b).
    { intros b. dstate b. dmessage m. destruct m_turn; [|reflexivity]. run.
      destruct (Js.truthy (Js.trim ci)); run; destruct (Js.truthy (Js.trim co)); reflexivity. }
    assert (H3 : forall b, status (onmessage_audio P m b) = status b).
    { intros b. dstate b. dmessage m. dplayback P.
      destruct m_audio as [a|], oc, p_decode; run; try reflexivity;
        destruct (Js.truthy a); reflexivity. }
    assert (H4 : forall b, status (onmessage_interrupted P now m b) = status b).
    { intros b. dstate b. dmessage m. dplayback P. destruct m_int; [|reflexivity]. run.
      destruct (Js.truthy (Js.trim co)); run;
        destruct (stopEach p_throws srcs) as [stops done]; destruct done; reflexivity. }
    rewrite H4, H3, H2, H1. reflexivity.
  - destruct e as [now | now error | | now event | B now i out | i | i];
      cbn [turn]; try discriminate; intros H.
    + unfold recognition_onerror. destruct (_ || _); [reflexivity|].
      apply negb_true_iff in H. rewrite H. reflexivity.
    + unfold recognition_onend. destruct (_ && _); [dstate s|]; reflexivity.
    + unfold recognition_onresult. destruct (isProcessingRef s); [reflexivity|].
      destruct (_ && _); [dstate s|]; reflexivity.
    + unfold completion_settled. destruct (completionResult out) as [aiText|error].
      * destruct (_ && _); dstate s; reflexivity.
      * dstate s; reflexivity.
    + unfold utterance_onend. destruct (nth_error _ _); [dstate s|]; reflexivity.
    + unfold utterance_onerror, utterance_onend.
      destruct (nth_error _ _); [dstate s|]; reflexivity.
Qed.

Lemma status_moves_on_lifecycle_only_witness :
  perItem (TurnDelivered Sample.session (Settled Sample.page 6 0 Sample.rateLimited)) = true
  /\ status (completion_settled Sample.page Sample.session 6 0 Sample.rateLimited Sample.thinking)
     = status Sample.thinking.
Proof.
  split; [reflexivity|].
  exact (status_moves_on_lifecycle_only
           (TurnDelivered Sample.session (Settled Sample.page 6 0 Sample.rateLimited))
           Sample.thinking eq_refl).
Defined.

(** X19. [disconnect()] does not call off an exchange under way: the
    request in flight and the processing flag are left as they are.  When the
    request then fails, or its reply has nothing to say, the handler starts
    the recogniser of its session again, after the teardown has stopped it;
    the hook no longer refers to that recogniser, so a further [disconnect()]
    does not stop it. *)
Theorem late_outcome_restarts_recogniser (B : Browser) (tb : TurnBased) (t1 t2 t3 i : nat)
    (out : FetchOutcome) (s : State) :
  (exists error, completionResult out = Throws error) \/ completionResult out = Ok "" ->
  let down := disconnect B t1 s in
  let late := completion_settled B tb t2 i out down in
  pendingFetch down = pendingFetch s
  /\ isProcessingRef down = isProcessingRef s
  /\ callsSince down late = [RecognitionStart (tb_recognition tb)]
  /\ isProcessingRef late = false
  /\ tornDown late
  /\ callsSince late (disconnect B t3 late) = [].
Proof.
  intros Ho. cbv zeta.
  destruct (cleanup_frame B (addLog t1 system "Terminating Uplink..." s))
    as (_ & _ & Hp & _ & _ & Hf & _).
  destruct (disconnect_tornDown B t1 s) as (Ht & _).
  unfold disconnect at 1 2. rewrite Hp, Hf.
  split; [dstate s; reflexivity|]. split; [dstate s; reflexivity|].
  assert (Hl : completion_settled B tb t2 i out (disconnect B t1 s)
               = call (RecognitionStart (tb_recognition tb))
                   (set_isProcessingRef false
                      (addLog t2 (match completionResult out with Ok _ => ai | Throws _ => system end)
                         (match completionResult out with
                          | Ok aiText => aiText
                          | Throws error => "LLM Error: " ++ messageText error
                          end)
                         (set_pendingFetch (removeAt i (pendingFetch (disconnect B t1 s)))
                            (disconnect B t1 s))))).
  { unfold completion_settled. destruct Ho as [(error & ->) | ->]; reflexivity. }
  rewrite Hl. revert Ht. generalize (disconnect B t1 s). intros d Ht.
  assert (Htl : tornDown (call (RecognitionStart (tb_recognition tb))
                   (set_isProcessingRef false
                      (addLog t2 (match completionResult out with Ok _ => ai | Throws _ => system end)
                         (match completionResult out with
                          | Ok aiText => aiText
                          | Throws error => "LLM Error: " ++ messageText error
                          end)
                         (set_pendingFetch (removeAt i (pendingFetch d)) d))))).
  { unfold tornDown in *. dstate d. exact Ht. }
  split; [dstate d; run; apply skipn_length_app|].
  split; [dstate d; reflexivity|].
  split; [exact Htl|].
  unfold callsSince. rewrite disconnect_calls, (teardownCalls_tornDown _ Htl).
  apply skipn_length_app.
Qed.

Lemma late_outcome_restarts_recogniser_witness :
  completionResult Sample.rateLimited = Throws (newError "rate limit exceeded")
  /\ callsSince (disconnect Sample.page 6 Sample.thinking)
       (completion_settled Sample.page Sample.session 7 0 Sample.rateLimited
          (disconnect Sample.page 6 Sample.thinking))
     = [RecognitionStart 0]
  /\ callsSince
       (completion_settled Sample.page Sample.session 7 0 Sample.rateLimited
          (disconnect Sample.page 6 Sample.thinking))
       (disconnect Sample.page 8
          (completion_settled Sample.page Sample.session 7 0 Sample.rateLimited
             (disconnect Sample.page 6 Sample.thinking)))
     = [].
Proof.
  destruct (late_outcome_restarts_recogniser Sample.page Sample.session 6 7 8 0
              Sample.rateLimited Sample.thinking
              (or_introl (ex_intro _ (newError "rate limit exceeded") eq_refl)))
    as (_ & _ & H1 & _ & _ & H2).
  split; [reflexivity|]. split; assumption.
Defined.

End AllEvents.

(** ** Texts and voices *)

Section Texts.

Lemma prefix_iff (p s : string) :
  String.prefix p s = true <-> exists r, s = (p ++ r)%string.
Proof.
  revert s. induction p as [|c p IH]; intros s.
  - destruct s; cbn; split; eauto.
  - destruct s as [|d s]; cbn.
    + split; [discriminate | intros (r & H); discriminate].
    + destruct (ascii_dec c d) as [->|Hne].
      * rewrite IH. split; intros (r & H); exists r; congruence.
      * split; [discriminate | intros (r & H); congruence].
Qed.

(** [includes] is the substring test. *)
Lemma includes_iff (p s : string) :
  Js.includes p s = true <-> exists a b, s = (a ++ p ++ b)%string.
Proof.
  induction s as [|d s IH]; cbn [Js.includes].
  - rewrite orb_false_r, prefix_iff. split.
    + intros (r & H). exists "", r. exact H.
    + intros (a & b & H). destruct a; [exists b; exact H | discriminate].
  - rewrite orb_true_iff, prefix_iff, IH. split.
    + intros [(r & H) | (a & b & H)]; [exists "", r; exact H|].
      exists (String d a), b. cbn. congruence.
    + intros (a & b & H). destruct a as [|x a]; [left; exists b; exact H|].
      right. exists a, b. cbn in H. congruence.
Qed.

(** X20. The set-up failure is reported as "Service Unavailable" exactly
    when the text of the failure, the message of the error or else its
    rendering as a string, contains "service is currently unavailable"
    somewhere, in this very spelling; every other failure is reported as
    "Init Error: " followed by that text. *)
Theorem service_unavailable_by_substring (B : Browser) (now : nat) (e : Thrown) (s : State) :
  let text := messageOrString e in
  let unavailable :=
    {| timestamp := now; sender := system;
       message := "Error: Service Unavailable. The model server is currently overloaded or experiencing downtime. Please try again later." |} in
  ((exists a b, text = (a ++ "service is currently unavailable" ++ b)%string) <->
   logs (connectGemini_catch B now e s) = logs s ++ [unavailable])
  /\ ((forall a b, text <> (a ++ "service is currently unavailable" ++ b)%string) ->
      logs (connectGemini_catch B now e s)
      = logs s ++ [{| timestamp := now; sender := system; message := "Init Error: " ++ text |}])
  /\ (forall m, error_message e = Some m -> m <> "" -> text = m)
  /\ (error_message e = None \/ error_message e = Some "" -> text = error_string e).
Proof.
  cbv zeta. destruct (connectGemini_catch_spec B now e s) as (Hl & _). rewrite Hl.
  rewrite <- includes_iff.
  split; [|split; [|split]].
  - destruct (Js.includes _ _); split; auto; try discriminate.
    intros H. apply app_inv_head in H. discriminate.
  - intros H. destruct (Js.includes _ _) eqn:E; [|reflexivity].
    apply includes_iff in E. destruct E as (a & b & E). exfalso. exact (H a b E).
  - intros m Hm Hne. unfold messageOrString. rewrite Hm.
    destruct m; [congruence | reflexivity].
  - unfold messageOrString. intros [-> | ->]; reflexivity.
Qed.

Lemma service_unavailable_by_substring_witness :
  map message
    (logs (connectGemini_catch Sample.page 1
             {| error_message := Some "503: The service is currently unavailable.";
                error_string := "Error" |} initial))
  = ["Error: Service Unavailable. The model server is currently overloaded or experiencing downtime. Please try again later."]
  /\ map message
       (logs (connectGemini_catch Sample.page 1
                {| error_message := Some "Service Is Currently Unavailable";
                   error_string := "Error" |} initial))
     = ["Init Error: Service Is Currently Unavailable"].
Proof.
  destruct (service_unavailable_by_substring Sample.page 1
              {| error_message := Some "503: The service is currently unavailable.";
                 error_string := "Error" |} initial) as ([H _] & _).
  rewrite (H (ex_intro _ "503: The " (ex_intro _ "." eq_refl))).
  split; reflexivity.
Defined.

Lemma includes_tail (c : ascii) (p s : string) :
  Js.includes (String c p) s = true -> Js.includes p s = true.
Proof.
  rewrite !includes_iff. intros (a & b & ->).
  exists (a ++ String c "")%string, b. rewrite append_assoc. reflexivity.
Qed.

Lemma find_first {A : Type} (f : A -> bool) (l : list A) (x : A) :
  In x l -> f x = true -> exists y, find f l = Some y.
Proof.
  intros Hin Hf. destruct (find f l) as [y|] eqn:E; [eauto|].
  rewrite (find_none _ _ E x Hin) in Hf. discriminate.
Qed.

(** X21. The gender marker is looked for in the lower-cased name as the
    substring "male", which "female" contains: a voice of the locale family
    whose name says female, in any capitalisation, carries the marker.  When
    the named voice is not available, such a voice makes the cascade stop at
    its second step, with a marked voice of the family, before a voice of the
    exact locale is considered. *)
Theorem female_carries_marker (voices : list Voice) (v : Voice) :
  Js.includes "female" (Js.toLowerCase (voice_name v)) = true ->
  hasGenderMarker v = true
  /\ (In v voices -> inLocaleFamily v = true ->
      find isPreferredVoice voices = None ->
      exists w, selectVoice voices = Some w /\ In w voices
                /\ inLocaleFamily w = true /\ hasGenderMarker w = true
                /\ selectVoice voices
                   = find (fun v => inLocaleFamily v && hasGenderMarker v) voices).
Proof.
  intros Hf.
  assert (Hm : hasGenderMarker v = true).
  { unfold hasGenderMarker. rewrite (includes_tail _ _ _ (includes_tail _ _ _ Hf)).
    reflexivity. }
  split; [exact Hm|].
  intros Hin Hfam Hnone.
  destruct (find_first (fun v => inLocaleFamily v && hasGenderMarker v) voices v Hin)
    as (w & Hw); [rewrite Hfam, Hm; reflexivity|].
  exists w.
  assert (E : selectVoice voices = Some w).
  { unfold selectVoice.
    change (find (fun v0 => Js.includes "Microsoft Daniel" (voice_name v0)
                            && Js.includes "pt" (voice_lang v0)) voices)
      with (find isPreferredVoice voices).
    rewrite Hnone.
    change (find (fun v0 => Js.includes "pt" (voice_lang v0)
                            && (Js.includes "male" (Js.toLowerCase (voice_name v0))
                                || Js.includes "masculino" (Js.toLowerCase (voice_name v0))))
              voices)
      with (find (fun v => inLocaleFamily v && hasGenderMarker v) voices).
    rewrite Hw. reflexivity. }
  apply find_some in Hw as Hw'. destruct Hw' as [Hwin Hwp]. apply andb_prop in Hwp.
  rewrite E, Hw. repeat split; tauto.
Qed.

Lemma female_carries_marker_witness :
  selectVoice [ {| voice_name := "Google portugues do Brasil"; voice_lang := "pt-BR" |};
                {| voice_name := "Joana FEMALE"; voice_lang := "pt-PT" |} ]
  = Some {| voice_name := "Joana FEMALE"; voice_lang := "pt-PT" |}.
Proof.
  destruct (female_carries_marker
              [ {| voice_name := "Google portugues do Brasil"; voice_lang := "pt-BR" |};
                {| voice_name := "Joana FEMALE"; voice_lang := "pt-PT" |} ]
              {| voice_name := "Joana FEMALE"; voice_lang := "pt-PT" |} eq_refl) as [_ H].
  destruct (H (or_intror (or_introl eq_refl)) eq_refl eq_refl) as (w & _ & _ & _ & _ & E).
  rewrite E. reflexivity.
Defined.

Lemma find_filter {A : Type} (p q : A -> bool) (l : list A) :
  (forall x, p x = true -> q x = true) -> find p (filter q l) = find p l.
Proof.
  intros H. induction l as [|a l IH]; [reflexivity|]. cbn.
  destruct (q a) eqn:Eq; cbn.
  - destruct (p a); [reflexivity | exact IH].
  - destruct (p a) eqn:Ep; [rewrite (H a Ep) in Eq; discriminate | exact IH].
Qed.

(** X22. Voices outside the locale family have no say: the selection on
    the whole list is the selection on the voices of the family alone, so
    two lists with the same voices of the family, in the same order, give the
    same voice. *)
Theorem selection_ignores_other_locales (voices : list Voice) :
  selectVoice (filter inLocaleFamily voices) = selectVoice voices
  /\ (forall others,
        filter inLocaleFamily others = filter inLocaleFamily voices ->
        selectVoice others = selectVoice voices).
Proof.
  assert (H : forall l, selectVoice (filter inLocaleFamily l) = selectVoice l).
  { intros l. unfold selectVoice.
    rewrite !find_filter; [reflexivity | | | |]; intros x Hx.
    - exact Hx.
    - apply (preferences_in_family isTargetLocale x); [cbn; tauto | exact Hx].
    - apply andb_prop in Hx. apply Hx.
    - apply andb_prop in Hx. apply Hx. }
  split; [apply H|].
  intros others E. rewrite <- (H others), <- (H voices), E. reflexivity.
Qed.

Lemma selection_ignores_other_locales_witness :
  filter inLocaleFamily (getVoices Sample.page)
    = filter inLocaleFamily
        [ {| voice_name := "Google portugues do Brasil"; voice_lang := "pt-BR" |} ]
  /\ selectVoice (getVoices Sample.page)
     = selectVoice [ {| voice_name := "Google portugues do Brasil"; voice_lang := "pt-BR" |} ].
Proof.
  split; [reflexivity|].
  apply (proj2 (selection_ignores_other_locales
                  [ {| voice_name := "Google portugues do Brasil"; voice_lang := "pt-BR" |} ])).
  reflexivity.
Defined.

Lemma trimEnd_again (x : string) : Js.trimEnd (Js.trimEnd x) = Js.trimEnd x.
Proof.
  induction x as [|c t IH]; [reflexivity|]. cbn [Js.trimEnd].
  destruct (Js.trimEnd t) as [|d r] eqn:E.
  - destruct (Js.isWhiteSpace c) eqn:W; [reflexivity|]. cbn. rewrite W. reflexivity.
  - cbn [Js.trimEnd] in *. rewrite IH. reflexivity.
Qed.

(** [trim] takes off all the white space there is at both ends. *)
Lemma trim_again (s : string) : Js.trim (Js.trim s) = Js.trim s.
Proof.
  unfold Js.trim. pose proof (trimStart_head s) as H.
  destruct (Js.trimStart s) as [|c t]; [reflexivity|].
  assert (Hs : Js.trimStart (Js.trimEnd (String c t)) = Js.trimEnd (String c t)).
  { cbn [Js.trimEnd]. destruct (Js.trimEnd t); [rewrite H; cbn; rewrite H; reflexivity|].
    cbn. rewrite H. reflexivity. }
  rewrite Hs. apply trimEnd_again.
Qed.

(** X23. The entries a completed turn puts in the log are trimmed and never
    empty: each is a [user] or an [ai] entry whose message is not empty and
    has no white space left at either end. *)
Theorem flushed_entries_are_trimmed (P : Playback) (now : nat) (m : LiveServerMessage)
    (s : State) :
  turnComplete m = true -> interrupted m = false ->
  Forall (fun entry => (sender entry = user \/ sender entry = ai)
                       /\ message entry <> ""
                       /\ Js.trim (message entry) = message entry
                       /\ timestamp entry = now)
    (skipn (List.length (logs s)) (logs (onmessage P now m s))).
Proof.
  intros Ht Hi. pose proof (onmessage_text P now m s Hi) as H. cbv zeta in H.
  rewrite Ht in H. destruct H as (Hl & _). rewrite Hl, skipn_length_app.
  assert (Hf : forall who buffer, who = user \/ who = ai ->
             Forall (fun entry => (sender entry = user \/ sender entry = ai)
                                  /\ message entry <> ""
                                  /\ Js.trim (message entry) = message entry
                                  /\ timestamp entry = now) (flushed now who buffer)).
  { intros who buffer Hw. unfold flushed.
    destruct (Js.allWhiteSpace buffer) eqn:E; constructor; [|constructor].
    cbn. split; [exact Hw|]. split; [|split; [apply trim_again | reflexivity]].
    pose proof (trim_truthy buffer) as Hy. rewrite E in Hy. cbn in Hy.
    intros Hz. rewrite Hz in Hy. discriminate. }
  apply Forall_app. split; apply Hf; auto.
Qed.

Lemma flushed_entries_are_trimmed_witness :
  skipn (List.length (logs Sample.live))
    (logs (onmessage (Sample.playback 0 0) 5
             {| inputTranscription := Some "  ola  "; outputTranscription := Some "   ";
                turnComplete := true; inlineData := None; interrupted := false |}
             Sample.live))
  = [{| timestamp := 5; sender := user; message := "ola" |}]
  /\ Js.trim "ola" = "ola".
Proof.
  pose proof (flushed_entries_are_trimmed (Sample.playback 0 0) 5
                {| inputTranscription := Some "  ola  "; outputTranscription := Some "   ";
                   turnComplete := true; inlineData := None; interrupted := false |}
                Sample.live eq_refl eq_refl) as H.
  assert (E : skipn (List.length (logs Sample.live))
                (logs (onmessage (Sample.playback 0 0) 5
                         {| inputTranscription := Some "  ola  ";
                            outputTranscription := Some "   ";
                            turnComplete := true; inlineData := None; interrupted := false |}
                         Sample.live))
              = [{| timestamp := 5; sender := user; message := "ola" |}]) by reflexivity.
  rewrite E in H. inversion H as [|? ? (_ & _ & Ht & _) _]; subst.
  split; [exact E | exact Ht].
Defined.

End Texts.

(** * The components around the hook *)

Section Components.

(** X24. The settings form changes the field it is asked to change and no
    other: the field reads back the value typed, a later value replaces an
    earlier one, typing what is there changes nothing, and edits of different
    fields commute.  The form has inputs for the model and for the system
    prompt only, and those edits leave the credential [connect] resolves, the
    provider and the completion endpoint as they were. *)
Theorem settings_edit (f g : ConfigField) (v w : string) (c : AIConfig) :
  getField f (handleChange f v c) = v
  /\ (f <> g -> getField g (handleChange f v c) = getField g c)
  /\ handleChange f w (handleChange f v c) = handleChange f w c
  /\ handleChange f (getField f c) c = c
  /\ (f <> g ->
      handleChange f v (handleChange g w c) = handleChange g w (handleChange f v c))
  /\ (editable f = true ->
      provider (handleChange f v c) = provider c
      /\ baseUrl (handleChange f v c) = baseUrl c
      /\ forall B, resolveApiKey B (handleChange f v c) = resolveApiKey B c).
Proof.
  destruct c as [p m vn si k].
  split; [destruct f; reflexivity|].
  split; [destruct f, g; try reflexivity; congruence|].
  split; [destruct f; reflexivity|].
  split; [destruct f; reflexivity|].
  split; [destruct f, g; try reflexivity; congruence|].
  destruct f; try discriminate; intros _; repeat split.
Qed.

Lemma settings_edit_witness :
  ModelId <> SystemInstruction
  /\ getField SystemInstruction (handleChange ModelId "gpt-4o-mini" Sample.openaiConfig)
     = "You are James."
  /\ baseUrl (handleChange ModelId "gpt-4o-mini" Sample.openaiConfig)
     = baseUrl Sample.openaiConfig.
Proof.
  destruct (settings_edit ModelId SystemInstruction "gpt-4o-mini" "" Sample.openaiConfig)
    as (_ & H2 & _ & _ & _ & H6).
  split; [discriminate|]. split; [apply H2; discriminate|].
  exact (proj1 (proj2 (H6 eq_refl))).
Defined.

Lemma rowsFrom_length (k : nat) (entries : list LogEntry) :
  List.length (rowsFrom k entries) = List.length entries.
Proof. revert k. induction entries as [|e r IH]; intros k; cbn; [|rewrite IH]; reflexivity. Qed.

Lemma rowsFrom_app (k : nat) (entries new : list LogEntry) :
  rowsFrom k (entries ++ new) = rowsFrom k entries ++ rowsFrom (k + List.length entries) new.
Proof.
  revert k. induction entries as [|e r IH]; intros k; cbn.
  - rewrite Nat.add_0_r. reflexivity.
  - rewrite IH. replace (S k + List.length r) with (k + S (List.length r)) by lia. reflexivity.
Qed.

Lemma rowsFrom_nth (k i : nat) (entries : list LogEntry) (log : LogEntry) :
  nth_error entries i = Some log ->
  nth_error (rowsFrom k entries) i
  = Some {| row_key := k + i; row_timestamp := timestamp log;
            row_class := senderClass (sender log); row_label := senderLabel (sender log);
            row_message := message log |}.
Proof.
  revert k i. induction entries as [|e r IH]; intros k [|i]; cbn; try discriminate.
  - intros [= ->]. rewrite Nat.add_0_r. reflexivity.
  - intros H. rewrite (IH (S k) i H). replace (S k + i) with (k + S i) by lia. reflexivity.
Qed.

(** X25. The log view shows one row per entry, in the order of the log,
    keyed by its position, with the message as logged; the placeholder line
    is shown exactly when there is no entry.  Name and colour each tell the
    three senders apart.  New entries add rows at the end and leave the rows
    shown, keys included, as they are; so whatever the hook goes through, the
    rows on screen only gain successors. *)
Theorem logger_rows (entries new : list LogEntry) :
  List.length (renderRows entries) = List.length entries
  /\ (showsPlaceholder entries = true <-> renderRows entries = [])
  /\ (forall i log,
        nth_error entries i = Some log ->
        nth_error (renderRows entries) i
        = Some {| row_key := i; row_timestamp := timestamp log;
                  row_class := senderClass (sender log);
                  row_label := senderLabel (sender log);
                  row_message := message log |})
  /\ renderRows (entries ++ new)
     = renderRows entries ++ rowsFrom (List.length entries) new
  /\ (forall a b, senderLabel a = senderLabel b -> a = b)
  /\ (forall a b, senderClass a = senderClass b -> a = b)
  /\ (forall es s, exists later,
        renderRows (logs (reactAll es s)) = renderRows (logs s) ++ later).
Proof.
  split; [apply rowsFrom_length|].
  split; [destruct entries; cbn; split; intros; congruence|].
  split; [intros i log H; apply (rowsFrom_nth 0 i entries log H)|].
  split; [apply (rowsFrom_app 0)|].
  split; [intros [] []; cbn; congruence|].
  split; [intros [] []; cbn; congruence|].
  intros es s. destruct (reactAll_grows es s) as ((added & Hl) & _).
  rewrite Hl. unfold renderRows. rewrite rowsFrom_app. eauto.
Qed.

Lemma logger_rows_witness :
  nth_error (logs Sample.thinking) 1
    = Some {| timestamp := 5; sender := user; message := "status report" |}
  /\ nth_error (renderRows (logs Sample.thinking)) 1
     = Some {| row_key := 1; row_timestamp := 5; row_class := "text-emerald-400";
               row_label := "OPERATOR"; row_message := "status report" |}
  /\ showsPlaceholder (logs initial) = true.
Proof.
  destruct (logger_rows (logs Sample.thinking) []) as (_ & _ & H & _).
  split; [reflexivity|]. split; [exact (H 1 _ eq_refl) | reflexivity].
Defined.

Lemma dataIndex_table :
  forallb (fun bufferLength =>
             forallb (fun i => match Visualizer.dataIndex i bufferLength with
                               | Some d => (d =? i * bufferLength / 120)%Z
                               | None => false
                               end)
                     Visualizer.barIndices)
          Visualizer.binCounts = true.
Proof. vm_compute. reflexivity. Qed.

Lemma barIndices_spec (i : Z) :
  (0 <= i < Visualizer.bars)%Z -> In i Visualizer.barIndices.
Proof.
  intros Hi. unfold Visualizer.barIndices.
  rewrite <- (Z2Nat.id i) by lia. apply in_map. apply in_seq.
  unfold Visualizer.bars in *. lia.
Qed.

Lemma binCounts_positive (bufferLength : Z) :
  In bufferLength Visualizer.binCounts -> (16 <= bufferLength <= 16384)%Z.
Proof.
  unfold Visualizer.binCounts. intros H. apply in_map_iff in H.
  destruct H as (k & <- & Hk). apply in_seq in Hk.
  split.
  - change 16%Z with (2 ^ 4)%Z. apply Z.pow_le_mono_r; lia.
  - change 16384%Z with (2 ^ 14)%Z. apply Z.pow_le_mono_r; lia.
Qed.

(** The rounding of the doubles shows at other lengths: for 150 values bar
    44 reads index 54, where the exact quotient is 55. *)
Example index_rounding :
  Visualizer.dataIndex 44 150 = Some 54%Z /\ (44 * 150 / 120 = 55)%Z.
Proof. split; vm_compute; reflexivity. Qed.

(** X26. The bars read the lower half of the frequency data and nothing
    else.  For each size the frequency data of an analyser can have, a power
    of two from 16 to 16384, and each of the 60 bars, the index computed in
    doubles is [i * bufferLength / 120] rounded down: it is not negative, lies
    below half the length, hence within the data, and does not decrease from
    one bar to the next. *)
Theorem bars_read_lower_half (i bufferLength : Z) :
  In bufferLength Visualizer.binCounts -> (0 <= i < Visualizer.bars)%Z ->
  exists d,
    Visualizer.dataIndex i bufferLength = Some d
    /\ d = (i * bufferLength / 120)%Z
    /\ (0 <= d)%Z
    /\ (2 * d < bufferLength)%Z
    /\ (d < bufferLength)%Z
    /\ (forall d', (i + 1 < Visualizer.bars)%Z ->
                   Visualizer.dataIndex (i + 1) bufferLength = Some d' -> (d <= d')%Z).
Proof.
  intros Hl Hi.
  assert (Hread : forall j, (0 <= j < Visualizer.bars)%Z ->
            Visualizer.dataIndex j bufferLength = Some (j * bufferLength / 120)%Z).
  { intros j Hj. pose proof dataIndex_table as T.
    rewrite forallb_forall in T. specialize (T _ Hl).
    rewrite forallb_forall in T. specialize (T _ (barIndices_spec j Hj)).
    destruct (Visualizer.dataIndex j bufferLength) as [d|]; [|discriminate].
    apply Z.eqb_eq in T. now subst d. }
  pose proof (binCounts_positive _ Hl) as Hpos.
  unfold Visualizer.bars in *.
  exists (i * bufferLength / 120)%Z.
  assert (H0 : (0 <= i * bufferLength / 120)%Z) by (apply Z.div_pos; nia).
  assert (H1 : (120 * (i * bufferLength / 120) <= i * bufferLength)%Z)
    by (apply Z.mul_div_le; lia).
  split; [apply Hread; lia|]. split; [reflexivity|]. split; [exact H0|].
  split; [nia|]. split; [nia|].
  intros d' Hn Hd'. rewrite Hread in Hd' by lia. injection Hd' as <-.
  apply Z.div_le_mono; nia.
Qed.

Lemma bars_read_lower_half_witness :
  exists d, Visualizer.dataIndex 59 256 = Some d /\ d = 125%Z /\ (2 * d < 256)%Z.
Proof.
  assert (Hl : In 256%Z Visualizer.binCounts)
    by (vm_compute; repeat (try (left; reflexivity); right)).
  assert (Hi : (0 <= 59 < Visualizer.bars)%Z) by (unfold Visualizer.bars; lia).
  destruct (bars_read_lower_half 59 256 Hl Hi) as (d & Hd & E & _ & H & _).
  exists d. split; [exact Hd|]. split; [rewrite E; reflexivity | exact H].
Defined.

Lemma level_bounds (value : Byte.byte) :
  (0 <= Visualizer.level value <= 255)%Q.
Proof.
  unfold Visualizer.level. pose proof (Byte.to_N_bounded value) as H.
  split.
  - change 0%Q with (inject_Z 0). rewrite <- Zle_Qle. lia.
  - change 255%Q with (inject_Z 255). rewrite <- Zle_Qle. lia.
Qed.

Lemma total_bounds (dataArray : list Byte.byte) (acc : Q) :
  (acc <= fold_left (fun a b => a + Visualizer.level b) dataArray acc)%Q
  /\ (fold_left (fun a b => a + Visualizer.level b) dataArray acc
      <= acc + 255 * inject_Z (Z.of_nat (List.length dataArray)))%Q.
Proof.
  revert acc. induction dataArray as [|b r IH]; intros acc.
  - cbn. split; [apply Qle_refl|]. change (inject_Z 0) with 0%Q. lra.
  - cbn [fold_left List.length]. destruct (IH (acc + Visualizer.level b)%Q) as [H1 H2].
    pose proof (level_bounds b) as Hb.
    rewrite Nat2Z.inj_succ. unfold Z.succ. rewrite inject_Z_plus.
    change (inject_Z 1) with 1%Q. split; lra.
Qed.

(** X27. The drawing stays in proportion to the ring: on a ring of radius
    [r], a bar is between nothing and 0.8 r long, so it ends between r + 5 and
    1.8 r + 5 from the centre, and the glow of data that is not empty has a
    radius between 0.4 r and 0.8 r.  On a square canvas the ring has a third
    of the side as radius, and a bar at full level ends beyond half the side,
    which is how far the edge of the canvas is from the centre. *)
Theorem drawing_in_proportion (value : Byte.byte) (dataArray : list Byte.byte) (r side : Q) :
  (0 <= r)%Q ->
  (0 <= Visualizer.barHeight value r <= r * (8 # 10))%Q
  /\ (r + 5 <= Visualizer.barEnd value r <= r * (18 # 10) + 5)%Q
  /\ (dataArray <> [] ->
      (r * (4 # 10) <= Visualizer.glowRadius dataArray r <= r * (8 # 10))%Q)
  /\ (0 < side ->
      Visualizer.radius side side == side / 3
      /\ side / 2 < Visualizer.barEnd Byte.xff (Visualizer.radius side side))%Q.
Proof.
  intros Hr.
  assert (Hb : (0 <= Visualizer.barHeight value r <= r * (8 # 10))%Q).
  { unfold Visualizer.barHeight. pose proof (level_bounds value) as [H0 H1].
    set (l := Visualizer.level value) in *.
    assert (E : (l / 255 * (r * (8 # 10)) == l * r * (8 # 2550))%Q) by field.
    rewrite E. split; nra. }
  split; [exact Hb|].
  split; [unfold Visualizer.barEnd; split; lra|].
  split.
  - intros Hne. unfold Visualizer.glowRadius, Visualizer.total.
    destruct (total_bounds dataArray 0) as [H0 H1].
    set (t := fold_left _ dataArray 0%Q) in *.
    assert (Hn : (0 < inject_Z (Z.of_nat (List.length dataArray)))%Q).
    { change 0%Q with (inject_Z 0). rewrite <- Zlt_Qlt.
      destruct dataArray; [congruence | cbn; lia]. }
    set (n := inject_Z (Z.of_nat (List.length dataArray))) in *.
    assert (Ha : (0 <= t / n <= 255)%Q).
    { split.
      - apply Qle_shift_div_l; [exact Hn | lra].
      - apply Qle_shift_div_r; [exact Hn | lra]. }
    set (a := (t / n)%Q) in *.
    assert (E : (a / 255 * (r * (4 # 10)) == a * r * (4 # 2550))%Q) by field.
    rewrite E. split; nra.
  - intros Hs.
    assert (Er : (Visualizer.radius side side == side / 3)%Q).
    { unfold Visualizer.radius. rewrite Q.min_id. reflexivity. }
    split; [exact Er|].
    unfold Visualizer.barEnd, Visualizer.barHeight. rewrite Er.
    assert (El : Visualizer.level Byte.xff = 255%Q) by reflexivity.
    rewrite El.
    assert (E : (side / 3 + 255 / 255 * (side / 3 * (8 # 10)) + 5
                 == side * (6 # 10) + 5)%Q) by field.
    rewrite E.
    assert (E2 : (side / 2 == side * (1 # 2))%Q) by field.
    rewrite E2. clear - Hs. lra.
Qed.

Lemma drawing_in_proportion_witness :
  (0 <= Visualizer.radius 600 600)%Q
  /\ (Visualizer.barEnd Byte.xff (Visualizer.radius 600 600) == 365)%Q
  /\ (600 / 2 < Visualizer.barEnd Byte.xff (Visualizer.radius 600 600))%Q.
Proof.
  assert (H : (0 <= Visualizer.radius 600 600)%Q) by (vm_compute; discriminate).
  destruct (drawing_in_proportion Byte.xff [] (Visualizer.radius 600 600) 600 H)
    as (_ & _ & _ & Hc).
  split; [exact H|]. split; [reflexivity|].
  exact (proj2 (Hc ltac:(reflexivity))).
Defined.

End Components.
